(** * The icon optimisation script (scripts/optimize.ts)

    A shallow embedding of the build script that walks [raw/], hands every
    SVG file to the SVGO engine with a per-file configuration, writes the
    results flat into [optimized/] and finishes with [manifest.json].

    Layout of the development:
    - [JS]       the JavaScript and Node primitives the script calls
                 (string methods, [path.basename], [JSON.stringify]);
    - [Svgo]     the shape of an SVGO [Config];
    - [Fs]       the file system the script runs against;
    - [Optimize] the script itself: [ensureDir], [optimizeSvg],
                 [getSvgFiles], [processFiles], and a run told stage by
                 stage;
    - [Spec]     discovery and the order of a run in the words of the
                 specification;
    - [Readdir]  what [fs.readdir] yields: the names of the entries, the
                 size of a directory;
    - [JSONParse] the string grammar of [JSON.parse], to read a manifest
                 back;
    - [Sample]   a few source trees and engines to run the script on;
    - [React], [Icons] the icon component of
                 [packages/react/src/icons/lock.tsx];
    - the properties of the script and of the component. *)

From Stdlib Require Import ZArith String Ascii List Lia Decimal DecimalString PrimFloat.
From stdpp Require Import gmap strings list.

Local Open Scope string_scope.
Set Warnings "-register-all".

(** ** JavaScript and Node primitives *)

Module JS.

(** Strings are sequences of 8-bit units holding UTF-8 text.  The script
    only ever inspects ASCII units ([/], [.], the letters of [svg], the
    characters JSON escapes); every other unit is carried along unchanged. *)

(** [String.prototype.toLowerCase], on the ASCII letters.  No unit outside
    [A-Z] lowers to one of [.], [s], [v], [g], which is all the script
    looks for in the lowered string. *)
Definition lower_ascii (c : ascii) : ascii :=
  let n := nat_of_ascii c in
  if (65 <=? n)%nat && (n <=? 90)%nat then ascii_of_nat (n + 32) else c.

Fixpoint toLowerCase (s : string) : string :=
  match s with
  | EmptyString => EmptyString
  | String c r => String (lower_ascii c) (toLowerCase r)
  end.

(** [String.prototype.endsWith(suffix)]. *)
Definition endsWith (s suffix : string) : bool :=
  let n := String.length s in
  let m := String.length suffix in
  (m <=? n)%nat && String.eqb (String.substring (n - m) m s) suffix.

Definition charCodeAt (s : string) (i : Z) : option ascii :=
  if (i <? 0)%Z then None else String.get (Z.to_nat i) s.

(** [String.prototype.slice(from, to)]: negative indices count from the
    end, both are clamped to the string, an empty range gives [""]. *)
Definition slice (s : string) (from to : Z) : string :=
  let len := Z.of_nat (String.length s) in
  let clamp k := if (k <? 0)%Z then Z.max (len + k) 0 else Z.min k len in
  let a := clamp from in
  let b := clamp to in
  String.substring (Z.to_nat a) (Z.to_nat (Z.max (b - a) 0)) s.

Definition CHAR_FORWARD_SLASH : ascii := "/"%char.

Definition is_slash (code : option ascii) : bool :=
  match code with
  | Some c => Ascii.eqb c CHAR_FORWARD_SLASH
  | None => false
  end.

Definition same_code (a b : option ascii) : bool :=
  match a, b with
  | Some x, Some y => Ascii.eqb x y
  | None, None => true
  | _, _ => false
  end.

(** *** [path.basename] (POSIX flavour)

    Node's implementation scans the path from its last character towards
    the first, with these locals. *)
Record scan : Type := mkScan {
  start : Z;
  end_ : Z;
  matchedSlash : bool;
  extIdx : Z;
  firstNonSlashEnd : Z
}.

(** One run of [for (let i = n - 1; i >= 0; --i)] of the branch without a
    suffix: stop at the separator that precedes the last component, mark
    the end of that component at its last character. *)
Fixpoint basename_loop (path : string) (n : nat) (st : scan) : scan :=
  match n with
  | O => st
  | S i' =>
      let i := Z.of_nat i' in
      if is_slash (charCodeAt path i) then
        if negb (matchedSlash st) then
          mkScan (i + 1) (end_ st) (matchedSlash st) (extIdx st) (firstNonSlashEnd st)
        else basename_loop path i' st
      else if (end_ st =? -1)%Z then
        basename_loop path i'
          (mkScan (start st) (i + 1) false (extIdx st) (firstNonSlashEnd st))
      else basename_loop path i' st
  end.

(** What the loop of the branch with a suffix does with a character that
    is not a separator: remember where the component ends, then match the
    suffix from its last character ([extIdx]); a mismatch gives up on the
    suffix and keeps the whole component. *)
Definition suffix_unit (suffix : string) (i : Z) (code : option ascii) (st : scan) : scan :=
  let st1 :=
    if (firstNonSlashEnd st =? -1)%Z
    then mkScan (start st) (end_ st) false (extIdx st) (i + 1)
    else st in
  if (0 <=? extIdx st1)%Z then
    if same_code code (charCodeAt suffix (extIdx st1)) then
      let e := (extIdx st1 - 1)%Z in
      if (e =? -1)%Z
      then mkScan (start st1) i (matchedSlash st1) e (firstNonSlashEnd st1)
      else mkScan (start st1) (end_ st1) (matchedSlash st1) e (firstNonSlashEnd st1)
    else
      mkScan (start st1) (firstNonSlashEnd st1) (matchedSlash st1) (-1)
             (firstNonSlashEnd st1)
  else st1.

(** The loop of the branch with a suffix. *)
Fixpoint basename_suffix_loop (path suffix : string) (n : nat) (st : scan) : scan :=
  match n with
  | O => st
  | S i' =>
      let i := Z.of_nat i' in
      let code := charCodeAt path i in
      if is_slash code then
        if negb (matchedSlash st) then
          mkScan (i + 1) (end_ st) (matchedSlash st) (extIdx st) (firstNonSlashEnd st)
        else basename_suffix_loop path suffix i' st
      else basename_suffix_loop path suffix i' (suffix_unit suffix i code st)
  end.

(** [path.basename(path)]. *)
Definition basename (path : string) : string :=
  let st := basename_loop path (String.length path) (mkScan 0 (-1) true (-1) (-1)) in
  if (end_ st =? -1)%Z then "" else slice path (start st) (end_ st).

(** [path.basename(path, suffix)].  The suffix is compared unit by unit:
    the comparison is case-sensitive. *)
Definition basename_ext (path suffix : string) : string :=
  let n := String.length path in
  let m := String.length suffix in
  if (0 <? m)%nat && (m <=? n)%nat then
    if String.eqb suffix path then ""
    else
      let st := basename_suffix_loop path suffix n
                  (mkScan 0 (-1) true (Z.of_nat m - 1) (-1)) in
      let e :=
        if (start st =? end_ st)%Z then firstNonSlashEnd st
        else if (end_ st =? -1)%Z then Z.of_nat n
        else end_ st in
      slice path (start st) e
  else basename path.

(** [path.resolve(dir, name)] and [path.join(dir, name)] where [dir] is an
    absolute, normalised directory and [name] a single path component,
    the only way the script calls them. *)
Definition join (dir name : string) : string :=
  if String.eqb dir "/" then "/" ++ name else dir ++ "/" ++ name.

Definition resolve (dir name : string) : string := join dir name.

(** *** [JSON.stringify]

    The values the script builds: strings, arrays and objects (an object
    keeps its properties in insertion order). *)
Inductive value : Type :=
  | VString (s : string)
  | VArray (items : list value)
  | VObject (props : list (string * value)).

Definition LF : string := String "010"%char "".

Definition hex_digit (n : nat) : ascii :=
  if (n <? 10)%nat then ascii_of_nat (48 + n) else ascii_of_nat (87 + n).

(** QuoteJSONString on one unit: the two-character escapes, [\u00XX] for
    the other control characters, the unit itself otherwise. *)
Definition quote_unit (c : ascii) : string :=
  let n := nat_of_ascii c in
  if (n =? 8)%nat then "\b"
  else if (n =? 9)%nat then "\t"
  else if (n =? 10)%nat then "\n"
  else if (n =? 12)%nat then "\f"
  else if (n =? 13)%nat then "\r"
  else if (n =? 34)%nat then String "\"%char (String c "")
  else if (n =? 92)%nat then "\\"
  else if (n <? 32)%nat then
    "\u00" ++ String (hex_digit (n / 16)) (String (hex_digit (n mod 16)) "")
  else String c "".

Fixpoint quote_units (s : string) : string :=
  match s with
  | EmptyString => ""
  | String c r => quote_unit c ++ quote_units r
  end.

Definition QuoteJSONString (s : string) : string :=
  String "034"%char (quote_units s ++ String "034"%char "").

(** SerializeJSONProperty with its two helpers SerializeJSONArray and
    SerializeJSONObject: [gap] is the indentation unit, [indent] the
    current indentation. *)
Fixpoint SerializeJSONProperty (gap indent : string) (v : value) : string :=
  let stepback := indent in
  let indent := indent ++ gap in
  match v with
  | VString s => QuoteJSONString s
  | VArray items =>
      let partial := List.map (SerializeJSONProperty gap indent) items in
      match partial with
      | [] => "[]"
      | _ =>
          if String.eqb gap "" then "[" ++ String.concat "," partial ++ "]"
          else
            let separator := "," ++ LF ++ indent in
            "[" ++ LF ++ indent ++ String.concat separator partial
                ++ LF ++ stepback ++ "]"
      end
  | VObject props =>
      let partial :=
        List.map (fun kv =>
               QuoteJSONString (fst kv) ++ ":"
               ++ (if String.eqb gap "" then "" else " ")
               ++ SerializeJSONProperty gap indent (snd kv)) props in
      match partial with
      | [] => "{}"
      | _ =>
          if String.eqb gap "" then "{" ++ String.concat "," partial ++ "}"
          else
            let separator := "," ++ LF ++ indent in
            "{" ++ LF ++ indent ++ String.concat separator partial
                ++ LF ++ stepback ++ "}"
      end
  end.

(** [JSON.stringify(v, null, space)] for a numeric [space]: the gap is
    that many blanks, ten at most. *)
Definition stringify (v : value) (space : nat) : string :=
  SerializeJSONProperty
    (string_of_list_ascii (List.repeat " "%char (Nat.min space 10))) "" v.

(** A template literal interpolating a non-negative integer. *)
Definition number_to_string (n : nat) : string :=
  NilEmpty.string_of_uint (Nat.to_uint n).

End JS.

(** ** SVGO configuration *)

Module Svgo.

(** A plugin entry is a bare name or a name with its parameters. *)
Inductive plugin : Type :=
  | PluginName (name : string)
  | PluginParams (name : string) (params : JS.value).

Record Config : Type := mkConfig {
  path : string;
  multipass : bool;
  plugins : list plugin
}.

End Svgo.


(** ** The file system and the process *)

Module Fs.

(** What a rejected promise or a thrown exception carries. *)
Definition error : Type := string.

Inductive result (A : Type) : Type :=
  | Ok (a : A)
  | Throw (e : error).
Arguments Ok {A} a.
Arguments Throw {A} e.

(** An entry of [fs.readdir(dir, { withFileTypes: true })].  A directory
    entry carries what listing it yields in turn (a listing can fail:
    permission denied, entry gone); every entry that is not a directory is
    a [File].  The source tree is finite, so it is an inductive tree. *)
Inductive dirent : Type :=
  | File (name : string)
  | Directory (name : string) (listing : result (list dirent)).

Definition name (entry : dirent) : string :=
  match entry with
  | File n => n
  | Directory n _ => n
  end.

(** How a write that fails leaves its file.  [fs.writeFile] opens the
    file with flag [w], which creates it or cuts it to nothing: a failure
    at the open (no permission) leaves the file as it was, a failure after
    it (disk full) leaves the units written until then. *)
Inductive refusal : Type :=
  | AtOpen (e : error)
  | AfterOpen (e : error) (written : nat).

Definition refusal_error (r : refusal) : error :=
  match r with
  | AtOpen e => e
  | AfterOpen e _ => e
  end.

(** Everything a run reads and does not change: the working directory,
    the tree under [raw/], the content [fs.readFile] yields for a path,
    the SVGO engine, the number of arguments the JavaScript engine takes
    in one call, and the faults of the calls that touch [optimized/] that
    do not come from what is on the disk ([access_fault]: the probe fails
    although something is there; [write_fault n path]: the write at
    [path] that comes after [n] other writes of the run fails, for want
    of permission or of room on the disk). *)
Record env : Type := mkEnv {
  cwd : string;
  raw_listing : result (list dirent);
  file_content : string -> result string;
  svgo_optimize : string -> Svgo.Config -> result string;
  max_arguments : nat;
  access_fault : option error;
  mkdir_fault : option error;
  write_fault : nat -> string -> option refusal
}.

(** What a run changes: the directories that exist and the regular files
    with their content, by absolute path. *)
Record disk : Type := mkDisk {
  dirs : gset string;
  files : gmap string string
}.

(** The directories above a normalized absolute path, from the root down:
    [/] and [/repo] for [/repo/optimized]. *)
Fixpoint prefixes (seen rest : list ascii) : list string :=
  match rest with
  | [] => []
  | c :: rest' =>
      (if Ascii.eqb c "/"
       then [match seen with
             | [] => "/"
             | _ => string_of_list_ascii seen
             end]
       else [])
      ++ prefixes (seen ++ [c]) rest'
  end.

Definition ancestors (path : string) : list string :=
  prefixes [] (list_ascii_of_string path).

Definition is_file (d : disk) (path : string) : bool :=
  bool_decide (is_Some (files d !! path)).

(** Something is at the path, a directory or a regular file. *)
Definition present (d : disk) (path : string) : bool :=
  bool_decide (path ∈ dirs d) || is_file d path.

(** What on the disk stands in the way of [fs.mkdir(dir, { recursive:
    true })]: a regular file at [dir] or where a directory above it
    should be. *)
Definition mkdir_obstacle (d : disk) (dir : string) : option error :=
  if is_file d dir then Some "EEXIST"
  else if List.existsb (is_file d) (ancestors dir) then Some "ENOTDIR"
  else None.

(** What on the disk stands in the way of a write at [path]: a directory
    at [path], or no directory to hold the file (a regular file in its
    place, or nothing). *)
Definition write_obstacle (d : disk) (path : string) : option error :=
  if bool_decide (path ∈ dirs d) then Some "EISDIR"
  else
    match List.last (List.map Some (ancestors path)) None with
    | Some above =>
        if bool_decide (above ∈ dirs d) then None
        else if List.existsb (is_file d) (ancestors path) then Some "ENOTDIR"
        else Some "ENOENT"
    | None => None
    end.

(** The calls a run makes, in order, with their outcome. [Walk] stands
    for the whole of [getSvgFiles(root)]: the listings of sibling
    directories are started together and are not ordered among themselves. *)
Inductive event : Type :=
  | Access (dir : string) (ok : bool)
  | Mkdir (dir : string) (ok : bool)
  | Walk (root : string) (ok : bool)
  | ReadFile (path : string) (ok : bool)
  | Optimize (config : Svgo.Config) (ok : bool)
  | WriteFile (path : string) (data : string) (ok : bool)
  | ConsoleLog (line : string)
  | ConsoleError (label : string) (e : error)
  | Exit (code : Z).

Record state : Type := mkState {
  fs : disk;
  out : list event
}.

(** An awaited computation: it returns or throws, and moves the state. *)
Definition IO (A : Type) : Type := state -> result A * state.

Definition ret {A} (a : A) : IO A := fun s => (Ok a, s).

Definition bind {A B} (m : IO A) (k : A -> IO B) : IO B :=
  fun s =>
    match m s with
    | (Ok a, s') => k a s'
    | (Throw e, s') => (Throw e, s')
    end.

Definition try_catch {A} (body : IO A) (handler : error -> IO A) : IO A :=
  fun s =>
    match body s with
    | (Ok a, s') => (Ok a, s')
    | (Throw e, s') => handler e s'
    end.

Definition emit (ev : event) (s : state) : state :=
  mkState (fs s) (out s ++ [ev]).

(** Awaiting a call that does not change the disk. *)
Definition settle {A} (ev : bool -> event) (r : result A) : IO A :=
  fun s =>
    match r with
    | Ok a => (Ok a, emit (ev true) s)
    | Throw e => (Throw e, emit (ev false) s)
    end.

(** [fs.access(dir)], the existence probe: resolves when anything is at
    [dir], a directory or a regular file; rejects when nothing is there
    (a regular file where a directory above should be, or nothing at
    all) or the probe faults. *)
Definition access (E : env) (dir : string) : IO unit :=
  fun s =>
    if present (fs s) dir then
      match access_fault E with
      | None => (Ok tt, emit (Access dir true) s)
      | Some e => (Throw e, emit (Access dir false) s)
      end
    else
      (Throw (if List.existsb (is_file (fs s)) (ancestors dir) then "ENOTDIR" else "ENOENT"),
       emit (Access dir false) s).

(** Whether [fs.mkdir(dir, { recursive: true })] fails, and why. *)
Definition mkdir_refusal (E : env) (d : disk) (dir : string) : option error :=
  match mkdir_obstacle d dir with
  | Some e => Some e
  | None => mkdir_fault E
  end.

(** The directories [fs.mkdir(dir, { recursive: true })] makes sure of:
    [dir] and every directory above it. *)
Definition made (dir : string) : gset string :=
  list_to_set (dir :: ancestors dir).

(** [fs.mkdir(dir, { recursive: true })]: creates [dir] and the missing
    directories above it; an existing directory is not an error. *)
Definition mkdir (E : env) (dir : string) : IO unit :=
  fun s =>
    match mkdir_refusal E (fs s) dir with
    | None =>
        (Ok tt, emit (Mkdir dir true)
                  (mkState (mkDisk (made dir ∪ dirs (fs s)) (files (fs s))) (out s)))
    | Some e => (Throw e, emit (Mkdir dir false) s)
    end.

(** [fs.readFile(path, 'utf8')]. *)
Definition readFile (E : env) (path : string) : IO string :=
  settle (ReadFile path) (file_content E path).

(** The writes a run attempted so far. *)
Definition attempts (tr : list event) : nat :=
  List.length
    (List.filter (fun ev => match ev with WriteFile _ _ _ => true | _ => false end) tr).

(** Whether the write at [path] that comes after [n] others fails, and
    how: what is on the disk comes first and stops the write at the open. *)
Definition write_refusal (E : env) (d : disk) (n : nat) (path : string)
  : option refusal :=
  match write_obstacle d path with
  | Some e => Some (AtOpen e)
  | None => write_fault E n path
  end.

(** The files after a write of [data] at [path] that failed. *)
Definition leftover (r : refusal) (path data : string) (m : gmap string string)
  : gmap string string :=
  match r with
  | AtOpen _ => m
  | AfterOpen _ n => <[path := String.substring 0 n data]> m
  end.

(** [fs.writeFile(path, data, 'utf8')]: creates or replaces the file. *)
Definition writeFile (E : env) (path data : string) : IO unit :=
  fun s =>
    match write_refusal E (fs s) (attempts (out s)) path with
    | None =>
        (Ok tt, emit (WriteFile path data true)
                  (mkState (mkDisk (dirs (fs s)) (<[path := data]> (files (fs s)))) (out s)))
    | Some r =>
        (Throw (refusal_error r),
         emit (WriteFile path data false)
           (mkState (mkDisk (dirs (fs s)) (leftover r path data (files (fs s)))) (out s)))
    end.

Definition console_log (line : string) : IO unit :=
  fun s => (Ok tt, emit (ConsoleLog line) s).

Definition console_error (label : string) (e : error) : IO unit :=
  fun s => (Ok tt, emit (ConsoleError label e) s).

Definition process_exit (code : Z) : IO unit :=
  fun s => (Ok tt, emit (Exit code) s).

(** [Promise.all]: all the values in order, or a rejection (the model
    takes the first one in list order). *)
Fixpoint Promise_all {A} (ps : list (result A)) : result (list A) :=
  match ps with
  | [] => Ok []
  | Ok a :: rest =>
      match Promise_all rest with
      | Ok l => Ok (a :: l)
      | Throw e => Throw e
      end
  | Throw e :: _ => Throw e
  end.

(** The status the process ends with: the argument of [process.exit], 0
    when the script runs to its end. *)
Fixpoint exit_code (tr : list event) : Z :=
  match tr with
  | [] => 0%Z
  | Exit c :: _ => c
  | _ :: rest => exit_code rest
  end.

End Fs.

Notation "x <- m ;; k" := (Fs.bind m (fun x => k))
  (at level 100, m at next level, right associativity).
Notation "m ;;; k" := (Fs.bind m (fun _ => k))
  (at level 100, right associativity).

(** ** The script *)

Module Optimize.
Import Fs.

Section Script.

Variable E : env.

Definition RAW_DIR : string := JS.resolve (cwd E) "raw".
Definition OPTIMIZED_DIR : string := JS.resolve (cwd E) "optimized".

Definition ensureDir (dir : string) : IO unit :=
  try_catch (access E dir) (fun _ => mkdir E dir).

(** The [config] object of [optimizeSvg]. *)
Definition config (filename : string) : Svgo.Config :=
  Svgo.mkConfig filename true
    [ Svgo.PluginParams "preset-default"
        (JS.VObject [("overrides", JS.VObject [])]);
      Svgo.PluginParams "prefixIds"
        (JS.VObject [("prefix", JS.VString (JS.basename_ext filename ".svg" ++ "-"))]);
      Svgo.PluginName "removeXMLNS";
      Svgo.PluginName "sortAttrs";
      Svgo.PluginParams "addAttributesToSVGElement"
        (JS.VObject [("attributes", JS.VArray
           [ JS.VObject [("aria-hidden", JS.VString "true")];
             JS.VObject [("width", JS.VString "24")];
             JS.VObject [("height", JS.VString "24")];
             JS.VObject [("fill", JS.VString "currentColor")] ])]) ].

Definition optimizeSvg (svgContent filename : string) : IO string :=
  settle (Optimize (config filename)) (svgo_optimize E svgContent (config filename)).

(** The filter of [getSvgFiles]. *)
Definition is_svg (file : string) : bool :=
  JS.endsWith (JS.toLowerCase file) ".svg".

(** [Array.prototype.concat(...files)]: the spread hands every element
    of [files], one per entry of the directory, as an argument of one
    call, which the engine refuses with a [RangeError] beyond its limit. *)
Definition concat_spread (files : list (list string)) : result (list string) :=
  if (List.length files <=? max_arguments E)%nat then Ok (List.concat files)
  else Throw "RangeError".

(** The callback mapped over the entries of [dir]: the files found under
    a directory entry, the resolved path itself for any other entry
    ([concat] treats a single path as a one-element array). *)
Fixpoint entry_files (dir : string) (entry : dirent) {struct entry}
  : result (list string) :=
  let res := JS.resolve dir (name entry) in
  match entry with
  | File _ => Ok [res]
  | Directory _ listing =>
      match listing with
      | Throw e => Throw e
      | Ok entries =>
          match Promise_all (List.map (entry_files res) entries) with
          | Throw e => Throw e
          | Ok files =>
              match concat_spread files with
              | Throw e => Throw e
              | Ok all => Ok (List.filter is_svg all)
              end
          end
      end
  end.

(** [getSvgFiles(dir)], given what [fs.readdir(dir)] yields. *)
Definition getSvgFiles (dir : string) (listing : result (list dirent))
  : result (list string) :=
  match listing with
  | Throw e => Throw e
  | Ok entries =>
      match Promise_all (List.map (entry_files dir) entries) with
      | Throw e => Throw e
      | Ok files =>
          match concat_spread files with
          | Throw e => Throw e
          | Ok all => Ok (List.filter is_svg all)
          end
      end
  end.

Fixpoint for_of {A} (items : list A) (body : A -> IO unit) : IO unit :=
  match items with
  | [] => ret tt
  | x :: rest => body x ;;; for_of rest body
  end.

Definition processFiles : IO unit :=
  try_catch
    (ensureDir OPTIMIZED_DIR ;;;
     allSvgFiles <- settle (Walk RAW_DIR) (getSvgFiles RAW_DIR (raw_listing E)) ;;
     console_log ("Found " ++ JS.number_to_string (List.length allSvgFiles)
                  ++ " SVG files to optimize") ;;;
     for_of allSvgFiles (fun filePath =>
       let file := JS.basename filePath in
       content <- readFile E filePath ;;
       optimizedSvg <- optimizeSvg content file ;;
       let outputPath := JS.join OPTIMIZED_DIR file in
       writeFile E outputPath optimizedSvg ;;;
       console_log ("✓ Optimized: " ++ file)) ;;;
     console_log (JS.LF ++ "Optimization complete! "
                  ++ JS.number_to_string (List.length allSvgFiles)
                  ++ " SVGs processed.") ;;;
     let iconNames := List.map (fun file => JS.basename_ext file ".svg") allSvgFiles in
     let manifestPath := JS.join OPTIMIZED_DIR "manifest.json" in
     writeFile E manifestPath
       (JS.stringify (JS.VObject [("icons", JS.VArray (List.map JS.VString iconNames))]) 2) ;;;
     console_log ("Icon manifest created at " ++ manifestPath))
    (fun error =>
       console_error "Error optimizing SVGs:" error ;;;
       process_exit 1).

End Script.

(** *** The pieces of a run, by name *)

Definition manifestPath (E : env) : string :=
  JS.join (OPTIMIZED_DIR E) "manifest.json".

Definition outputPath (E : env) (filePath : string) : string :=
  JS.join (OPTIMIZED_DIR E) (JS.basename filePath).

Definition iconNames (allSvgFiles : list string) : list string :=
  List.map (fun file => JS.basename_ext file ".svg") allSvgFiles.

Definition manifest (allSvgFiles : list string) : string :=
  JS.stringify
    (JS.VObject [("icons", JS.VArray (List.map JS.VString (iconNames allSvgFiles)))]) 2.

Definition found_line (n : nat) : string :=
  "Found " ++ JS.number_to_string n ++ " SVG files to optimize".

Definition optimized_line (file : string) : string := "✓ Optimized: " ++ file.

Definition complete_line (n : nat) : string :=
  JS.LF ++ "Optimization complete! " ++ JS.number_to_string n ++ " SVGs processed.".

Definition created_line (E : env) : string :=
  "Icon manifest created at " ++ manifestPath E.

Definition error_label : string := "Error optimizing SVGs:".

(** The calls one turn of the loop makes for [filePath], up to and
    including the first that fails, and how the turn ends; [d] is the disk
    [ensureDir] left, which settles what stands in the way of a write, and
    [n] the number of writes attempted before the turn. *)
Definition file_outcome (E : env) (d : disk) (n : nat) (filePath : string)
  : list event * result string :=
  let cfg := config (JS.basename filePath) in
  match file_content E filePath with
  | Throw e => ([ReadFile filePath false], Throw e)
  | Ok content =>
      match svgo_optimize E content cfg with
      | Throw e => ([ReadFile filePath true; Optimize cfg false], Throw e)
      | Ok data =>
          match write_refusal E d n (outputPath E filePath) with
          | Some r =>
              ([ReadFile filePath true; Optimize cfg true;
                WriteFile (outputPath E filePath) data false], Throw (refusal_error r))
          | None =>
              ([ReadFile filePath true; Optimize cfg true;
                WriteFile (outputPath E filePath) data true;
                ConsoleLog (optimized_line (JS.basename filePath))], Ok data)
          end
      end
  end.

(** The calls of the whole loop: turn after turn until one fails; a turn
    that goes through makes one write. *)
Fixpoint loop_outcome (E : env) (d : disk) (n : nat) (allSvgFiles : list string)
  : list event * result unit :=
  match allSvgFiles with
  | [] => ([], Ok tt)
  | filePath :: rest =>
      match file_outcome E d n filePath with
      | (evs, Ok _) =>
          ((evs ++ fst (loop_outcome E d (S n) rest))%list,
           snd (loop_outcome E d (S n) rest))
      | (evs, Throw e) => (evs, Throw e)
      end
  end.

(** The files of a disk once the successful writes of a trace are applied. *)
Fixpoint written (tr : list event) (m : gmap string string) : gmap string string :=
  match tr with
  | [] => m
  | WriteFile path data true :: rest => written rest (<[path := data]> m)
  | _ :: rest => written rest m
  end.

(** The files of a disk once the writes of a trace took effect, those
    that failed included; [n] writes were attempted before the trace. *)
Fixpoint settled (E : env) (d : disk) (n : nat) (tr : list event)
    (m : gmap string string) : gmap string string :=
  match tr with
  | [] => m
  | WriteFile path data true :: rest => settled E d (S n) rest (<[path := data]> m)
  | WriteFile path data false :: rest =>
      settled E d (S n) rest
        match write_refusal E d n path with
        | Some r => leftover r path data m
        | None => m
        end
  | _ :: rest => settled E d n rest m
  end.

(** What the last successful write of a trace left at a path, if any. *)
Fixpoint last_write (path : string) (tr : list event) : option string :=
  match tr with
  | [] => None
  | WriteFile p data true :: rest =>
      match last_write path rest with
      | Some later => Some later
      | None => if decide (p = path) then Some data else None
      end
  | _ :: rest => last_write path rest
  end.

(** The calls that work on a discovered file. *)
Definition is_processing (ev : event) : bool :=
  match ev with
  | ReadFile _ _ | Optimize _ _ | WriteFile _ _ _ => true
  | _ => false
  end.

(** A call that failed and that nothing catches before the catch block of
    [processFiles] (a failed probe is caught inside [ensureDir]). *)
Definition is_fatal (ev : event) : bool :=
  match ev with
  | Mkdir _ ok | Walk _ ok | ReadFile _ ok | Optimize _ ok | WriteFile _ _ ok => negb ok
  | _ => false
  end.

(** What the catch block prints and does. *)
Definition is_report (ev : event) : bool :=
  match ev with
  | ConsoleError _ _ | Exit _ => true
  | _ => false
  end.

(** A write, attempted or done, at the path of the manifest. *)
Definition writes_manifest (E : env) (ev : event) : bool :=
  match ev with
  | WriteFile path _ _ => String.eqb path (manifestPath E)
  | _ => false
  end.

(** A call that went through, before the manifest is reached. *)
Definition quiet (E : env) (ev : event) : bool :=
  negb (is_fatal ev) && negb (is_report ev) && negb (writes_manifest E ev).

(** The four calls of a turn of the loop that goes through, for the
    optimized text [data]. *)
Definition turn (E : env) (filePath data : string) : list event :=
  [ReadFile filePath true; Optimize (config (JS.basename filePath)) true;
   WriteFile (outputPath E filePath) data true;
   ConsoleLog (optimized_line (JS.basename filePath))].

(** The optimized text of a file: what the engine returns for its
    content. *)
Definition artifact (E : env) (filePath : string) : string :=
  match file_content E filePath with
  | Ok content =>
      match svgo_optimize E content (config (JS.basename filePath)) with
      | Ok data => data
      | Throw _ => ""
      end
  | Throw _ => ""
  end.

(** The filter of [getSvgFiles], read on the units of the path from the
    last one backwards. *)
Definition svg_tail (rev_units : list ascii) : bool :=
  match rev_units with
  | c4 :: c3 :: c2 :: c1 :: _ =>
      Ascii.eqb (JS.lower_ascii c1) "."%char && Ascii.eqb (JS.lower_ascii c2) "s"%char
      && Ascii.eqb (JS.lower_ascii c3) "v"%char && Ascii.eqb (JS.lower_ascii c4) "g"%char
  | _ => false
  end.

(** The [prefix] parameter of the [prefixIds] plugin of a configuration. *)
Definition prefixIds_prefix (cfg : Svgo.Config) : option string :=
  match List.find (fun pl => match pl with
                             | Svgo.PluginParams n _ => String.eqb n "prefixIds"
                             | Svgo.PluginName _ => false
                             end) (Svgo.plugins cfg) with
  | Some (Svgo.PluginParams _ (JS.VObject [(key, JS.VString prefix)])) =>
      if String.eqb key "prefix" then Some prefix else None
  | _ => None
  end.

(** One invocation of the script on a disk. *)
Record outcome : Type := mkOutcome {
  after : disk;
  trace : list event;
  code : Z
}.

Definition run (E : env) (d : disk) : outcome :=
  let s := snd (processFiles E (mkState d [])) in
  mkOutcome (fs s) (out s) (exit_code (out s)).

(** *** A run, stage by stage

    The same run written without the monad, one stage after the other; it
    is proved equal to [run] below and carries the case analysis of the
    proofs. *)

(** The catch block: report, then exit with status 1. *)
Definition failed (d : disk) (tr : list event) (e : error) : outcome :=
  mkOutcome d (tr ++ [ConsoleError error_label e; Exit 1]) 1.

(** From discovery on, given the disk and the calls [ensureDir] left. *)
Definition discovered (E : env) (d : disk) (tr : list event) : outcome :=
  match getSvgFiles E (RAW_DIR E) (raw_listing E) with
  | Throw e => failed d (tr ++ [Walk (RAW_DIR E) false]) e
  | Ok allSvgFiles =>
      let n := List.length allSvgFiles in
      let before := attempts tr in
      let turns := loop_outcome E d before allSvgFiles in
      let tr : list event :=
        (tr ++ [Walk (RAW_DIR E) true; ConsoleLog (found_line n)] ++ fst turns)%list in
      let m := settled E d before (fst turns) (files d) in
      match snd turns with
      | Throw e => failed (mkDisk (dirs d) m) tr e
      | Ok _ =>
          match write_refusal E d (before + n) (manifestPath E) with
          | Some r =>
              failed
                (mkDisk (dirs d)
                   (leftover r (manifestPath E) (manifest allSvgFiles) m))
                (tr ++ [ConsoleLog (complete_line n);
                        WriteFile (manifestPath E) (manifest allSvgFiles) false])
                (refusal_error r)
          | None =>
              mkOutcome
                (mkDisk (dirs d) (<[manifestPath E := manifest allSvgFiles]> m))
                (tr ++ [ConsoleLog (complete_line n);
                        WriteFile (manifestPath E) (manifest allSvgFiles) true;
                        ConsoleLog (created_line E)])
                0
          end
      end
  end.

(** Whether the probe of [ensureDir] succeeds. *)
Definition probe (E : env) (d : disk) : bool :=
  present d (OPTIMIZED_DIR E)
  && match access_fault E with None => true | Some _ => false end.

Definition stages (E : env) (d : disk) : outcome :=
  if probe E d then discovered E d [Access (OPTIMIZED_DIR E) true]
  else
    match mkdir_refusal E d (OPTIMIZED_DIR E) with
    | Some e => failed d [Access (OPTIMIZED_DIR E) false; Mkdir (OPTIMIZED_DIR E) false] e
    | None =>
        discovered E (mkDisk (made (OPTIMIZED_DIR E) ∪ dirs d) (files d))
          [Access (OPTIMIZED_DIR E) false; Mkdir (OPTIMIZED_DIR E) true]
    end.

(** The disk [ensureDir] leaves to the rest of a run. *)
Definition ground_of (E : env) (d : disk) : disk :=
  if probe E d then d
  else match mkdir_refusal E d (OPTIMIZED_DIR E) with
       | Some _ => d
       | None => mkDisk (made (OPTIMIZED_DIR E) ∪ dirs d) (files d)
       end.

(** Two disks are the same ground for the writes of a run: the same
    directories, and a regular file at the same places among [optimized/]
    and the directories above it. *)
Definition same_ground (E : env) (d d' : disk) : Prop :=
  dirs d' = dirs d
  /\ forall a, In a (OPTIMIZED_DIR E :: ancestors (OPTIMIZED_DIR E)) ->
       is_file d' a = is_file d a.

(** The paths a trace reads, in order. *)
Definition reads (tr : list event) : list string :=
  List.flat_map (fun ev => match ev with ReadFile path _ => [path] | _ => [] end) tr.

End Optimize.

(** ** The words of the specification *)

Module Spec.
Import Fs.

(** In the words of the specification of discovery: a file is included
    only if its extension, the last four units of its name, is [.svg]
    under case-insensitive comparison. *)
Definition has_svg_extension (name : string) : bool :=
  let n := String.length name in
  (4 <=? n)%nat
  && String.eqb (JS.toLowerCase (String.substring (n - 4) 4 name)) ".svg".

(** In the words of the glossary: the stem of a file is its name with the
    extension removed. *)
Definition stem (name : string) : string :=
  if has_svg_extension name
  then String.substring 0 (String.length name - 4) name
  else name.

(** In the words of the specification of discovery: depth-first over the
    entries, the results of a directory flattened into the list of its
    parent, in the order of the listing. *)
Fixpoint walk (dir : string) (entry : dirent) {struct entry} : list string :=
  match entry with
  | File n => if has_svg_extension n then [JS.resolve dir n] else []
  | Directory n (Ok entries) => List.flat_map (walk (JS.resolve dir n)) entries
  | Directory n (Throw _) => []
  end.

Definition discover (root : string) (listing : result (list dirent)) : list string :=
  match listing with
  | Ok entries => List.flat_map (walk root) entries
  | Throw _ => []
  end.

(** No listing under the entry fails. *)
Fixpoint readable_entry (entry : dirent) : bool :=
  match entry with
  | File _ => true
  | Directory _ (Ok entries) => List.forallb readable_entry entries
  | Directory _ (Throw _) => false
  end.

Definition readable (listing : result (list dirent)) : bool :=
  match listing with
  | Ok entries => List.forallb readable_entry entries
  | Throw _ => false
  end.

(** A single path component without separator, as [fs.readdir] names
    its entries. *)
Definition no_slash (name : string) : bool :=
  List.forallb (fun c => negb (Ascii.eqb c JS.CHAR_FORWARD_SLASH))
    (list_ascii_of_string name).

(** In the words of the specification of the run sequence: the summary
    line with the processed count comes after the write of the manifest. *)
Definition summary_after_manifest (E : env) (tr : list event) : Prop :=
  forall (i j n : nat) (data : string) (ok : bool),
    tr !! i = Some (ConsoleLog (Optimize.complete_line n)) ->
    tr !! j = Some (WriteFile (Optimize.manifestPath E) data ok) ->
    (j < i)%nat.

End Spec.

(** ** What [fs.readdir] yields *)

Module Readdir.
Import Fs.

(** The name of a directory entry: a single path component, so not empty,
    without separator, and neither [.] nor [..]. *)
Definition component (n : string) : bool :=
  negb (String.eqb n "") && negb (String.eqb n ".") && negb (String.eqb n "..")
  && Spec.no_slash n.

(** Every listing under the entry names its entries with components, no
    two of them the same. *)
Fixpoint well_named_entry (entry : dirent) : bool :=
  component (name entry)
  && match entry with
     | File _ => true
     | Directory _ (Ok entries) =>
         bool_decide (NoDup (List.map name entries))
         && List.forallb well_named_entry entries
     | Directory _ (Throw _) => true
     end.

Definition well_named (listing : result (list dirent)) : bool :=
  match listing with
  | Ok entries =>
      bool_decide (NoDup (List.map name entries))
      && List.forallb well_named_entry entries
  | Throw _ => true
  end.

(** No directory under the entry holds more than [limit] entries. *)
Fixpoint within_entry (limit : nat) (entry : dirent) : bool :=
  match entry with
  | File _ => true
  | Directory _ (Ok entries) =>
      (List.length entries <=? limit)%nat && List.forallb (within_entry limit) entries
  | Directory _ (Throw _) => true
  end.

Definition within (limit : nat) (listing : result (list dirent)) : bool :=
  match listing with
  | Ok entries =>
      (List.length entries <=? limit)%nat && List.forallb (within_entry limit) entries
  | Throw _ => true
  end.

End Readdir.

(** * Reading a JSON string back

    The string grammar of [JSON.parse], on 8-bit units: the text after the
    opening quote up to the closing one, escapes decoded, and what follows
    it.  A raw control character is refused, as is an escape that does not
    fit a unit. *)

Module JSONParse.

Definition hex_value (c : ascii) : option nat :=
  let n := nat_of_ascii c in
  if (48 <=? n)%nat && (n <=? 57)%nat then Some (n - 48)%nat
  else if (97 <=? n)%nat && (n <=? 102)%nat then Some (n - 87)%nat
  else if (65 <=? n)%nat && (n <=? 70)%nat then Some (n - 55)%nat
  else None.

Definition escape (c : ascii) : option ascii :=
  let n := nat_of_ascii c in
  if (n =? 34)%nat then Some c
  else if (n =? 92)%nat then Some c
  else if (n =? 47)%nat then Some c
  else if (n =? 98)%nat then Some (ascii_of_nat 8)
  else if (n =? 102)%nat then Some (ascii_of_nat 12)
  else if (n =? 110)%nat then Some (ascii_of_nat 10)
  else if (n =? 114)%nat then Some (ascii_of_nat 13)
  else if (n =? 116)%nat then Some (ascii_of_nat 9)
  else None.

Definition push (c : option ascii) (r : option (list ascii * list ascii))
  : option (list ascii * list ascii) :=
  match c, r with
  | Some c, Some (s, rest) => Some (c :: s, rest)
  | _, _ => None
  end.

Fixpoint string_body (l : list ascii) : option (list ascii * list ascii) :=
  match l with
  | [] => None
  | c :: rest =>
      let n := nat_of_ascii c in
      if (n =? 34)%nat then Some ([], rest)
      else if (n <? 32)%nat then None
      else if (n =? 92)%nat then
        match rest with
        | [] => None
        | e :: rest1 =>
            if (nat_of_ascii e =? 117)%nat then
              match rest1 with
              | h1 :: h2 :: h3 :: h4 :: rest2 =>
                  match hex_value h1, hex_value h2, hex_value h3, hex_value h4 with
                  | Some 0%nat, Some 0%nat, Some a, Some b =>
                      push (Some (ascii_of_nat (16 * a + b))) (string_body rest2)
                  | _, _, _, _ => None
                  end
              | _ => None
              end
            else push (escape e) (string_body rest1)
        end
      else push (Some c) (string_body rest)
  end.

End JSONParse.

(** * The icon component: [packages/react/src/icons/lock.tsx] *)

Module React.

(** The values a prop holds: [undefined], a number, a string, or anything
    else (a handler, a style object), which the component only passes on. *)
Inductive value : Type :=
  | VUndefined
  | VNumber (n : float)
  | VString (s : string)
  | VOther (id : positive).

(** A props object, by key. *)
Definition props : Type := gmap string value.

(** [{ ...own, ...given }]: the keys of [given] win. *)
Definition spread (own given : props) : props := given ∪ own.

(** What a JSX expression builds: the value of an expression in braces,
    or an element with its type, its props and its children. *)
Inductive node : Type :=
  | Value (v : value)
  | Element (type : string) (config : props) (children : list node).

(** [React.createElement(type, config, ...children)], which a JSX tag
    stands for: [key] and [ref] are taken out of the props (the model does
    not keep them), and the children written between the tags take the
    place of a [children] prop; with none written, the prop is the child. *)
Definition createElement (type : string) (config : props) (kids : list node) : node :=
  Element type (delete "children" (delete "ref" (delete "key" config)))
    match kids with
    | [] =>
        match config !! "children" with
        | Some v => [Value v]
        | None => []
        end
    | _ => kids
    end.

(** A prop of an element, [children] apart. *)
Definition attribute (key : string) (n : node) : option value :=
  match n with
  | Element _ config _ => config !! key
  | Value _ => None
  end.

Definition children (n : node) : list node :=
  match n with
  | Element _ _ cs => cs
  | Value _ => []
  end.

(** Whether a child shows in the document: [undefined] and the empty
    string leave nothing. *)
Definition renders (n : node) : bool :=
  match n with
  | Value VUndefined => false
  | Value (VString s) => negb (String.eqb s "")
  | _ => true
  end.

End React.

Module Icons.
Import React.

(** [size?: number | string]. *)
Inductive size_value : Type :=
  | SizeNumber (n : float)
  | SizeString (s : string).

Definition size_prop (s : size_value) : value :=
  match s with
  | SizeNumber n => VNumber n
  | SizeString s => VString s
  end.

(** [IconProps] as the component takes it apart: the three props it
    names, absent or [undefined] as [None] (the default of the
    destructuring applies to both), and the other props given. *)
Record IconProps : Type := mkIconProps {
  size : option size_value;
  color : option string;
  title : option string;
  rest : props
}.

(** Truthiness of [title]. *)
Definition truthy (title : option string) : bool :=
  match title with
  | Some t => negb (String.eqb t "")
  | None => false
  end.

Definition Lock (p : IconProps) : node :=
  let size := default (SizeNumber 24) (size p) in
  let color := default "currentColor" (color p) in
  let title := title p in
  createElement "svg"
    (spread
       (list_to_map
          [("xmlns", VString "http://www.w3.org/2000/svg");
           ("width", size_prop size);
           ("height", size_prop size);
           ("viewBox", VString "0 0 24 24");
           ("fill", VString color);
           ("aria-hidden", VString (if truthy title then "false" else "true"))])
       (rest p))
    [ match title with
      | None => Value VUndefined
      | Some t =>
          if truthy title then createElement "title" ∅ [Value (VString t)]
          else Value (VString t)
      end;
      createElement "path"
        (list_to_map
           [("stroke", VString "#000");
            ("d", VString "M8.5 11.5h7a1 1 0 0 1 1 1v4a1 1 0 0 1-1 1h-7a1 1 0 0 1-1-1v-4a1 1 0 0 1 1-1Z")])
        [] ].

(** The icon is kept from assistive technology. *)
Definition hidden (n : node) : bool :=
  match attribute "aria-hidden" n with
  | Some (VString "true") => true
  | _ => false
  end.

(** The icon carries a [title] element that shows a text. *)
Definition labelled (n : node) : bool :=
  List.existsb
    (fun c => match c with
              | Element "title" _ [Value (VString t)] => negb (String.eqb t "")
              | _ => false
              end)
    (children n).

End Icons.

(** * Samples *)

(** ** Sample runs *)

Module Sample.
Import Fs.

(** A disk with no directory and no file on record: the run makes the
    directories it needs. *)
Definition empty_disk : disk := mkDisk ∅ ∅.

(** An engine that takes a hundred thousand arguments in one call. *)
Definition plenty : nat := 100 * 1000.

(** [raw/lock.svg], [raw/nav/ARROW.SVG] and two files that are not icons;
    an engine that returns its input. *)
Definition icons : env :=
  mkEnv "/repo"
    (Ok [File "lock.svg";
         Directory "nav" (Ok [File "ARROW.SVG"; File "notes.txt"]);
         File "readme.md"])
    (fun _ => Ok "<svg/>")
    (fun content _ => Ok content)
    plenty None None (fun _ _ => None).

(** The same tree with an engine that rejects [ARROW.SVG]. *)
Definition rejecting : env :=
  mkEnv "/repo"
    (Ok [File "lock.svg";
         Directory "nav" (Ok [File "ARROW.SVG"; File "notes.txt"]);
         File "readme.md"])
    (fun _ => Ok "<svg/>")
    (fun content cfg =>
       if String.eqb (Svgo.path cfg) "ARROW.SVG" then Throw "SvgoParserError"
       else Ok content)
    plenty None None (fun _ _ => None).

(** No [raw/] directory. *)
Definition no_raw : env :=
  mkEnv "/repo" (Throw "ENOENT") (fun _ => Throw "ENOENT") (fun content _ => Ok content)
    plenty None None (fun _ _ => None).

(** No [raw/] directory, and a probe of [optimized/] that is denied. *)
Definition denied : env :=
  mkEnv "/repo" (Throw "ENOENT") (fun _ => Throw "ENOENT") (fun content _ => Ok content)
    plenty (Some "EACCES") None (fun _ _ => None).

(** An empty [raw/]. *)
Definition bare : env :=
  mkEnv "/repo" (Ok []) (fun _ => Throw "ENOENT") (fun content _ => Ok content)
    plenty None None (fun _ _ => None).

(** A disk where [optimized/] exists and holds an older file. *)
Definition used_disk : disk :=
  mkDisk {["/"; "/repo"; "/repo/optimized"]} {["/repo/optimized/old.svg" := "<svg/>"]}.

(** A disk where [optimized] is a regular file. *)
Definition file_disk : disk :=
  mkDisk {["/"; "/repo"]} {["/repo/optimized" := "not a directory"]}.


(** Two files of the same base name in two directories, told apart by
    their content (here, their own path). *)
Definition colliding : env :=
  mkEnv "/repo"
    (Ok [Directory "a" (Ok [File "x.svg"]); Directory "b" (Ok [File "x.svg"])])
    (fun path => Ok path)
    (fun content _ => Ok content)
    plenty None None (fun _ _ => None).

(** The same two files on a disk that fills up during the second write:
    three units go through. *)
Definition colliding_full : env :=
  mkEnv "/repo"
    (Ok [Directory "a" (Ok [File "x.svg"]); Directory "b" (Ok [File "x.svg"])])
    (fun path => Ok path)
    (fun content _ => Ok content)
    plenty None None
    (fun n _ => if Nat.eqb n 1 then Some (AfterOpen "ENOSPC" 3) else None).

(** The tree of [icons] on a disk where [manifest.json] cannot be written. *)
Definition locked_manifest : env :=
  mkEnv "/repo"
    (Ok [File "lock.svg";
         Directory "nav" (Ok [File "ARROW.SVG"; File "notes.txt"]);
         File "readme.md"])
    (fun _ => Ok "<svg/>")
    (fun content _ => Ok content)
    plenty None None
    (fun _ path => if String.eqb path "/repo/optimized/manifest.json"
                 then Some (AtOpen "EACCES") else None).

(** The tree of [icons] on a disk that fills up while [manifest.json] is
    written: ten units go through. *)
Definition no_space : env :=
  mkEnv "/repo"
    (Ok [File "lock.svg";
         Directory "nav" (Ok [File "ARROW.SVG"; File "notes.txt"]);
         File "readme.md"])
    (fun _ => Ok "<svg/>")
    (fun content _ => Ok content)
    plenty None None
    (fun _ path => if String.eqb path "/repo/optimized/manifest.json"
                 then Some (AfterOpen "ENOSPC" 10) else None).

(** A disk where [optimized/] holds the manifest of an earlier run. *)
Definition stale_disk : disk :=
  mkDisk {["/"; "/repo"; "/repo/optimized"]} {["/repo/optimized/manifest.json" := "{ }"]}.

(** Five icons in [raw/], and an engine that takes four arguments in one
    call (the engines of Node take some hundred thousand). *)
Definition crowded : env :=
  mkEnv "/repo"
    (Ok [File "a.svg"; File "b.svg"; File "c.svg"; File "d.svg"; File "e.svg"])
    (fun _ => Ok "<svg/>")
    (fun content _ => Ok content)
    4 None None (fun _ _ => None).

(** A tree with a directory that cannot be listed. *)
Definition unlisted : env :=
  mkEnv "/repo"
    (Ok [File "lock.svg";
         Directory "nav" (Ok [File "ARROW.SVG"; Directory "private" (Throw "EACCES")])])
    (fun _ => Ok "<svg/>")
    (fun content _ => Ok content)
    plenty None None (fun _ _ => None).

(** The props of [<Lock size={16} title="Locked" className="icon" />]. *)
Definition titled : Icons.IconProps :=
  Icons.mkIconProps (Some (Icons.SizeNumber 16)) None (Some "Locked")
    {["className" := React.VString "icon"]}.

End Sample.

(** * Properties *)

Import Fs Optimize.

Abbreviation chars := list_ascii_of_string.

(** ** The primitives on sample inputs *)

Example basename_of_path : JS.basename "/foo/bar/baz/asdf/quux.html" = "quux.html".
Proof. reflexivity. Qed.

Example basename_trailing_slash : JS.basename "/a/b/" = "b".
Proof. reflexivity. Qed.

Example basename_strips_suffix :
  JS.basename_ext "/foo/bar/baz/asdf/quux.html" ".html" = "quux".
Proof. reflexivity. Qed.

Example basename_suffix_is_component : JS.basename_ext "aaa/bbb" "bbb" = "bbb".
Proof. reflexivity. Qed.

Example basename_suffix_is_path : JS.basename_ext ".svg" ".svg" = "".
Proof. reflexivity. Qed.

Example basename_dot_svg_component : JS.basename_ext "/a/.svg" ".svg" = ".svg".
Proof. reflexivity. Qed.

Example basename_short_component : JS.basename_ext "/a/vg" ".svg" = "vg".
Proof. reflexivity. Qed.

Example basename_suffix_case : JS.basename_ext "/a/ICON.SVG" ".svg" = "ICON.SVG".
Proof. reflexivity. Qed.

Example filter_any_case : Optimize.is_svg "/a/ICON.SvG" = true.
Proof. reflexivity. Qed.

Example stringify_empty_list :
  JS.stringify (JS.VObject [("icons", JS.VArray [])]) 2
  = "{" ++ JS.LF
    ++ "  " ++ JS.QuoteJSONString "icons" ++ ": []" ++ JS.LF
    ++ "}".
Proof. reflexivity. Qed.

Example stringify_two_names :
  JS.stringify (JS.VObject [("icons", JS.VArray [JS.VString "a"; JS.VString "b"])]) 2
  = "{" ++ JS.LF
    ++ "  " ++ JS.QuoteJSONString "icons" ++ ": [" ++ JS.LF
    ++ "    " ++ JS.QuoteJSONString "a" ++ "," ++ JS.LF
    ++ "    " ++ JS.QuoteJSONString "b" ++ JS.LF
    ++ "  ]" ++ JS.LF
    ++ "}".
Proof. reflexivity. Qed.

Example quote_escapes :
  JS.quote_units (String "009" (String "001" "a\")) = "\t\u0001a\\".
Proof. reflexivity. Qed.

Example number_in_template :
  JS.number_to_string 0 = "0" /\ JS.number_to_string 120 = "120".
Proof. split; reflexivity. Qed.

(** ** Strings as lists of units *)

Lemma chars_app (a b : string) : chars (a ++ b) = (chars a ++ chars b)%list.
Proof. induction a as [|c a IH]; [reflexivity|]. cbn. by rewrite <- IH. Qed.

Lemma chars_length (s : string) : String.length s = List.length (chars s).
Proof. induction s as [|c s IH]; [reflexivity|]. cbn. by rewrite IH. Qed.

Lemma chars_inj (a b : string) : chars a = chars b -> a = b.
Proof.
  intros H. rewrite <- (string_of_list_ascii_of_string a), H.
  apply string_of_list_ascii_of_string.
Qed.

Lemma chars_get (s : string) (n : nat) : String.get n s = chars s !! n.
Proof.
  revert n. induction s as [|c s IH]; intros [|n]; try reflexivity. cbn. apply IH.
Qed.

Lemma chars_substring (s : string) (n m : nat) :
  chars (String.substring n m s) = take m (drop n (chars s)).
Proof.
  revert n m. induction s as [|c s IH]; intros [|n] [|m]; try reflexivity.
  - cbn. by rewrite (IH 0%nat m), drop_0.
  - cbn. apply IH.
  - cbn. apply IH.
Qed.

Lemma chars_lower (s : string) :
  chars (JS.toLowerCase s) = List.map JS.lower_ascii (chars s).
Proof. induction s as [|c s IH]; [reflexivity|]. cbn. by rewrite IH. Qed.

Lemma is_svg_tail (s : string) : is_svg s = svg_tail (rev (chars s)).
Proof.
  unfold is_svg, JS.endsWith.
  change (String.length ".svg") with 4%nat.
  assert (Hs : chars s = rev (rev (chars s))) by (by rewrite rev_involutive).
  assert (Hn : String.length (JS.toLowerCase s) = List.length (rev (chars s))).
  { by rewrite chars_length, chars_lower, length_map, length_rev. }
  rewrite Hn.
  destruct (rev (chars s)) as [|c4 [|c3 [|c2 [|c1 r]]]]; try reflexivity.
  cbn [rev] in Hs. rewrite <- !app_assoc in Hs. cbn [app] in Hs.
  cbn [List.length].
  replace (4 <=? S (S (S (S (List.length r)))))%nat with true
    by (symmetry; apply Nat.leb_le; lia).
  replace (S (S (S (S (List.length r)))) - 4)%nat with (List.length (rev r))
    by (rewrite length_rev; lia).
  cbn [andb].
  match goal with |- String.eqb ?x ?y = _ =>
    assert (Hx : x = string_of_list_ascii (List.map JS.lower_ascii [c1; c2; c3; c4])) end.
  { apply chars_inj.
    rewrite chars_substring, chars_lower, list_ascii_of_string_of_list_ascii, Hs.
    rewrite map_app, drop_app_length' by (by rewrite length_map).
    reflexivity. }
  rewrite Hx. cbn [List.map string_of_list_ascii String.eqb svg_tail].
  destruct (Ascii.eqb (JS.lower_ascii c1) "."); cbn [andb]; [|reflexivity].
  destruct (Ascii.eqb (JS.lower_ascii c2) "s"); cbn [andb]; [|reflexivity].
  destruct (Ascii.eqb (JS.lower_ascii c3) "v"); cbn [andb]; [|reflexivity].
  destruct (Ascii.eqb (JS.lower_ascii c4) "g"); reflexivity.
Qed.

Lemma rev_chars_join (dir n : string) :
  exists pre, rev (chars (JS.join dir n)) = (rev (chars n) ++ "/"%char :: pre)%list.
Proof.
  unfold JS.join. destruct (String.eqb dir "/").
  - exists []. by rewrite chars_app.
  - exists (rev (chars dir)). rewrite !chars_app, rev_app_distr. cbn.
    by rewrite <- app_assoc.
Qed.

Lemma is_svg_join (dir n : string) : is_svg (JS.join dir n) = is_svg n.
Proof.
  rewrite !is_svg_tail. destruct (rev_chars_join dir n) as [pre ->].
  assert (H1 : Ascii.eqb (JS.lower_ascii "/") "." = false) by reflexivity.
  assert (H2 : Ascii.eqb (JS.lower_ascii "/") "s" = false) by reflexivity.
  assert (H3 : Ascii.eqb (JS.lower_ascii "/") "v" = false) by reflexivity.
  assert (H4 : Ascii.eqb (JS.lower_ascii "/") "g" = false) by reflexivity.
  destruct (rev (chars n)) as [|c4 [|c3 [|c2 [|c1 r]]]]; [| | | |reflexivity];
    cbn [app svg_tail];
    do 3 (try (destruct pre as [|? pre]; [reflexivity|]));
    by rewrite ?H1, ?H2, ?H3, ?H4, ?andb_false_r.
Qed.

(** ** The base name of a discovered path *)

Lemma basename_loop_scan (path : string) (n : nat) (st : JS.scan) :
  JS.matchedSlash st = false -> JS.end_ st <> (-1)%Z -> JS.start st = 0%Z ->
  exists k, (k <= n)%nat /\
    JS.basename_loop path n st
    = JS.mkScan (Z.of_nat k) (JS.end_ st) false (JS.extIdx st) (JS.firstNonSlashEnd st).
Proof.
  intros Hm He Hs. induction n as [|n IH].
  - exists 0%nat. split; [lia|]. destruct st; cbn in *. by subst.
  - cbn [JS.basename_loop].
    destruct (JS.is_slash (JS.charCodeAt path (Z.of_nat n))).
    + rewrite Hm. cbn [negb]. exists (S n). split; [lia|].
      f_equal. lia.
    + destruct (Z.eqb_spec (JS.end_ st) (-1)) as [Heq|_]; [done|].
      destruct IH as (k & Hk & ->). exists k. split; [lia|done].
Qed.

Lemma charCodeAt_chars (s : string) (i : nat) :
  JS.charCodeAt s (Z.of_nat i) = chars s !! i.
Proof.
  unfold JS.charCodeAt. destruct (Z.ltb_spec (Z.of_nat i) 0); [lia|].
  by rewrite Nat2Z.id, chars_get.
Qed.

Lemma slice_chars (s : string) (a b : nat) :
  (a <= b)%nat -> (b <= String.length s)%nat ->
  chars (JS.slice s (Z.of_nat a) (Z.of_nat b)) = take (b - a) (drop a (chars s)).
Proof.
  intros Hab Hb. unfold JS.slice.
  destruct (Z.ltb_spec (Z.of_nat a) 0); [lia|].
  destruct (Z.ltb_spec (Z.of_nat b) 0); [lia|].
  rewrite chars_substring. f_equal; [|f_equal]; lia.
Qed.

Lemma basename_drop (p : string) (c : ascii) (r : list ascii) :
  rev (chars p) = c :: r -> c <> "/"%char ->
  exists k, (k <= List.length r)%nat /\ chars (JS.basename p) = drop k (chars p).
Proof.
  intros Hp Hc.
  assert (Hcs : chars p = (rev r ++ [c])%list).
  { by rewrite <- (rev_involutive (chars p)), Hp. }
  assert (Hn : String.length p = S (List.length r)).
  { rewrite chars_length, Hcs, length_app, length_rev. cbn. lia. }
  unfold JS.basename. rewrite Hn. cbn [JS.basename_loop].
  rewrite charCodeAt_chars, Hcs.
  rewrite lookup_app_r by (rewrite length_rev; lia).
  rewrite length_rev, Nat.sub_diag.
  change ([c] !! 0%nat) with (Some c). cbn [JS.is_slash].
  destruct (Ascii.eqb_spec c JS.CHAR_FORWARD_SLASH) as [->|_]; [done|].
  change (JS.end_ (JS.mkScan 0 (-1) true (-1) (-1)) =? -1)%Z with true.
  cbv iota. cbn [JS.start JS.end_ JS.matchedSlash JS.extIdx JS.firstNonSlashEnd].
  pose proof (basename_loop_scan p (List.length r)
                (JS.mkScan 0 (Z.of_nat (List.length r) + 1) false (-1) (-1))
                eq_refl ltac:(cbn; lia) eq_refl) as (k & Hk & Hloop).
  cbn [JS.start JS.end_ JS.matchedSlash JS.extIdx JS.firstNonSlashEnd] in Hloop.
  rewrite Hloop. cbn [JS.start JS.end_].
  destruct (Z.eqb_spec (Z.of_nat (List.length r) + 1) (-1)); [lia|].
  exists k. split; [done|].
  replace (Z.of_nat (List.length r) + 1)%Z with (Z.of_nat (S (List.length r))) by lia.
  rewrite slice_chars by lia. rewrite <- Hcs.
  apply take_ge. rewrite length_drop, <- chars_length. lia.
Qed.

Lemma basename_tail (p : string) (c : ascii) (r : list ascii) :
  rev (chars p) = c :: r -> c <> "/"%char ->
  exists r', rev (chars (JS.basename p)) = c :: r'.
Proof.
  intros Hp Hc. destruct (basename_drop p c r Hp Hc) as (k & Hk & ->).
  assert (Hcs : chars p = (rev r ++ [c])%list).
  { by rewrite <- (rev_involutive (chars p)), Hp. }
  rewrite Hcs, drop_app_le by (rewrite length_rev; lia).
  rewrite rev_app_distr. cbn. eauto.
Qed.

Lemma basename_not_manifest (p : string) :
  is_svg p = true -> JS.basename p <> "manifest.json".
Proof.
  rewrite is_svg_tail. intros Hsvg Heq.
  destruct (rev (chars p)) as [|c4 [|c3 [|c2 [|c1 r]]]] eqn:Hp; try done.
  cbn [svg_tail] in Hsvg. apply andb_prop in Hsvg as [_ Hg].
  assert (Hc : c4 <> "/"%char) by (intros ->; done).
  destruct (basename_tail p c4 _ Hp Hc) as [r' Hr'].
  rewrite Heq in Hr'. cbn in Hr'. injection Hr' as <- _. done.
Qed.

Lemma join_inj (dir a b : string) : JS.join dir a = JS.join dir b -> a = b.
Proof.
  unfold JS.join. intros H. apply chars_inj.
  destruct (String.eqb dir "/"); apply (f_equal chars) in H;
    rewrite ?chars_app in H; cbn in H.
  - by injection H.
  - apply app_inv_head in H. by injection H.
Qed.

Lemma outputPath_not_manifest (E : env) (p : string) :
  is_svg p = true -> outputPath E p <> manifestPath E.
Proof.
  intros Hp Heq. apply join_inj in Heq. by apply (basename_not_manifest p).
Qed.

(** ** The base name holds no separator *)

Lemma basename_loop_span (p : string) (e n : nat) (st : JS.scan) :
  JS.matchedSlash st = false -> JS.end_ st = Z.of_nat e -> JS.start st = 0%Z ->
  (forall i, (n <= i < e)%nat -> JS.is_slash (chars p !! i) = false) ->
  exists k, (k <= n)%nat
    /\ JS.start (JS.basename_loop p n st) = Z.of_nat k
    /\ JS.end_ (JS.basename_loop p n st) = Z.of_nat e
    /\ forall i, (k <= i < e)%nat -> JS.is_slash (chars p !! i) = false.
Proof.
  intros Hm He Hs. induction n as [|n IH]; intros Hp.
  - exists 0%nat. cbn. rewrite Hs. repeat split; done.
  - cbn [JS.basename_loop]. rewrite charCodeAt_chars.
    destruct (JS.is_slash (chars p !! n)) eqn:Hn.
    + rewrite Hm. cbn. exists (S n). repeat split; [lia|lia|done|done].
    + destruct (Z.eqb_spec (JS.end_ st) (-1)) as [Heq|_]; [lia|].
      destruct IH as (k & Hk & ? & ? & ?).
      { intros i Hi. destruct (decide (i = n)) as [->|]; [done|]. apply Hp. lia. }
      exists k. repeat split; [lia|done..].
Qed.

Lemma basename_loop_init (p : string) (n : nat) :
  let st := JS.basename_loop p n (JS.mkScan 0 (-1) true (-1) (-1)) in
  JS.end_ st = (-1)%Z
  \/ exists k e, (k <= e <= n)%nat /\ JS.start st = Z.of_nat k /\ JS.end_ st = Z.of_nat e
       /\ forall i, (k <= i < e)%nat -> JS.is_slash (chars p !! i) = false.
Proof.
  induction n as [|n IH]; [by left|].
  cbn [JS.basename_loop]. rewrite charCodeAt_chars.
  destruct (JS.is_slash (chars p !! n)) eqn:Hn; cbn [JS.matchedSlash negb JS.end_ Z.eqb].
  - destruct IH as [IH|(k & e & Hke & ? & ? & ?)]; [by left|].
    right. exists k, e. repeat split; [lia|lia|done..].
  - right.
    destruct (basename_loop_span p (S n) n
                (JS.mkScan 0 (Z.of_nat n + 1) false (-1) (-1))) as (k & Hk & ? & ? & ?);
      [done|cbn; lia|done| |].
    { intros i Hi. by replace i with n by lia. }
    exists k, (S n). cbn [JS.start JS.end_ JS.extIdx JS.firstNonSlashEnd] in *.
    repeat split; [lia|lia|done..].
Qed.

(** The base name of a path never holds a separator. *)
Lemma basename_no_slash (p : string) : Spec.no_slash (JS.basename p) = true.
Proof.
  unfold JS.basename.
  destruct (basename_loop_init p (String.length p)) as [->|(k & e & Hke & -> & -> & Hp)];
    [reflexivity|].
  destruct (Z.eqb_spec (Z.of_nat e) (-1)); [lia|].
  unfold Spec.no_slash. rewrite slice_chars by lia.
  apply forallb_forall. intros c Hc.
  apply list_elem_of_In, list_elem_of_lookup in Hc as [j Hj].
  apply lookup_take_Some in Hj as [Hj Hlt]. rewrite lookup_drop in Hj.
  specialize (Hp (k + j)%nat ltac:(lia)). rewrite Hj in Hp. cbn in Hp. by rewrite Hp.
Qed.

Lemma join_long (dir n : string) :
  (2 <= String.length dir)%nat -> JS.join dir n = dir ++ "/" ++ n.
Proof.
  intros Hd. unfold JS.join.
  destruct (String.eqb_spec dir "/") as [->|_]; [cbn in Hd; lia|done].
Qed.

Lemma join_length (dir n : string) : (2 <= String.length (JS.join dir n))%nat \/ n = "".
Proof.
  destruct n as [|c n]; [by right|left]. unfold JS.join.
  destruct (String.eqb dir "/"); rewrite chars_length, !chars_app, ?length_app; cbn; lia.
Qed.

Lemma RAW_DIR_long (E : env) : (2 <= String.length (RAW_DIR E))%nat.
Proof. by destruct (join_length (cwd E) "raw"). Qed.

Lemma OPTIMIZED_DIR_long (E : env) : (2 <= String.length (OPTIMIZED_DIR E))%nat.
Proof. by destruct (join_length (cwd E) "optimized"). Qed.

Lemma append_assoc3 (a b c : string) : (a ++ "/" ++ b) ++ "/" ++ c = a ++ "/" ++ (b ++ "/" ++ c).
Proof. apply chars_inj. rewrite !chars_app. by rewrite <- !app_assoc. Qed.

(** ** The directories above a path *)

Lemma prefixes_app (seen a b : list ascii) :
  prefixes seen (a ++ b) = (prefixes seen a ++ prefixes (seen ++ a) b)%list.
Proof.
  revert seen. induction a as [|c a IH]; intros seen; cbn [prefixes app].
  - by rewrite app_nil_r.
  - rewrite IH, <- !app_assoc. reflexivity.
Qed.

Lemma prefixes_component (seen name : list ascii) :
  forallb (fun c => negb (Ascii.eqb c JS.CHAR_FORWARD_SLASH)) name = true ->
  prefixes seen name = [].
Proof.
  revert seen. induction name as [|c name IH]; intros seen H; [done|].
  cbn in H. apply andb_prop in H as [Hc H]. cbn [prefixes].
  change (Ascii.eqb c "/") with (Ascii.eqb c JS.CHAR_FORWARD_SLASH).
  destruct (Ascii.eqb c JS.CHAR_FORWARD_SLASH); [cbn in Hc; discriminate|]. by apply IH.
Qed.

Lemma ancestors_join (dir name : string) :
  (2 <= String.length dir)%nat -> Spec.no_slash name = true ->
  ancestors (JS.join dir name) = (ancestors dir ++ [dir])%list.
Proof.
  intros Hd Hn. rewrite join_long by done. unfold ancestors.
  rewrite chars_app, prefixes_app, chars_app. cbn [chars app prefixes].
  change (Ascii.eqb "/" "/") with true. cbv iota.
  rewrite (prefixes_component _ (chars name) Hn). f_equal.
  destruct (chars dir) as [|c r] eqn:Hc.
  - rewrite chars_length, Hc in Hd. cbn in Hd. lia.
  - rewrite <- Hc. by rewrite string_of_list_ascii_of_string.
Qed.

Lemma prefixes_length (seen rest : list ascii) (a : string) :
  In a (prefixes seen rest) ->
  (String.length a <= List.length seen + List.length rest)%nat.
Proof.
  revert seen. induction rest as [|c rest IH]; intros seen Ha; [done|].
  cbn [prefixes] in Ha. apply in_app_or in Ha as [Ha|Ha].
  - destruct (Ascii.eqb c "/"); [|done]. destruct Ha as [<-|[]].
    destruct seen as [|s0 seen]; [cbn; lia|].
    rewrite chars_length, list_ascii_of_string_of_list_ascii. cbn [List.length]. lia.
  - apply IH in Ha. rewrite length_app in Ha. cbn in *. lia.
Qed.

Lemma ancestors_length (p a : string) :
  In a (ancestors p) -> (String.length a <= String.length p)%nat.
Proof. intros Ha. apply prefixes_length in Ha. cbn in Ha. by rewrite (chars_length p). Qed.

(** A path inside a directory is neither the directory nor one above it. *)
Lemma join_not_above (dir name a : string) :
  (2 <= String.length dir)%nat -> In a (dir :: ancestors dir) -> JS.join dir name <> a.
Proof.
  intros Hd Ha Heq.
  assert (Hlen : (String.length a <= String.length dir)%nat).
  { destruct Ha as [<-|Ha]; [lia|by apply ancestors_length]. }
  rewrite <- Heq, join_long in Hlen by done.
  rewrite !chars_length, !chars_app, !length_app in Hlen. cbn in Hlen. lia.
Qed.

(** ** What stands in the way of a write under [optimized/] *)

Lemma same_ground_refl (E : env) (d : disk) : same_ground E d d.
Proof. by split. Qed.

Lemma existsb_ext_in {A} (f g : A -> bool) (l : list A) :
  (forall x, In x l -> f x = g x) -> existsb f l = existsb g l.
Proof.
  induction l as [|x l IH]; intros H; [done|]. cbn.
  rewrite (H x) by (by left). f_equal. apply IH. intros y Hy. apply H. by right.
Qed.

Lemma write_obstacle_ground (E : env) (d d' : disk) (name : string) :
  same_ground E d d' -> Spec.no_slash name = true ->
  write_obstacle d' (JS.join (OPTIMIZED_DIR E) name)
  = write_obstacle d (JS.join (OPTIMIZED_DIR E) name).
Proof.
  intros [Hdirs Hfiles] Hn. unfold write_obstacle.
  rewrite (ancestors_join _ _ (OPTIMIZED_DIR_long E) Hn), Hdirs.
  rewrite (existsb_ext_in (is_file d') (is_file d)); [done|].
  intros a Ha. apply Hfiles. apply in_app_or in Ha as [Ha|[<-|[]]]; [by right|by left].
Qed.

Lemma write_refusal_ground (E : env) (d d' : disk) (n : nat) (name : string) :
  same_ground E d d' -> Spec.no_slash name = true ->
  write_refusal E d' n (JS.join (OPTIMIZED_DIR E) name)
  = write_refusal E d n (JS.join (OPTIMIZED_DIR E) name).
Proof.
  intros Hg Hn. unfold write_refusal. by rewrite (write_obstacle_ground E d d').
Qed.

(** A write under [optimized/], done or failed, leaves the ground as it
    was. *)
Lemma same_ground_insert (E : env) (d : disk) (ds : gset string)
    (m : gmap string string) (name data : string) :
  same_ground E d (mkDisk ds m) ->
  same_ground E d (mkDisk ds (<[JS.join (OPTIMIZED_DIR E) name := data]> m)).
Proof.
  intros [Hdirs Hfiles]. split; [done|]. intros a Ha.
  rewrite <- (Hfiles a Ha). unfold is_file. cbn [files].
  rewrite lookup_insert_ne; [done|].
  by apply join_not_above; [apply OPTIMIZED_DIR_long|].
Qed.

Lemma same_ground_leftover (E : env) (d : disk) (ds : gset string)
    (m : gmap string string) (r : refusal) (name data : string) :
  same_ground E d (mkDisk ds m) ->
  same_ground E d (mkDisk ds (leftover r (JS.join (OPTIMIZED_DIR E) name) data m)).
Proof. destruct r; [done|]. apply same_ground_insert. Qed.

(** ** A run is its stages *)

Lemma written_app (a b : list event) (m : gmap string string) :
  written (a ++ b) m = written b (written a m).
Proof.
  revert m. induction a as [|ev a IH]; intros m; [reflexivity|].
  destruct ev as [| | | | |p c [|]| | |]; simpl; apply IH.
Qed.

Lemma attempts_app (a b : list event) : attempts (a ++ b) = (attempts a + attempts b)%nat.
Proof. unfold attempts. by rewrite List.filter_app, length_app. Qed.

Lemma attempts_cons (ev : event) (tr : list event) :
  attempts (ev :: tr)
  = (match ev with WriteFile _ _ _ => 1 | _ => 0 end + attempts tr)%nat.
Proof. by destruct ev. Qed.

Lemma attempts_nil : attempts [] = 0%nat.
Proof. reflexivity. Qed.

Ltac count_attempts :=
  repeat first [rewrite attempts_app | rewrite attempts_cons | rewrite attempts_nil].

Lemma settled_app (E : env) (d : disk) (n : nat) (a b : list event)
    (m : gmap string string) :
  settled E d n (a ++ b) m = settled E d (n + attempts a) b (settled E d n a m).
Proof.
  revert n m. induction a as [|ev a IH]; intros n m.
  { cbn. by rewrite Nat.add_0_r. }
  destruct ev as [| | | | |p c [|]| | |]; cbn [app settled]; rewrite IH;
    try reflexivity; unfold attempts; cbn [List.filter List.length]; f_equal; lia.
Qed.

(** Where no write failed, the files are those of the writes done. *)
Lemma settled_written (E : env) (d : disk) (n : nat) (tr : list event)
    (m : gmap string string) :
  Forall (fun ev => is_fatal ev = false) tr -> settled E d n tr m = written tr m.
Proof.
  intros H. revert n m. induction H as [|ev tr Hev _ IH]; intros n m; [reflexivity|].
  destruct ev as [| | | | |p c [|]| | |]; simpl; try apply IH. done.
Qed.

(** A turn that goes through makes one write, the loop one per file. *)
Lemma file_outcome_attempts (E : env) (d : disk) (n : nat) (p : string) :
  attempts (fst (file_outcome E d n p))
  = match snd (file_outcome E d n p) with
    | Ok _ => 1%nat
    | Throw _ => attempts (fst (file_outcome E d n p))
    end.
Proof.
  unfold file_outcome.
  destruct (file_content E p) as [content|e]; [|done].
  destruct (svgo_optimize E content _) as [data|e]; [|done].
  by destruct (write_refusal E d n _).
Qed.

Lemma loop_outcome_attempts (E : env) (d : disk) (l : list string) :
  forall n, snd (loop_outcome E d n l) = Ok tt ->
            attempts (fst (loop_outcome E d n l)) = List.length l.
Proof.
  induction l as [|p rest IH]; intros n; [done|]. cbn [loop_outcome].
  pose proof (file_outcome_attempts E d n p) as Hp.
  destruct (file_outcome E d n p) as [evs [data|e]]; cbn [fst snd] in *; [|done].
  intros Hok. rewrite attempts_app, Hp, (IH _ Hok). done.
Qed.

Lemma file_outcome_ground (E : env) (d : disk) (ds : gset string) (n : nat)
    (m : gmap string string) (p : string) :
  same_ground E d (mkDisk ds m) ->
  same_ground E d (mkDisk ds (settled E d n (fst (file_outcome E d n p)) m)).
Proof.
  intros Hg. unfold file_outcome.
  destruct (file_content E p) as [content|e]; [|done].
  destruct (svgo_optimize E content _) as [data|e]; [|done].
  unfold outputPath.
  destruct (write_refusal E d n _) as [r|] eqn:Hr; cbn [fst settled]; rewrite ?Hr.
  - by apply same_ground_leftover.
  - by apply same_ground_insert.
Qed.

Lemma file_turn (E : env) (d : disk) (filePath : string) (s : state) :
  same_ground E d (fs s) ->
  (let file := JS.basename filePath in
   content <- readFile E filePath ;;
   optimizedSvg <- optimizeSvg E content file ;;
   let outputPath := JS.join (OPTIMIZED_DIR E) file in
   writeFile E outputPath optimizedSvg ;;;
   console_log ("✓ Optimized: " ++ file)) s
  = (match snd (file_outcome E d (attempts (out s)) filePath) with
     | Ok _ => Ok tt
     | Throw e => Throw e
     end,
     mkState (mkDisk (dirs (fs s))
                (settled E d (attempts (out s))
                   (fst (file_outcome E d (attempts (out s)) filePath)) (files (fs s))))
             (out s ++ fst (file_outcome E d (attempts (out s)) filePath))).
Proof.
  destruct s as [[ds fl] tr]. cbn [fs out]. intros Hg.
  pose proof (write_refusal_ground E d (mkDisk ds fl) (attempts tr) (JS.basename filePath) Hg
                (basename_no_slash filePath)) as Hw.
  unfold file_outcome, bind, readFile, optimizeSvg, settle, writeFile, console_log,
    emit, outputPath, optimized_line; cbn [fs out dirs files fst snd].
  destruct (file_content E filePath) as [content|e]; cbn [fs out dirs files fst snd settled];
    [|reflexivity].
  destruct (svgo_optimize E content _) as [data|e]; cbn [fs out dirs files fst snd settled];
    [|by rewrite <- app_assoc].
  rewrite !attempts_app. cbn [attempts List.filter List.length]. rewrite !Nat.add_0_r.
  rewrite Hw.
  destruct (write_refusal E d (attempts tr) _) as [r|] eqn:Hr;
    cbn [fs out dirs files fst snd settled]; rewrite ?Hr;
    by rewrite <- !app_assoc.
Qed.

Lemma loop_ground (E : env) (d : disk) (ds : gset string) (l : list string) :
  forall n m, same_ground E d (mkDisk ds m) ->
    same_ground E d (mkDisk ds (settled E d n (fst (loop_outcome E d n l)) m)).
Proof.
  induction l as [|p rest IH]; intros n m Hg; [done|]. cbn [loop_outcome].
  pose proof (file_outcome_ground E d ds n m p Hg) as Hp.
  pose proof (file_outcome_attempts E d n p) as Ha.
  destruct (file_outcome E d n p) as [evs [data|e]]; cbn [fst snd] in *; [|done].
  rewrite settled_app, Ha, Nat.add_1_r. by apply IH.
Qed.

Lemma loop_turns (E : env) (d : disk) (allSvgFiles : list string) (s : state) :
  same_ground E d (fs s) ->
  for_of allSvgFiles (fun filePath =>
     let file := JS.basename filePath in
     content <- readFile E filePath ;;
     optimizedSvg <- optimizeSvg E content file ;;
     let outputPath := JS.join (OPTIMIZED_DIR E) file in
     writeFile E outputPath optimizedSvg ;;;
     console_log ("✓ Optimized: " ++ file)) s
  = (snd (loop_outcome E d (attempts (out s)) allSvgFiles),
     mkState (mkDisk (dirs (fs s))
                (settled E d (attempts (out s))
                   (fst (loop_outcome E d (attempts (out s)) allSvgFiles)) (files (fs s))))
             (out s ++ fst (loop_outcome E d (attempts (out s)) allSvgFiles))).
Proof.
  revert s. induction allSvgFiles as [|p rest IH]; intros s Hg.
  - destruct s as [[ds fl] tr]. simpl. unfold ret. by rewrite app_nil_r.
  - cbn [for_of]. unfold bind at 1. rewrite (file_turn E d) by exact Hg.
    cbn [loop_outcome].
    assert (Hg' : same_ground E d
              (mkDisk (dirs (fs s))
                 (settled E d (attempts (out s))
                    (fst (file_outcome E d (attempts (out s)) p)) (files (fs s))))).
    { apply file_outcome_ground. by destruct s as [[ds fl] tr]. }
    pose proof (file_outcome_attempts E d (attempts (out s)) p) as Ha.
    destruct (file_outcome E d (attempts (out s)) p) as [evs [data|e]];
      cbn [fst snd] in *; [|reflexivity].
    rewrite IH by done. cbn [fs out dirs files].
    rewrite attempts_app, Ha, Nat.add_1_r.
    by rewrite settled_app, Ha, Nat.add_1_r, app_assoc.
Qed.

Lemma exit_code_app_no_exit (a b : list event) :
  Forall (fun ev => forall c, ev <> Exit c) a -> exit_code (a ++ b) = exit_code b.
Proof.
  induction 1 as [|ev a Hev _ IH]; [reflexivity|].
  destruct ev as [| | | | | | | |c]; simpl; try apply IH. by destruct (Hev c).
Qed.

Lemma file_outcome_no_exit (E : env) (d : disk) (n : nat) (p : string) :
  Forall (fun ev => forall c, ev <> Exit c) (fst (file_outcome E d n p)).
Proof.
  unfold file_outcome.
  destruct (file_content E p) as [content|e]; simpl; [|by repeat constructor].
  destruct (svgo_optimize E content _) as [data|e]; simpl; [|by repeat constructor].
  destruct (write_refusal E d n _); simpl; by repeat constructor.
Qed.

Lemma loop_outcome_no_exit (E : env) (d : disk) (l : list string) :
  forall n, Forall (fun ev => forall c, ev <> Exit c) (fst (loop_outcome E d n l)).
Proof.
  induction l as [|p rest IH]; intros n; simpl; [constructor|].
  pose proof (file_outcome_no_exit E d n p) as Hp.
  destruct (file_outcome E d n p) as [evs [data|e]]; simpl in *; [|done].
  by apply Forall_app.
Qed.

Lemma ensureDir_probe (E : env) (d : disk) (tr : list event) :
  ensureDir E (OPTIMIZED_DIR E) (mkState d tr)
  = if probe E d then (Ok tt, mkState d (tr ++ [Access (OPTIMIZED_DIR E) true]))
    else match mkdir_refusal E d (OPTIMIZED_DIR E) with
         | Some e =>
             (Throw e, mkState d (tr ++ [Access (OPTIMIZED_DIR E) false;
                                         Mkdir (OPTIMIZED_DIR E) false]))
         | None =>
             (Ok tt, mkState (mkDisk (made (OPTIMIZED_DIR E) ∪ dirs d) (files d))
                       (tr ++ [Access (OPTIMIZED_DIR E) false;
                               Mkdir (OPTIMIZED_DIR E) true]))
         end.
Proof.
  unfold ensureDir, try_catch, access, mkdir, probe, emit. cbn [fs out dirs files].
  destruct (present d (OPTIMIZED_DIR E)); cbn [andb].
  - destruct (access_fault E); [|done]. cbn [fs out dirs files].
    destruct (mkdir_refusal E d _); by rewrite <- app_assoc.
  - cbn [fs out dirs files]. destruct (mkdir_refusal E d _); by rewrite <- app_assoc.
Qed.

Lemma manifest_refusal_ground (E : env) (d d' : disk) (n : nat) :
  same_ground E d d' ->
  write_refusal E d' n (JS.join (OPTIMIZED_DIR E) "manifest.json")
  = write_refusal E d n (manifestPath E).
Proof. intros Hg. unfold manifestPath. apply write_refusal_ground; [done|reflexivity]. Qed.

Ltac stage_done :=
  unfold failed, manifestPath, manifest, iconNames, complete_line, found_line,
    created_line, error_label;
  unfold emit; cbn [fs out dirs files fst snd after trace code];
  rewrite <- ?app_assoc; cbn [app]; reflexivity.

(** The script from discovery on, on the disk [ensureDir] left. *)
Lemma discovered_stage (E : env) (d : disk) (tr : list event) :
  snd (try_catch
         (allSvgFiles <- settle (Walk (RAW_DIR E))
                           (getSvgFiles E (RAW_DIR E) (raw_listing E)) ;;
          console_log ("Found " ++ JS.number_to_string (List.length allSvgFiles)
                       ++ " SVG files to optimize") ;;;
          for_of allSvgFiles (fun filePath =>
            let file := JS.basename filePath in
            content <- readFile E filePath ;;
            optimizedSvg <- optimizeSvg E content file ;;
            let outputPath := JS.join (OPTIMIZED_DIR E) file in
            writeFile E outputPath optimizedSvg ;;;
            console_log ("✓ Optimized: " ++ file)) ;;;
          console_log (JS.LF ++ "Optimization complete! "
                       ++ JS.number_to_string (List.length allSvgFiles)
                       ++ " SVGs processed.") ;;;
          let iconNames := List.map (fun file => JS.basename_ext file ".svg") allSvgFiles in
          let manifestPath := JS.join (OPTIMIZED_DIR E) "manifest.json" in
          writeFile E manifestPath
            (JS.stringify
               (JS.VObject [("icons", JS.VArray (List.map JS.VString iconNames))]) 2) ;;;
          console_log ("Icon manifest created at " ++ manifestPath))
         (fun error =>
            console_error "Error optimizing SVGs:" error ;;;
            process_exit 1)
         (mkState d tr))
  = mkState (after (discovered E d tr)) (trace (discovered E d tr)).
Proof.
  unfold try_catch, discovered, bind at 1, settle.
  destruct (getSvgFiles E (RAW_DIR E) (raw_listing E)) as [l|e].
  2:{ unfold bind, console_error, process_exit. stage_done. }
  unfold bind at 1; unfold console_log at 1; unfold bind at 1.
  rewrite (loop_turns E d l) by apply same_ground_refl.
  assert (Hbefore : attempts
                      (out (emit (ConsoleLog ("Found " ++ JS.number_to_string (List.length l)
                                             ++ " SVG files to optimize"))
                              (emit (Walk (RAW_DIR E) true) (mkState d tr))))
                    = attempts tr).
  { unfold emit. cbn [out fs]. rewrite !attempts_app. cbn. lia. }
  rewrite Hbefore.
  pose proof (loop_ground E d (dirs d) l (attempts tr) (files d)
                ltac:(destruct d; apply same_ground_refl)) as Hg.
  pose proof (loop_outcome_attempts E d l (attempts tr)) as Hn.
  destruct (snd (loop_outcome E d (attempts tr) l)) as [[]|e].
  2:{ unfold bind, console_error, process_exit. stage_done. }
  unfold bind, console_log, writeFile, console_error, process_exit.
  unfold emit; cbn [fs out dirs files fst snd].
  rewrite !attempts_app, Hn by done. cbn [attempts List.filter List.length].
  rewrite !Nat.add_0_r.
  rewrite (manifest_refusal_ground E d _ _ Hg).
  destruct (write_refusal E d _ (manifestPath E)) as [r|]; stage_done.
Qed.

Lemma processFiles_stages (E : env) (d : disk) :
  snd (processFiles E (mkState d []))
  = mkState (after (stages E d)) (trace (stages E d)).
Proof.
  unfold stages, processFiles.
  unfold try_catch at 1. unfold bind at 1. rewrite ensureDir_probe.
  destruct (probe E d); [exact (discovered_stage E d _)|].
  destruct (mkdir_refusal E d (OPTIMIZED_DIR E)) as [e|];
    [|exact (discovered_stage E _ _)].
  unfold bind, console_error, process_exit. stage_done.
Qed.

Lemma discovered_code (E : env) (d : disk) (tr : list event) :
  Forall (fun ev => forall c, ev <> Exit c) tr ->
  exit_code (trace (discovered E d tr)) = code (discovered E d tr).
Proof.
  intros Htr. unfold discovered.
  destruct (getSvgFiles E (RAW_DIR E) (raw_listing E)) as [l|e].
  - destruct (snd (loop_outcome E d _ l)) as [[]|e];
      [destruct (write_refusal E d _ (manifestPath E)) as [r|]|];
      unfold failed; cbn [trace code]; rewrite <- ?app_assoc;
      rewrite (exit_code_app_no_exit _ _ Htr); cbn [app exit_code];
      rewrite (exit_code_app_no_exit _ _ (loop_outcome_no_exit E d l _)); reflexivity.
  - unfold failed; cbn [trace code]; rewrite <- ?app_assoc.
    by rewrite (exit_code_app_no_exit _ _ Htr).
Qed.

Lemma stages_code (E : env) (d : disk) :
  exit_code (trace (stages E d)) = code (stages E d).
Proof.
  unfold stages. destruct (probe E d).
  - apply discovered_code. by repeat constructor.
  - destruct (mkdir_refusal E d _) as [e|]; [reflexivity|].
    apply discovered_code. by repeat constructor.
Qed.

Lemma run_stages (E : env) (d : disk) : run E d = stages E d.
Proof.
  unfold run. rewrite processFiles_stages. cbn [fs out].
  rewrite stages_code. by destruct (stages E d).
Qed.

(** ** The anatomy of a run *)

Lemma turn_outcome (E : env) (d : disk) (n : nat) (p : string) (data : string) :
  snd (file_outcome E d n p) = Ok data ->
  file_outcome E d n p = (turn E p data, Ok data) /\ data = artifact E p.
Proof.
  unfold file_outcome, turn, artifact.
  destruct (file_content E p) as [content|e]; [|done].
  destruct (svgo_optimize E content _) as [x|e]; [|done].
  destruct (write_refusal E d n _) as [r|]; [done|].
  cbn. by intros [= ->].
Qed.

Lemma not_manifest (E : env) (p : string) :
  is_svg p = true -> String.eqb (outputPath E p) (manifestPath E) = false.
Proof. intros Hp. apply String.eqb_neq. by apply outputPath_not_manifest. Qed.

Lemma turn_quiet (E : env) (p data : string) :
  is_svg p = true -> Forall (fun x => quiet E x = true) (turn E p data).
Proof.
  intros Hp. unfold turn, quiet. repeat constructor; cbn; try done.
  by rewrite not_manifest.
Qed.

(** How a turn that fails looks: the calls that went through, then the one
    that failed. *)
Lemma turn_throw (E : env) (d : disk) (n : nat) (p : string) (e : error) :
  is_svg p = true ->
  snd (file_outcome E d n p) = Throw e ->
  exists pre ev,
    fst (file_outcome E d n p) = (pre ++ [ev])%list /\ is_fatal ev = true
    /\ is_report ev = false /\ writes_manifest E ev = false
    /\ Forall (fun x => quiet E x = true) pre.
Proof.
  intros Hsvg. unfold file_outcome.
  destruct (file_content E p) as [content|e1].
  2:{ intros _. exists [], (ReadFile p false). cbn. repeat split; done. }
  destruct (svgo_optimize E content _) as [x|e1].
  2:{ intros _. exists [ReadFile p true], (Optimize (config (JS.basename p)) false). cbn.
      repeat split; try done. by repeat constructor. }
  destruct (write_refusal E d n _) as [r|]; [|done].
  intros _.
  exists [ReadFile p true; Optimize (config (JS.basename p)) true],
    (WriteFile (outputPath E p) x false). cbn.
  repeat split; try done; [by apply not_manifest|by repeat constructor].
Qed.

Lemma loop_ok (E : env) (d : disk) (n : nat) (l : list string) :
  snd (loop_outcome E d n l) = Ok tt ->
  fst (loop_outcome E d n l) = flat_map (fun p => turn E p (artifact E p)) l.
Proof.
  revert n. induction l as [|p rest IH]; intros n; [done|]. cbn [loop_outcome flat_map].
  destruct (file_outcome E d n p) as [evs [data|e]] eqn:Hp; cbn [fst snd]; [|done].
  intros Hrest. rewrite (IH _ Hrest). f_equal.
  destruct (turn_outcome E d n p data) as [Hturn <-]; [by rewrite Hp|].
  rewrite Hturn in Hp. by injection Hp.
Qed.

Lemma loop_throw (E : env) (d : disk) (n : nat) (l : list string) (e : error) :
  snd (loop_outcome E d n l) = Throw e ->
  exists done p rest pre ev,
    l = (done ++ p :: rest)%list
    /\ fst (loop_outcome E d n l)
       = (flat_map (fun p => turn E p (artifact E p)) done ++ pre ++ [ev])%list
    /\ snd (file_outcome E d (n + List.length done) p) = Throw e
    /\ fst (file_outcome E d (n + List.length done) p) = (pre ++ [ev])%list.
Proof.
  revert n. induction l as [|p rest IH]; intros n; [done|]. cbn [loop_outcome].
  destruct (file_outcome E d n p) as [evs [data|e1]] eqn:Hp; cbn [fst snd].
  - intros Hrest. destruct (IH _ Hrest) as (dn & q & rs & pre & ev & -> & Hevs & Hq & Hq').
    exists (p :: dn), q, rs, pre, ev. cbn [List.length].
    replace (n + S (List.length dn))%nat with (S n + List.length dn)%nat by lia.
    repeat split; try done.
    rewrite Hevs. cbn [flat_map]. rewrite <- app_assoc. f_equal.
    destruct (turn_outcome E d n p data) as [Hturn <-]; [by rewrite Hp|].
    rewrite Hturn in Hp. by injection Hp.
  - intros [= ->].
    assert (exists pre ev, evs = (pre ++ [ev])%list) as (pre & ev & Hevs).
    { revert Hp. unfold file_outcome.
      destruct (file_content E p) as [content|e1]; [|intros [= <- _]; by exists [], (ReadFile p false)].
      destruct (svgo_optimize E content _) as [x|e1];
        [|intros [= <- _]; by exists [ReadFile p true], (Optimize (config (JS.basename p)) false)].
      destruct (write_refusal E d n _) as [r|]; [|done].
      intros [= <- _]. by eexists [_; _], _. }
    subst evs.
    exists [], p, rest, pre, ev. cbn [List.length]. rewrite Nat.add_0_r.
    repeat split; try done. all: by rewrite Hp.
Qed.

Lemma getSvgFiles_is_svg (E : env) (dir : string) (listing : result (list dirent))
    (l : list string) :
  getSvgFiles E dir listing = Ok l -> Forall (fun p => is_svg p = true) l.
Proof.
  unfold getSvgFiles. destruct listing as [entries|e]; [|done].
  destruct (Promise_all _) as [ls|e]; [|done].
  destruct (concat_spread E ls) as [all|e]; [|done].
  intros [= <-]. apply List.Forall_forall. intros p Hp. by apply filter_In in Hp as [_ ?].
Qed.

Lemma turns_quiet (E : env) (l : list string) :
  Forall (fun p => is_svg p = true) l ->
  Forall (fun x => quiet E x = true) (flat_map (fun p => turn E p (artifact E p)) l).
Proof.
  induction 1 as [|p l Hp _ IH]; [constructor|].
  cbn [flat_map]. apply Forall_app. split; [by apply turn_quiet|done].
Qed.


Lemma quiet_inv (E : env) (ev : event) :
  quiet E ev = true ->
  is_fatal ev = false /\ is_report ev = false /\ writes_manifest E ev = false.
Proof.
  unfold quiet. intros H. apply andb_prop in H as [H H3]. apply andb_prop in H as [H1 H2].
  by repeat split; apply negb_true_iff.
Qed.


Lemma quiet_not_fatal (E : env) (evs : list event) :
  Forall (fun x => quiet E x = true) evs -> Forall (fun x => is_fatal x = false) evs.
Proof. apply List.Forall_impl. intros ev H. by apply quiet_inv in H as (? & _ & _). Qed.

(** The files after calls that went through and one more that did not:
    those of the writes done, and what the last call left if it is a write
    that failed after its open. *)
Lemma settled_last (E : env) (d : disk) (n : nat) (pre : list event) (ev : event)
    (m : gmap string string) :
  Forall (fun x => quiet E x = true) pre ->
  settled E d n (pre ++ [ev]) m = settled E d (n + attempts pre) [ev] (written pre m).
Proof.
  intros Hpre. rewrite settled_app. f_equal. by apply settled_written, (quiet_not_fatal E).
Qed.


Lemma discovered_done (E : env) (d : disk) (tr : list event) :
  code (discovered E d tr) = 0%Z ->
  exists l,
    getSvgFiles E (RAW_DIR E) (raw_listing E) = Ok l
    /\ snd (loop_outcome E d (attempts tr) l) = Ok tt
    /\ write_refusal E d (attempts tr + List.length l) (manifestPath E) = None
    /\ trace (discovered E d tr)
       = (tr ++ [Walk (RAW_DIR E) true; ConsoleLog (found_line (List.length l))]
            ++ flat_map (fun p => turn E p (artifact E p)) l
            ++ [ConsoleLog (complete_line (List.length l));
                WriteFile (manifestPath E) (manifest l) true;
                ConsoleLog (created_line E)])%list
    /\ after (discovered E d tr)
       = mkDisk (dirs d)
           (<[manifestPath E := manifest l]>
              (written (flat_map (fun p => turn E p (artifact E p)) l) (files d))).
Proof.
  unfold discovered.
  destruct (getSvgFiles E (RAW_DIR E) (raw_listing E)) as [l|e] eqn:Hl; [|done].
  destruct (snd (loop_outcome E d (attempts tr) l)) as [[]|e] eqn:Hloop; [|done].
  destruct (write_refusal E d _ (manifestPath E)) as [r|] eqn:Hr; [done|].
  intros _. exists l. rewrite (loop_ok E d _ l Hloop). cbn [trace after dirs files].
  rewrite settled_written
    by (eapply quiet_not_fatal, turns_quiet, getSvgFiles_is_svg, Hl).
  repeat split; try done. by rewrite <- !app_assoc.
Qed.

Lemma discovered_failed (E : env) (d : disk) (tr : list event) :
  code (discovered E d tr) <> 0%Z ->
  code (discovered E d tr) = 1%Z
  /\ exists pre ev e,
       trace (discovered E d tr)
       = (tr ++ pre ++ [ev; ConsoleError error_label e; Exit 1])%list
       /\ is_fatal ev = true /\ is_report ev = false
       /\ Forall (fun x => quiet E x = true) pre
       /\ dirs (after (discovered E d tr)) = dirs d
       /\ files (after (discovered E d tr))
          = settled E d (attempts (tr ++ pre)) [ev] (written pre (files d)).
Proof.
  unfold discovered.
  destruct (getSvgFiles E (RAW_DIR E) (raw_listing E)) as [l|e] eqn:Hl.
  2:{ intros _. split; [done|]. exists [], (Walk (RAW_DIR E) false), e.
      unfold failed. cbn. rewrite <- !app_assoc. repeat split; done. }
  pose proof (getSvgFiles_is_svg _ _ _ _ Hl) as Hsvg.
  pose proof (loop_outcome_attempts E d l (attempts tr)) as Hn.
  destruct (snd (loop_outcome E d (attempts tr) l)) as [[]|e] eqn:Hloop.
  - destruct (write_refusal E d _ (manifestPath E)) as [r|] eqn:Hr; [|done].
    intros _. split; [done|]. rewrite (loop_ok E d _ l Hloop) in *.
    eexists (_ :: _ :: flat_map _ l ++ [_])%list, _, (refusal_error r).
    unfold failed. cbn [trace after dirs files].
    split; [by rewrite <- !app_assoc; cbn; rewrite <- !app_assoc|].
    repeat split; try done.
    + repeat constructor. apply Forall_app. split; [by apply turns_quiet|by repeat constructor].
    + cbn [settled written]. count_attempts. rewrite Hn by done.
      cbn [Nat.add]. rewrite !Nat.add_0_r, Hr, written_app.
      cbn [written].
      by rewrite settled_written by (by eapply quiet_not_fatal, turns_quiet).
  - intros _. split; [done|].
    destruct (loop_throw E d _ l e Hloop) as (dn & p & rest & pre & ev & -> & Hevs & Hp & Hp').
    apply Forall_app in Hsvg as [Hdn Hp2]. apply Forall_cons in Hp2 as [Hp2 _].
    destruct (turn_throw E d _ p e Hp2 Hp) as (pre' & ev' & Hpe & Hfatal & Hrep & Hman & Hpre).
    rewrite Hp' in Hpe. apply app_inj_tail in Hpe as [<- <-].
    rewrite Hevs.
    eexists (_ :: _ :: flat_map _ dn ++ pre)%list, ev, e.
    unfold failed. cbn [trace after dirs files].
    split; [by rewrite <- !app_assoc; cbn; rewrite <- !app_assoc|].
    repeat split; try done.
    + repeat constructor. apply Forall_app. split; [by apply turns_quiet|done].
    + rewrite app_assoc, settled_last
        by (apply Forall_app; split; [by apply turns_quiet|done]).
      count_attempts. by cbn [Nat.add app].
Qed.

Lemma run_done (E : env) (d : disk) :
  code (run E d) = 0%Z ->
  exists ens l,
    (ens = [Access (OPTIMIZED_DIR E) true] /\ dirs (after (run E d)) = dirs d
     \/ ens = [Access (OPTIMIZED_DIR E) false; Mkdir (OPTIMIZED_DIR E) true]
        /\ dirs (after (run E d)) = made (OPTIMIZED_DIR E) ∪ dirs d)
    /\ getSvgFiles E (RAW_DIR E) (raw_listing E) = Ok l
    /\ trace (run E d)
       = (ens ++ [Walk (RAW_DIR E) true; ConsoleLog (found_line (List.length l))]
            ++ flat_map (fun p => turn E p (artifact E p)) l
            ++ [ConsoleLog (complete_line (List.length l));
                WriteFile (manifestPath E) (manifest l) true;
                ConsoleLog (created_line E)])%list
    /\ files (after (run E d))
       = <[manifestPath E := manifest l]>
           (written (flat_map (fun p => turn E p (artifact E p)) l) (files d)).
Proof.
  rewrite run_stages. unfold stages. destruct (probe E d).
  - intros H. destruct (discovered_done _ _ _ H) as (l & Hl & _ & _ & Htr & Haft).
    eexists _, l. rewrite Htr, Haft. split; [by left|done].
  - destruct (mkdir_refusal E d _) as [e|]; [done|].
    intros H. destruct (discovered_done _ _ _ H) as (l & Hl & _ & _ & Htr & Haft).
    eexists _, l. rewrite Htr, Haft. split; [by right|done].
Qed.

Lemma run_failed (E : env) (d : disk) :
  code (run E d) <> 0%Z ->
  code (run E d) = 1%Z
  /\ exists pre ev e,
       trace (run E d) = (pre ++ [ev; ConsoleError error_label e; Exit 1])%list
       /\ is_fatal ev = true /\ is_report ev = false
       /\ Forall (fun x => quiet E x = true) pre
       /\ (dirs (after (run E d)) = dirs d
           \/ dirs (after (run E d)) = made (OPTIMIZED_DIR E) ∪ dirs d)
       /\ files (after (run E d))
          = settled E (ground_of E d) (attempts pre) [ev] (written pre (files d)).
Proof.
  rewrite run_stages. unfold stages, ground_of. destruct (probe E d).
  - intros H. destruct (discovered_failed _ _ _ H)
      as (Hc & pre & ev & e & Htr & Hev & Hrep & Hpre & Hdirs & Hfiles).
    split; [done|]. exists (Access (OPTIMIZED_DIR E) true :: pre), ev, e.
    rewrite Htr. repeat split; try done; [by constructor|by left].
  - destruct (mkdir_refusal E d _) as [e|].
    + intros _. split; [done|].
      exists [Access (OPTIMIZED_DIR E) false], (Mkdir (OPTIMIZED_DIR E) false), e.
      unfold failed. cbn. repeat split; try done; [by repeat constructor|by left].
    + intros H. destruct (discovered_failed _ _ _ H)
        as (Hc & pre & ev & e & Htr & Hev & Hrep & Hpre & Hdirs & Hfiles).
      split; [done|].
      exists (Access (OPTIMIZED_DIR E) false :: Mkdir (OPTIMIZED_DIR E) true :: pre), ev, e.
      rewrite Htr. repeat split; try done; [by repeat constructor|by right].
Qed.


(** ** Failures *)

Lemma run_done_quiet (E : env) (d : disk) :
  code (run E d) = 0%Z -> Forall (fun x => is_fatal x = false) (trace (run E d)).
Proof.
  intros H. destruct (run_done E d H) as (ens & l & Hens & Hl & -> & _).
  pose proof (turns_quiet E l (getSvgFiles_is_svg _ _ _ _ Hl)) as Hq.
  apply Forall_app. split; [destruct Hens as [[-> _]|[-> _]]; by repeat constructor|].
  repeat constructor. apply Forall_app. split; [|by repeat constructor].
  revert Hq. apply List.Forall_impl. intros x Hx. by apply quiet_inv in Hx as (? & _).
Qed.

Lemma fatal_in_failed (E : env) (pre : list event) (ev x : event) (e : error) :
  Forall (fun y => quiet E y = true) pre -> is_fatal x = true ->
  In x (pre ++ [ev; ConsoleError error_label e; Exit 1]) -> x = ev.
Proof.
  intros Hpre Hx Hin. apply in_app_or in Hin as [Hin|Hin].
  - rewrite List.Forall_forall in Hpre. apply Hpre, quiet_inv in Hin as (Hn & _). congruence.
  - destruct Hin as [<-|[<-|[<-|[]]]]; done.
Qed.



(** C8: when the listing of the source root fails (the directory does not
    exist), the run ends with status 1, leaves every file of the disk as
    it was and attempts no write at all. *)
Theorem missing_source_root (E : env) (d : disk) (e : error) :
  raw_listing E = Throw e ->
  code (run E d) = 1%Z
  /\ files (after (run E d)) = files d
  /\ forall path data ok, ~ In (WriteFile path data ok) (trace (run E d)).
Proof.
  intros Hraw. rewrite run_stages. unfold stages, discovered, getSvgFiles. rewrite Hraw.
  destruct (probe E d); [|destruct (mkdir_refusal E d _)]; unfold failed; cbn;
    (repeat split; [done..|]); intros path data ok H; intuition discriminate.
Qed.

Lemma missing_source_root_witness :
  code (run Sample.no_raw Sample.empty_disk) = 1%Z
  /\ files (after (run Sample.no_raw Sample.empty_disk)) = files Sample.empty_disk
  /\ forall path data ok,
       ~ In (WriteFile path data ok) (trace (run Sample.no_raw Sample.empty_disk)).
Proof.
  exact (missing_source_root Sample.no_raw Sample.empty_disk "ENOENT" eq_refl).
Defined.

(** ** The manifest and the files written *)

Lemma written_keeps (evs : list event) (m : gmap string string) (k : string) :
  is_Some (m !! k) -> is_Some (written evs m !! k).
Proof.
  revert m. induction evs as [|ev evs IH]; intros m Hm; [done|].
  destruct ev as [| | | | |path data [|]| | |]; cbn [written]; try by apply IH.
  apply IH. destruct (decide (path = k)) as [->|Hne].
  - rewrite lookup_insert_eq. eauto.
  - by rewrite lookup_insert_ne.
Qed.

Lemma written_is_Some (evs : list event) (m : gmap string string) (k data : string) :
  In (WriteFile k data true) evs -> is_Some (written evs m !! k).
Proof.
  revert m. induction evs as [|ev evs IH]; intros m Hin; [done|].
  destruct Hin as [->|Hin].
  - cbn [written]. apply written_keeps. rewrite lookup_insert_eq. eauto.
  - destruct ev as [| | | | |path x [|]| | |]; cbn [written]; by apply IH.
Qed.

Lemma turn_write (E : env) (l : list string) (p : string) :
  In p l ->
  In (WriteFile (outputPath E p) (artifact E p) true)
     (flat_map (fun p => turn E p (artifact E p)) l).
Proof.
  intros Hp. apply in_flat_map. exists p. split; [done|].
  unfold turn. cbn. tauto.
Qed.

Lemma quiet_not_manifest (E : env) (evs : list event) (data : string) (ok : bool) :
  Forall (fun x => quiet E x = true) evs ->
  ~ In (WriteFile (manifestPath E) data ok) evs.
Proof.
  intros Hq Hin. rewrite List.Forall_forall in Hq.
  apply Hq, quiet_inv in Hin as (_ & _ & Hw). cbn in Hw.
  by rewrite String.eqb_refl in Hw.
Qed.

(** C5: when a run writes the manifest, its text is the manifest of the
    discovered files, and every name it lists comes from a discovered
    file whose optimized text the same run wrote, before the manifest,
    at the destination path of that file, where a file exists at the end
    of the run. *)
Theorem manifest_entries_written (E : env) (d : disk) (data : string) :
  In (WriteFile (manifestPath E) data true) (trace (run E d)) ->
  exists l pre post,
    getSvgFiles E (RAW_DIR E) (raw_listing E) = Ok l
    /\ data = manifest l
    /\ trace (run E d) = (pre ++ WriteFile (manifestPath E) data true :: post)%list
    /\ forall name, In name (iconNames l) ->
         exists p, In p l /\ name = JS.basename_ext p ".svg"
           /\ In (WriteFile (outputPath E p) (artifact E p) true) pre
           /\ is_Some (files (after (run E d)) !! outputPath E p).
Proof.
  intros Hin. destruct (Z.eq_dec (code (run E d)) 0%Z) as [H0|H1].
  2:{ destruct (run_failed E d H1) as (_ & pre & ev & e & Htr & Hev & _ & Hpre & _).
      rewrite Htr in Hin. apply in_app_or in Hin as [Hin|[Hin|[Hin|[Hin|[]]]]]; try done.
      - by apply quiet_not_manifest in Hin.
      - by subst ev. }
  destruct (run_done E d H0) as (ens & l & Hens & Hl & Htr & Hfiles).
  pose proof (getSvgFiles_is_svg _ _ _ _ Hl) as Hsvg.
  pose proof (turns_quiet E l Hsvg) as Hq.
  assert (Hdata : data = manifest l).
  { rewrite Htr in Hin. apply in_app_or in Hin as [Hin|Hin].
    { destruct Hens as [[-> _]|[-> _]]; cbn in Hin; intuition discriminate. }
    cbn [app In] in Hin. destruct Hin as [Hin|[Hin|Hin]]; [done..|].
    apply in_app_or in Hin as [Hin|Hin]; [by apply quiet_not_manifest in Hin|].
    destruct Hin as [Hin|[Hin|[Hin|[]]]]; try done. by injection Hin. }
  subst data.
  exists l, (ens ++ [Walk (RAW_DIR E) true; ConsoleLog (found_line (List.length l))]
               ++ flat_map (fun p => turn E p (artifact E p)) l
               ++ [ConsoleLog (complete_line (List.length l))])%list,
    [ConsoleLog (created_line E)].
  split; [done|]. split; [done|]. split.
  { by rewrite Htr, <- !app_assoc. }
  intros name Hname. unfold iconNames in Hname. apply in_map_iff in Hname as (p & <- & Hp).
  exists p. split; [done|]. split; [done|]. split.
  - apply in_or_app. right. cbn [app In]. do 2 right. apply in_or_app. left.
    by apply turn_write.
  - rewrite Hfiles, lookup_insert_ne.
    + eapply written_is_Some. by apply turn_write.
    + intros Heq. symmetry in Heq. revert Heq. apply outputPath_not_manifest.
      rewrite List.Forall_forall in Hsvg. by apply Hsvg.
Qed.

Lemma manifest_entries_written_witness :
  exists l pre post,
    getSvgFiles Sample.icons (RAW_DIR Sample.icons) (raw_listing Sample.icons) = Ok l
    /\ manifest ["/repo/raw/lock.svg"; "/repo/raw/nav/ARROW.SVG"] = manifest l
    /\ trace (run Sample.icons Sample.empty_disk)
       = (pre ++ WriteFile (manifestPath Sample.icons)
                   (manifest ["/repo/raw/lock.svg"; "/repo/raw/nav/ARROW.SVG"]) true
              :: post)%list
    /\ forall name, In name (iconNames l) ->
         exists p, In p l /\ name = JS.basename_ext p ".svg"
           /\ In (WriteFile (outputPath Sample.icons p) (artifact Sample.icons p) true) pre
           /\ is_Some (files (after (run Sample.icons Sample.empty_disk))
                         !! outputPath Sample.icons p).
Proof.
  apply (manifest_entries_written Sample.icons Sample.empty_disk).
  vm_compute. tauto.
Defined.

(** ** Running twice *)

Lemma written_lookup (evs : list event) (m : gmap string string) (k : string) :
  written evs m !! k
  = match last_write k evs with Some v => Some v | None => m !! k end.
Proof.
  revert m. induction evs as [|ev evs IH]; intros m; [done|].
  destruct ev as [| | | | |path data [|]| | |]; cbn [written last_write]; rewrite ?IH; try done.
  destruct (last_write k evs); [done|].
  destruct (decide (path = k)) as [->|Hne].
  - by rewrite lookup_insert_eq.
  - by rewrite lookup_insert_ne.
Qed.

Lemma written_idem (evs : list event) (m : gmap string string) :
  written evs (written evs m) = written evs m.
Proof.
  apply map_eq. intros k. rewrite !written_lookup. by destruct (last_write k evs).
Qed.

(** What a trace leaves on the files is what a list of writes leaves. *)
Lemma settled_as_written (E : env) (d : disk) (tr : list event) :
  forall n, exists W, forall m, settled E d n tr m = written W m.
Proof.
  induction tr as [|ev tr IH]; intros n; [by exists []|].
  destruct ev as [| | | | |path data [|]| | |];
    try (destruct (IH n) as [W HW]; exists W; intros m; apply HW).
  - destruct (IH (S n)) as [W HW].
    exists (WriteFile path data true :: W). intros m. apply HW.
  - destruct (IH (S n)) as [W HW].
    destruct (write_refusal E d n path) as [[e|e k]|] eqn:Hr.
    + exists W. intros m. cbn [settled]. rewrite Hr. apply HW.
    + exists (WriteFile path (String.substring 0 k data) true :: W). intros m.
      cbn [settled]. rewrite Hr. apply HW.
    + exists W. intros m. cbn [settled]. rewrite Hr. apply HW.
Qed.

Lemma file_outcome_ext (E : env) (d d' : disk) (n : nat) (p : string) :
  same_ground E d d' -> file_outcome E d' n p = file_outcome E d n p.
Proof.
  intros Hg. unfold file_outcome, outputPath.
  by rewrite (write_refusal_ground E d d' n _ Hg (basename_no_slash p)).
Qed.

Lemma loop_outcome_ext (E : env) (d d' : disk) (l : list string) :
  same_ground E d d' -> forall n, loop_outcome E d' n l = loop_outcome E d n l.
Proof.
  intros Hg. induction l as [|p rest IH]; intros n; [done|]. cbn [loop_outcome].
  by rewrite (file_outcome_ext E d d' n p Hg), IH.
Qed.

Lemma settled_ext (E : env) (d d' : disk) (l : list string) :
  same_ground E d d' ->
  forall n m, settled E d' n (fst (loop_outcome E d n l)) m
              = settled E d n (fst (loop_outcome E d n l)) m.
Proof.
  intros Hg. induction l as [|p rest IH]; intros n m; [done|]. cbn [loop_outcome].
  assert (Hp : forall m, settled E d' n (fst (file_outcome E d n p)) m
                         = settled E d n (fst (file_outcome E d n p)) m).
  { intros m0. unfold file_outcome, outputPath.
    destruct (file_content E p) as [content|e]; [|done].
    destruct (svgo_optimize E content _) as [data|e]; [|done].
    destruct (write_refusal E d n _) as [r|] eqn:Hr; [|done].
    cbn [fst settled].
    by rewrite (write_refusal_ground E d d' n _ Hg (basename_no_slash p)). }
  pose proof (file_outcome_attempts E d n p) as Ha.
  destruct (file_outcome E d n p) as [evs [data|e]]; cbn [fst snd] in *; [|apply Hp].
  by rewrite !settled_app, Hp, Ha, Nat.add_1_r, IH.
Qed.

(** From discovery on, a run treats the disks of one ground alike: the
    same writes, the same status, and the ground stays. *)
Lemma discovered_frame (E : env) (d : disk) :
  exists (W : list event) (c : Z), forall (d' : disk) (tr : list event),
    attempts tr = 0%nat ->
    same_ground E d d' ->
    after (discovered E d' tr) = mkDisk (dirs d') (written W (files d'))
    /\ code (discovered E d' tr) = c
    /\ same_ground E d (after (discovered E d' tr)).
Proof.
  unfold discovered.
  destruct (getSvgFiles E (RAW_DIR E) (raw_listing E)) as [l|e].
  2:{ exists [], 1%Z. intros [ds fl] tr _ Hg. done. }
  destruct (settled_as_written E d (fst (loop_outcome E d 0 l)) 0) as [W HW].
  assert (Hloop : forall d', same_ground E d d' ->
            same_ground E d (mkDisk (dirs d') (written W (files d')))).
  { intros [ds fl] Hg. rewrite <- HW. cbn [dirs files].
    destruct Hg as [Hds Hfl]. cbn [dirs] in Hds. subst ds. split; [done|].
    intros a Ha. rewrite <- (Hfl a Ha).
    pose proof (loop_ground E (mkDisk (dirs d) fl) (dirs d) l 0 fl (same_ground_refl _ _))
      as [_ Hk].
    rewrite (loop_outcome_ext E d (mkDisk (dirs d) fl)) in Hk by (by split).
    rewrite (settled_ext E d (mkDisk (dirs d) fl)) in Hk by (by split).
    by apply Hk. }
  destruct (snd (loop_outcome E d 0 l)) as [[]|e] eqn:Hs.
  2:{ exists W, 1%Z. intros d' tr Htr Hg. rewrite Htr.
      rewrite (loop_outcome_ext E d d' l Hg), Hs, (settled_ext E d d' l Hg), HW.
      unfold failed. cbn [after code]. by auto. }
  destruct (write_refusal E d (0 + List.length l) (manifestPath E)) as [[e|e n]|] eqn:Hr.
  - exists W, 1%Z. intros d' tr Htr Hg. rewrite Htr.
    rewrite (loop_outcome_ext E d d' l Hg), Hs, (settled_ext E d d' l Hg), HW.
    rewrite <- (manifest_refusal_ground E d d' _ Hg) in Hr. unfold manifestPath. rewrite Hr.
    unfold failed. cbn [after code leftover]. by auto.
  - exists (W ++ [WriteFile (manifestPath E) (String.substring 0 n (manifest l)) true])%list,
      1%Z.
    intros d' tr Htr Hg. rewrite Htr.
    rewrite (loop_outcome_ext E d d' l Hg), Hs, (settled_ext E d d' l Hg), HW.
    rewrite <- (manifest_refusal_ground E d d' _ Hg) in Hr. unfold manifestPath. rewrite Hr.
    unfold failed. cbn [after code leftover]. rewrite written_app. cbn [written].
    split; [done|]. split; [done|].
    apply (same_ground_insert E d (dirs d') (written W (files d')) "manifest.json").
    by apply Hloop.
  - exists (W ++ [WriteFile (manifestPath E) (manifest l) true])%list, 0%Z.
    intros d' tr Htr Hg. rewrite Htr.
    rewrite (loop_outcome_ext E d d' l Hg), Hs, (settled_ext E d d' l Hg), HW.
    rewrite <- (manifest_refusal_ground E d d' _ Hg) in Hr. unfold manifestPath. rewrite Hr.
    cbn [after code dirs files]. rewrite written_app. cbn [written].
    split; [done|]. split; [done|].
    apply (same_ground_insert E d (dirs d') (written W (files d')) "manifest.json").
    by apply Hloop.
Qed.

Lemma probe_ground (E : env) (d d' : disk) :
  same_ground E d d' -> probe E d' = probe E d.
Proof.
  intros [Hdirs Hfiles]. unfold probe, present.
  by rewrite Hdirs, (Hfiles (OPTIMIZED_DIR E)) by (by left).
Qed.

Lemma mkdir_refusal_ground (E : env) (d d' : disk) :
  (forall a, In a (OPTIMIZED_DIR E :: ancestors (OPTIMIZED_DIR E)) ->
             is_file d' a = is_file d a) ->
  mkdir_refusal E d' (OPTIMIZED_DIR E) = mkdir_refusal E d (OPTIMIZED_DIR E).
Proof.
  intros Hfiles. unfold mkdir_refusal, mkdir_obstacle.
  rewrite (Hfiles (OPTIMIZED_DIR E)) by (by left).
  rewrite (existsb_ext_in (is_file d') (is_file d)); [done|].
  intros a Ha. apply Hfiles. by right.
Qed.

(** C9: with the environment unchanged (same tree, same contents, same
    engine), a second run on the disk the first run left ends with the
    same disk, file for file, and the same status. *)
Theorem rerun_idempotent (E : env) (d : disk) :
  after (run E (after (run E d))) = after (run E d)
  /\ code (run E (after (run E d))) = code (run E d).
Proof.
  rewrite !run_stages. destruct (probe E d) eqn:Hprobe.
  - assert (Hs : stages E d = discovered E d [Access (OPTIMIZED_DIR E) true]).
    { unfold stages. by rewrite Hprobe. }
    rewrite Hs. destruct (discovered_frame E d) as (W & c & HW).
    destruct (HW d [Access (OPTIMIZED_DIR E) true] eq_refl (same_ground_refl E d))
      as (Haft & Hc & Hg).
    unfold stages. rewrite (probe_ground E d _ Hg), Hprobe.
    destruct (HW _ [Access (OPTIMIZED_DIR E) true] eq_refl Hg) as (Haft2 & Hc2 & _).
    rewrite Haft2, Hc2, Hc. split; [|done].
    rewrite Haft. cbn [dirs files]. by rewrite written_idem.
  - destruct (mkdir_refusal E d (OPTIMIZED_DIR E)) as [e|] eqn:Hmk.
    + assert (Hs : stages E d
                   = failed d [Access (OPTIMIZED_DIR E) false;
                               Mkdir (OPTIMIZED_DIR E) false] e).
      { unfold stages. by rewrite Hprobe, Hmk. }
      rewrite Hs. unfold failed. cbn [after code]. rewrite Hs. by unfold failed.
    + set (g := mkDisk (made (OPTIMIZED_DIR E) ∪ dirs d) (files d)).
      set (ens := [Access (OPTIMIZED_DIR E) false; Mkdir (OPTIMIZED_DIR E) true]).
      assert (Hs : stages E d = discovered E g ens).
      { unfold stages. by rewrite Hprobe, Hmk. }
      rewrite Hs. destruct (discovered_frame E g) as (W & c & HW).
      destruct (HW g ens eq_refl (same_ground_refl E g)) as (Haft & Hc & Hg).
      unfold stages. destruct (probe E (after (discovered E g ens))).
      * destruct (HW _ [Access (OPTIMIZED_DIR E) true] eq_refl Hg) as (Haft2 & Hc2 & _).
        rewrite Haft2, Hc2, Hc. split; [|done].
        rewrite Haft. cbn [dirs files]. by rewrite written_idem.
      * assert (Hmk2 : mkdir_refusal E (after (discovered E g ens)) (OPTIMIZED_DIR E) = None).
        { rewrite <- Hmk. apply mkdir_refusal_ground. intros a Ha.
          destruct Hg as [_ Hfl]. by rewrite (Hfl a Ha). }
        rewrite Hmk2.
        assert (Hg2 : same_ground E g
                  (mkDisk (made (OPTIMIZED_DIR E) ∪ dirs (after (discovered E g ens)))
                     (files (after (discovered E g ens))))).
        { destruct Hg as [Hds Hfl]. split; [|exact Hfl]. cbn [dirs]. rewrite Hds.
          unfold g. cbn [dirs]. by rewrite (assoc_L (∪)), (idemp_L (∪)). }
        destruct (HW _ ens eq_refl Hg2) as (Haft2 & Hc2 & _).
        fold ens. rewrite Haft2, Hc2, Hc. split; [|done].
        rewrite Haft. cbn [dirs files]. rewrite written_idem. f_equal.
        unfold g. cbn [dirs]. by rewrite (assoc_L (∪)), (idemp_L (∪)).
Qed.

(** ** The order of a run *)

Lemma probe_false (E : env) (d : disk) :
  ((OPTIMIZED_DIR E ∉ dirs d) /\ files d !! OPTIMIZED_DIR E = None)
  \/ is_Some (access_fault E) <->
  probe E d = false.
Proof.
  unfold probe, present, is_file. split.
  - intros [[Hout Hnone]|[e He]].
    + rewrite bool_decide_eq_false_2 by done.
      rewrite bool_decide_eq_false_2; [done|]. rewrite Hnone. by intros [? ?].
    + rewrite He. apply andb_false_r.
  - intros H. apply andb_false_iff in H as [H|H].
    + left. apply orb_false_iff in H as [H1 H2].
      apply bool_decide_eq_false in H1, H2. split; [done|].
      destruct (files d !! OPTIMIZED_DIR E) eqn:Hf; [|done]. destruct H2. eauto.
    + right. destruct (access_fault E); [eauto|done].
Qed.

(** C10: [ensureDir] comes first.  A probe that fails for any reason
    (nothing at [optimized], or something there and the probe denied) is
    followed by the recursive mkdir; a probe that succeeds, on a directory
    or on a regular file, is followed by no mkdir and the directories stay
    as they are.  Discovery, when it happens, comes right after a
    successful [ensureDir]; and when discovery fails the run ends with
    status 1, every file is as it was, no write is attempted, and the only
    possible change is what mkdir made: the destination directory, with
    the directories above it. *)
Theorem ensureDir_before_discovery (E : env) (d : disk) :
  ((((OPTIMIZED_DIR E ∉ dirs d) /\ files d !! OPTIMIZED_DIR E = None)
    \/ is_Some (access_fault E)) ->
     exists ok rest,
       trace (run E d)
       = Access (OPTIMIZED_DIR E) false :: Mkdir (OPTIMIZED_DIR E) ok :: rest)
  /\ ((OPTIMIZED_DIR E ∈ dirs d \/ is_Some (files d !! OPTIMIZED_DIR E)) ->
      access_fault E = None ->
      (exists rest, trace (run E d) = Access (OPTIMIZED_DIR E) true :: rest)
      /\ (forall dir ok, ~ In (Mkdir dir ok) (trace (run E d)))
      /\ dirs (after (run E d)) = dirs d)
  /\ (forall root ok, In (Walk root ok) (trace (run E d)) ->
        exists ens b rest,
          trace (run E d) = (ens ++ Walk (RAW_DIR E) b :: rest)%list
          /\ (ens = [Access (OPTIMIZED_DIR E) true]
              \/ ens = [Access (OPTIMIZED_DIR E) false; Mkdir (OPTIMIZED_DIR E) true]))
  /\ (forall e, getSvgFiles E (RAW_DIR E) (raw_listing E) = Throw e ->
        code (run E d) = 1%Z
        /\ files (after (run E d)) = files d
        /\ (dirs (after (run E d)) = dirs d
            \/ dirs (after (run E d)) = made (OPTIMIZED_DIR E) ∪ dirs d)
        /\ forall path data ok, ~ In (WriteFile path data ok) (trace (run E d))).
Proof.
  assert (Hshape : forall d1 ens, exists b rest,
             trace (discovered E d1 ens) = (ens ++ Walk (RAW_DIR E) b :: rest)%list
             /\ dirs (after (discovered E d1 ens)) = dirs d1
             /\ forall dir ok, In (Mkdir dir ok) rest -> False).
  { intros d1 ens. unfold discovered.
    destruct (getSvgFiles _ _ _) as [l|e] eqn:Hl.
    2:{ unfold failed. cbn. rewrite <- app_assoc. cbn. eexists _, _. split; [done|].
        split; [done|]. intros dir ok H. cbn in H. intuition discriminate. }
    assert (Hloop : forall dir ok, In (Mkdir dir ok) (fst (loop_outcome E d1 (attempts ens) l)) -> False).
    { intros dir ok H. pose proof (getSvgFiles_is_svg _ _ _ _ Hl) as Hsvg.
      destruct (snd (loop_outcome E d1 (attempts ens) l)) as [[]|e] eqn:Hs.
      - rewrite (loop_ok E d1 _ l Hs) in H. apply in_flat_map in H as (p & _ & H).
        cbn in H. intuition discriminate.
      - destruct (loop_throw E d1 _ l e Hs) as (dn & p & rs & pre & ev & -> & Hevs & Hp & Hp').
        apply Forall_app in Hsvg as [_ Hp2]. apply Forall_cons in Hp2 as [Hp2 _].
        destruct (turn_throw E d1 _ p e Hp2 Hp) as (pre' & ev' & Hpe & Hfatal & _ & _ & Hpre).
        rewrite Hp' in Hpe. apply app_inj_tail in Hpe as [<- <-].
        rewrite Hevs in H. apply in_app_or in H as [H|H].
        + apply in_flat_map in H as (q & _ & H). cbn in H. intuition discriminate.
        + rewrite <- Hp' in H. revert H. unfold file_outcome.
          destruct (file_content E p) as [content|e1]; [|cbn; intuition discriminate].
          destruct (svgo_optimize E content _) as [x|e1]; [|cbn; intuition discriminate].
          destruct (write_refusal E d1 _ _); cbn; intuition discriminate. }
    destruct (snd (loop_outcome E d1 (attempts ens) l)).
    2:{ unfold failed. cbn [trace after dirs]. rewrite <- !app_assoc. cbn [app].
        eexists _, _. split; [done|]. split; [done|]. intros dir ok H.
        cbn [In] in H. destruct H as [H|H]; [done|].
        apply in_app_or in H as [H|H]; [by apply Hloop in H|].
        cbn in H. intuition discriminate. }
    destruct (write_refusal E d1 _ _); unfold failed; cbn [trace after dirs];
      rewrite <- !app_assoc; cbn [app]; (eexists _, _; split; [done|]; split; [done|]);
      intros dir ok H; cbn [In] in H; (destruct H as [H|H]; [done|]);
      (apply in_app_or in H as [H|H]; [by apply Hloop in H|]);
      cbn in H; intuition discriminate. }
  rewrite run_stages. unfold stages. split; [|split; [|split]].
  - intros Hp. apply probe_false in Hp. rewrite Hp.
    destruct (mkdir_refusal E d _) as [e|]; [unfold failed; cbn; eauto|].
    destruct (Hshape (mkDisk (made (OPTIMIZED_DIR E) ∪ dirs d) (files d))
                [Access (OPTIMIZED_DIR E) false; Mkdir (OPTIMIZED_DIR E) true])
      as (b & rest & -> & _). cbn. eauto.
  - intros Hthere Hfault.
    assert (Hp : probe E d = true).
    { destruct (probe E d) eqn:Hp; [done|]. apply probe_false in Hp.
      destruct Hp as [[Hout Hnone]|[e He]]; [|congruence].
      destruct Hthere as [Hin|[x Hx]]; [done|congruence]. }
    rewrite Hp. destruct (Hshape d [Access (OPTIMIZED_DIR E) true])
      as (b & rest & -> & Hdirs & Hmk).
    split; [cbn; eauto|]. split; [|done].
    intros dir ok H. cbn in H. destruct H as [H|[H|H]]; [done..|]. by apply Hmk in H.
  - intros root ok Hin.
    destruct (probe E d).
    + destruct (Hshape d [Access (OPTIMIZED_DIR E) true]) as (b & rest & -> & _). eauto 10.
    + destruct (mkdir_refusal E d _) as [e|].
      * unfold failed in Hin. cbn in Hin. intuition discriminate.
      * destruct (Hshape (mkDisk (made (OPTIMIZED_DIR E) ∪ dirs d) (files d))
                    [Access (OPTIMIZED_DIR E) false; Mkdir (OPTIMIZED_DIR E) true])
          as (b & rest & -> & _).
        eauto 10.
  - intros e He. unfold discovered. rewrite He.
    destruct (probe E d); [|destruct (mkdir_refusal E d _)]; unfold failed;
      cbn [code after trace files dirs].
    all: split; [done|]; split; [done|]; split; [by auto|].
    all: intros path data ok H; cbn in H; intuition discriminate.
Qed.

Lemma ensureDir_before_discovery_witness :
  (exists ok rest,
     trace (run Sample.denied Sample.used_disk)
     = Access (OPTIMIZED_DIR Sample.denied) false
       :: Mkdir (OPTIMIZED_DIR Sample.denied) ok :: rest)
  /\ ((exists rest,
         trace (run Sample.icons Sample.file_disk)
         = Access (OPTIMIZED_DIR Sample.icons) true :: rest)
      /\ (forall dir ok, ~ In (Mkdir dir ok) (trace (run Sample.icons Sample.file_disk)))
      /\ dirs (after (run Sample.icons Sample.file_disk)) = dirs Sample.file_disk)
  /\ files (after (run Sample.denied Sample.used_disk)) = files Sample.used_disk.
Proof.
  destruct (ensureDir_before_discovery Sample.denied Sample.used_disk) as (H1 & _ & _ & H4).
  destruct (ensureDir_before_discovery Sample.icons Sample.file_disk) as (_ & H2 & _).
  split; [|split].
  - apply H1. right. by eexists.
  - apply H2; [right; by eexists|reflexivity].
  - by destruct (H4 "ENOENT" eq_refl) as (_ & Hf & _).
Defined.

(** C6, as the code has it: a run that succeeds is, in this order, the
    probe (and mkdir) of [ensureDir], discovery, the line with the count
    found, for each file in discovery order its read, engine call, write
    and confirmation line, the summary line with the count, the write of
    the manifest, and the line naming the manifest; a run that fails ends
    with status 1 right after its first failed call, with the error line
    and the exit, and no call before it failed. *)
Theorem run_sequence (E : env) (d : disk) :
  (code (run E d) = 0%Z
   /\ exists ens l,
        (ens = [Access (OPTIMIZED_DIR E) true]
         \/ ens = [Access (OPTIMIZED_DIR E) false; Mkdir (OPTIMIZED_DIR E) true])
        /\ getSvgFiles E (RAW_DIR E) (raw_listing E) = Ok l
        /\ trace (run E d)
           = (ens
              ++ [Walk (RAW_DIR E) true]
              ++ [ConsoleLog (found_line (List.length l))]
              ++ flat_map (fun p => turn E p (artifact E p)) l
              ++ [ConsoleLog (complete_line (List.length l))]
              ++ [WriteFile (manifestPath E) (manifest l) true]
              ++ [ConsoleLog (created_line E)])%list)
  \/ (code (run E d) = 1%Z
      /\ exists pre ev e,
           trace (run E d) = (pre ++ [ev; ConsoleError error_label e; Exit 1])%list
           /\ is_fatal ev = true
           /\ Forall (fun x => is_fatal x = false /\ is_report x = false) pre).
Proof.
  destruct (Z.eq_dec (code (run E d)) 0%Z) as [H0|H1].
  - left. split; [done|].
    destruct (run_done E d H0) as (ens & l & Hens & Hl & Htr & _).
    exists ens, l. split; [tauto|]. split; [done|]. by rewrite Htr.
  - right. destruct (run_failed E d H1) as (Hc & pre & ev & e & Htr & Hev & _ & Hpre & _).
    split; [done|]. exists pre, ev, e. repeat split; try done.
    revert Hpre. apply List.Forall_impl. intros x Hx.
    by apply quiet_inv in Hx as (? & ? & _).
Qed.

Lemma summary_precedes_manifest :
  trace (run Sample.icons Sample.empty_disk) !! 12%nat
  = Some (ConsoleLog (complete_line 2))
  /\ trace (run Sample.icons Sample.empty_disk) !! 13%nat
     = Some (WriteFile (manifestPath Sample.icons)
               (manifest ["/repo/raw/lock.svg"; "/repo/raw/nav/ARROW.SVG"]) true)
  /\ ~ Spec.summary_after_manifest Sample.icons (trace (run Sample.icons Sample.empty_disk)).
Proof.
  assert (H12 : trace (run Sample.icons Sample.empty_disk) !! 12%nat
                = Some (ConsoleLog (complete_line 2))) by (vm_compute; reflexivity).
  assert (H13 : trace (run Sample.icons Sample.empty_disk) !! 13%nat
                = Some (WriteFile (manifestPath Sample.icons)
                          (manifest ["/repo/raw/lock.svg"; "/repo/raw/nav/ARROW.SVG"]) true))
    by (vm_compute; reflexivity).
  repeat split; [done..|].
  intros H. specialize (H _ _ _ _ _ H12 H13). lia.
Qed.

(** ** Discovery *)

Lemma dirent_nested_ind (P : dirent -> Prop) :
  (forall n, P (File n)) ->
  (forall n e, P (Directory n (Throw e))) ->
  (forall n entries, Forall P entries -> P (Directory n (Ok entries))) ->
  forall entry, P entry.
Proof.
  intros HF HT HD. fix IH 1. intros [n|n [entries|e]].
  - apply HF.
  - apply HD. induction entries as [|a entries IHe]; constructor; [apply IH|exact IHe].
  - apply HT.
Qed.

Lemma has_svg_extension_tail (n : string) :
  Spec.has_svg_extension n = svg_tail (rev (chars n)).
Proof.
  unfold Spec.has_svg_extension.
  assert (Hs : chars n = rev (rev (chars n))) by (by rewrite rev_involutive).
  assert (Hn : String.length n = List.length (rev (chars n))).
  { by rewrite chars_length, length_rev. }
  rewrite Hn.
  destruct (rev (chars n)) as [|c4 [|c3 [|c2 [|c1 r]]]]; try reflexivity.
  cbn [rev] in Hs. rewrite <- !app_assoc in Hs. cbn [app] in Hs.
  cbn [List.length].
  replace (4 <=? S (S (S (S (List.length r)))))%nat with true
    by (symmetry; apply Nat.leb_le; lia).
  replace (S (S (S (S (List.length r)))) - 4)%nat with (List.length (rev r))
    by (rewrite length_rev; lia).
  cbn [andb].
  assert (Hx : String.substring (List.length (rev r)) 4 n
               = string_of_list_ascii [c1; c2; c3; c4]).
  { apply chars_inj.
    rewrite chars_substring, list_ascii_of_string_of_list_ascii, Hs.
    by rewrite drop_app_length. }
  rewrite Hx. cbn [string_of_list_ascii JS.toLowerCase String.eqb svg_tail].
  destruct (Ascii.eqb (JS.lower_ascii c1) "."); cbn [andb]; [|reflexivity].
  destruct (Ascii.eqb (JS.lower_ascii c2) "s"); cbn [andb]; [|reflexivity].
  destruct (Ascii.eqb (JS.lower_ascii c3) "v"); cbn [andb]; [|reflexivity].
  destruct (Ascii.eqb (JS.lower_ascii c4) "g"); reflexivity.
Qed.

Lemma has_svg_extension_resolve (dir n : string) :
  is_svg (JS.resolve dir n) = Spec.has_svg_extension n.
Proof.
  unfold JS.resolve. by rewrite is_svg_join, is_svg_tail, has_svg_extension_tail.
Qed.

Lemma filter_idem {A} (f : A -> bool) (l : list A) :
  List.filter f (List.filter f l) = List.filter f l.
Proof.
  induction l as [|x l IH]; [done|]. cbn. destruct (f x) eqn:Hx; [|done].
  cbn. by rewrite Hx, IH.
Qed.

Lemma Promise_all_walk (E : env) (res : string) (entries : list dirent) :
  Forall (fun entry => forall dir,
            match entry_files E dir entry with
            | Ok l => Spec.readable_entry entry = true
                      /\ Readdir.within_entry (max_arguments E) entry = true
                      /\ List.filter is_svg l = Spec.walk dir entry
            | Throw _ => Spec.readable_entry entry = false
                         \/ Readdir.within_entry (max_arguments E) entry = false
            end) entries ->
  match Promise_all (List.map (entry_files E res) entries) with
  | Ok ls => forallb Spec.readable_entry entries = true
             /\ forallb (Readdir.within_entry (max_arguments E)) entries = true
             /\ List.length ls = List.length entries
             /\ List.filter is_svg (List.concat ls) = flat_map (Spec.walk res) entries
  | Throw _ => forallb Spec.readable_entry entries = false
               \/ forallb (Readdir.within_entry (max_arguments E)) entries = false
  end.
Proof.
  induction 1 as [|a entries Ha _ IH]; [done|].
  cbn [List.map Promise_all forallb flat_map]. specialize (Ha res).
  destruct (entry_files E res a) as [la|e].
  2:{ destruct Ha as [-> | ->]; [by left|by right]. }
  destruct Ha as (-> & -> & Hla).
  destruct (Promise_all (List.map (entry_files E res) entries)) as [lr|e]; [|done].
  destruct IH as (-> & -> & Hlen & Hlr). repeat split; try done.
  - cbn. by rewrite Hlen.
  - cbn [List.concat]. by rewrite List.filter_app, Hla, Hlr.
Qed.

Lemma entry_files_walk (E : env) (entry : dirent) (dir : string) :
  match entry_files E dir entry with
  | Ok l => Spec.readable_entry entry = true
            /\ Readdir.within_entry (max_arguments E) entry = true
            /\ List.filter is_svg l = Spec.walk dir entry
  | Throw _ => Spec.readable_entry entry = false
               \/ Readdir.within_entry (max_arguments E) entry = false
  end.
Proof.
  revert dir. induction entry as [n|n e|n entries IH] using dirent_nested_ind; intros dir.
  - cbn. rewrite has_svg_extension_resolve. by destruct (Spec.has_svg_extension n).
  - by left.
  - cbn [entry_files Spec.readable_entry Readdir.within_entry Spec.walk Fs.name].
    pose proof (Promise_all_walk E (JS.resolve dir n) entries IH) as H.
    destruct (Promise_all _) as [ls|e].
    2:{ destruct H as [-> | ->]; [by left|right; apply andb_false_r]. }
    destruct H as (-> & -> & Hlen & H). unfold concat_spread. rewrite Hlen.
    destruct (List.length entries <=? max_arguments E)%nat; [|by right].
    by rewrite filter_idem.
Qed.

Lemma getSvgFiles_discover (E : env) (dir : string) (listing : result (list dirent)) :
  match getSvgFiles E dir listing with
  | Ok l => Spec.readable listing = true
            /\ Readdir.within (max_arguments E) listing = true
            /\ l = Spec.discover dir listing
  | Throw _ => Spec.readable listing = false
               \/ Readdir.within (max_arguments E) listing = false
  end.
Proof.
  destruct listing as [entries|e]; [|by left].
  cbn [getSvgFiles Spec.readable Readdir.within Spec.discover].
  assert (IH : Forall (fun entry => forall dir,
            match entry_files E dir entry with
            | Ok l => Spec.readable_entry entry = true
                      /\ Readdir.within_entry (max_arguments E) entry = true
                      /\ List.filter is_svg l = Spec.walk dir entry
            | Throw _ => Spec.readable_entry entry = false
                         \/ Readdir.within_entry (max_arguments E) entry = false
            end) entries).
  { apply List.Forall_forall. intros entry _ dir'. apply entry_files_walk. }
  pose proof (Promise_all_walk E dir entries IH) as H.
  destruct (Promise_all _) as [ls|e].
  2:{ destruct H as [-> | ->]; [by left|right; apply andb_false_r]. }
  destruct H as (-> & -> & Hlen & H). unfold concat_spread. rewrite Hlen.
  destruct (List.length entries <=? max_arguments E)%nat; [done|by right].
Qed.

Lemma prefix_before {A} (P : A -> bool) (a pre post rest : list A) (x : A) :
  (pre ++ x :: post = a ++ rest)%list -> Forall (fun y => P y = false) a -> P x = true ->
  exists k, pre = (a ++ k)%list.
Proof.
  intros Heq Ha Hx. revert pre Heq. induction Ha as [|y a Hy _ IH]; intros pre Heq.
  - by exists pre.
  - destruct pre as [|z pre]; cbn in Heq.
    + injection Heq as -> _. congruence.
    + injection Heq as -> Heq. destruct (IH pre Heq) as [k ->]. by exists k.
Qed.

Lemma discovered_prefix (E : env) (d : disk) (tr : list event) (l : list string) :
  getSvgFiles E (RAW_DIR E) (raw_listing E) = Ok l ->
  exists rest,
    trace (discovered E d tr)
    = ((tr ++ [Walk (RAW_DIR E) true; ConsoleLog (found_line (List.length l))]) ++ rest)%list.
Proof.
  intros Hl. unfold discovered. rewrite Hl.
  destruct (snd (loop_outcome E d (attempts tr) l)) as [[]|e];
    [destruct (write_refusal E d _ (manifestPath E)) as [e|]|];
    unfold failed; cbn [trace]; eexists; rewrite <- ?app_assoc; cbn [app]; reflexivity.
Qed.

Lemma no_processing (tr pre post : list event) (ev : event) :
  Forall (fun y => is_processing y = false) tr ->
  tr = (pre ++ ev :: post)%list -> is_processing ev = true -> False.
Proof.
  intros Htr -> Hev. apply Forall_app in Htr as [_ Htr].
  apply Forall_cons in Htr as [Htr _]. congruence.
Qed.

Lemma discovered_processing (E : env) (d : disk) (ens pre post : list event) (ev : event) :
  Forall (fun y => is_processing y = false) ens ->
  trace (discovered E d ens) = (pre ++ ev :: post)%list -> is_processing ev = true ->
  exists l,
    getSvgFiles E (RAW_DIR E) (raw_listing E) = Ok l
    /\ In (Walk (RAW_DIR E) true) pre
    /\ In (ConsoleLog (found_line (List.length l))) pre.
Proof.
  intros Hens Htr Hev.
  destruct (getSvgFiles E (RAW_DIR E) (raw_listing E)) as [l|e] eqn:Hl.
  - exists l. split; [done|].
    destruct (discovered_prefix E d ens l Hl) as [rest Hrest]. rewrite Hrest in Htr.
    symmetry in Htr. apply (prefix_before is_processing) in Htr as [k ->]; [|..|done].
    + split; apply in_or_app; left; apply in_or_app; right; cbn; tauto.
    + apply Forall_app. split; [done|by repeat constructor].
  - exfalso. revert Htr Hev. unfold discovered. rewrite Hl. unfold failed. cbn [trace].
    apply no_processing. apply Forall_app. split; [|by repeat constructor].
    apply Forall_app. split; [done|by repeat constructor].
Qed.

Lemma processing_after_discovery (E : env) (d : disk) (pre post : list event) (ev : event) :
  trace (run E d) = (pre ++ ev :: post)%list -> is_processing ev = true ->
  exists l,
    getSvgFiles E (RAW_DIR E) (raw_listing E) = Ok l
    /\ In (Walk (RAW_DIR E) true) pre
    /\ In (ConsoleLog (found_line (List.length l))) pre.
Proof.
  rewrite run_stages. unfold stages.
  destruct (probe E d); [apply discovered_processing; by repeat constructor|].
  destruct (mkdir_refusal E d _) as [e|]; [|apply discovered_processing; by repeat constructor].
  intros Htr Hev. exfalso. revert Htr Hev. apply no_processing. by repeat constructor.
Qed.

(** X18: as long as no directory of the tree holds more entries than the
    engine takes as arguments of one call, [getSvgFiles] returns exactly
    when no listing of the tree fails, and then returns the depth-first
    enumeration: directories replaced in place by what is under them, a
    file kept if and only if its extension is [.svg] whatever the case,
    in traversal order; and in every run each call that processes a file
    comes after discovery has returned the whole list and its length was
    printed. *)
Theorem getSvgFiles_depth_first (E : env) (d : disk) (dir : string)
    (listing : result (list dirent)) :
  match getSvgFiles E dir listing with
  | Ok l => Spec.readable listing = true
            /\ Readdir.within (max_arguments E) listing = true
            /\ l = Spec.discover dir listing
  | Throw _ => Spec.readable listing = false
               \/ Readdir.within (max_arguments E) listing = false
  end
  /\ Spec.has_svg_extension "a.svg" = true /\ Spec.has_svg_extension "a.SVG" = true
  /\ Spec.has_svg_extension "a.Svg" = true /\ Spec.has_svg_extension "a.svg.txt" = false
  /\ (forall pre ev post,
        trace (run E d) = (pre ++ ev :: post)%list -> is_processing ev = true ->
        exists l,
          getSvgFiles E (RAW_DIR E) (raw_listing E) = Ok l
          /\ In (Walk (RAW_DIR E) true) pre
          /\ In (ConsoleLog (found_line (List.length l))) pre).
Proof.
  split; [apply getSvgFiles_discover|].
  repeat split; [done..|]. intros pre ev post. apply processing_after_discovery.
Qed.

Lemma getSvgFiles_depth_first_witness :
  getSvgFiles Sample.icons (RAW_DIR Sample.icons) (raw_listing Sample.icons)
  = Ok ["/repo/raw/lock.svg"; "/repo/raw/nav/ARROW.SVG"]
  /\ In (ConsoleLog (found_line 2))
        (firstn 4 (trace (run Sample.icons Sample.empty_disk))).
Proof.
  destruct (getSvgFiles_depth_first Sample.icons Sample.empty_disk
              (RAW_DIR Sample.icons) (raw_listing Sample.icons)) as (H1 & _ & _ & _ & _ & H3).
  split; [by vm_compute|].
  destruct (H3 (firstn 4 (trace (run Sample.icons Sample.empty_disk)))
               (ReadFile "/repo/raw/lock.svg" true)
               (skipn 5 (trace (run Sample.icons Sample.empty_disk))))
    as (l & Hl & _ & Hfound); [by vm_compute|done|].
  assert (l = ["/repo/raw/lock.svg"; "/repo/raw/nav/ARROW.SVG"]) as ->.
  { revert Hl. vm_compute. by intros [= <-]. }
  exact Hfound.
Defined.

(** With every listing readable, the only way discovery fails is the
    spread of a directory that holds too many entries. *)
Lemma Promise_all_error (E : env) (res : string) (entries : list dirent) (e : error) :
  Forall (fun entry => forall dir e,
            Spec.readable_entry entry = true ->
            entry_files E dir entry = Throw e -> e = "RangeError") entries ->
  forallb Spec.readable_entry entries = true ->
  Promise_all (List.map (entry_files E res) entries) = Throw e -> e = "RangeError".
Proof.
  induction 1 as [|a entries Ha _ IH]; [done|].
  cbn [List.map Promise_all forallb]. intros Hr. apply andb_prop in Hr as [Hra Hr].
  destruct (entry_files E res a) as [la|e'] eqn:Hres.
  - destruct (Promise_all (List.map (entry_files E res) entries)) as [lr|e'']; [done|].
    intros [= <-]. by apply IH.
  - intros [= <-]. by apply (Ha res).
Qed.

Lemma concat_spread_error (E : env) (files : list (list string)) (e : error) :
  concat_spread E files = Throw e -> e = "RangeError".
Proof.
  unfold concat_spread. destruct (_ <=? _)%nat; [done|]. by intros [= <-].
Qed.

Lemma entry_files_error (E : env) (entry : dirent) :
  forall dir e, Spec.readable_entry entry = true ->
                entry_files E dir entry = Throw e -> e = "RangeError".
Proof.
  induction entry as [n|n e0|n entries IH] using dirent_nested_ind; intros dir e Hr; [done..|].
  cbn [entry_files Spec.readable_entry Fs.name] in *.
  destruct (Promise_all _) as [ls|e'] eqn:Hall.
  - destruct (concat_spread E ls) as [all|e'] eqn:Hc; [done|].
    intros [= <-]. by apply (concat_spread_error E ls).
  - intros [= <-]. by apply (Promise_all_error E (JS.resolve dir n) entries).
Qed.

Lemma getSvgFiles_error (E : env) (dir : string) (listing : result (list dirent))
    (e : error) :
  Spec.readable listing = true -> getSvgFiles E dir listing = Throw e -> e = "RangeError".
Proof.
  destruct listing as [entries|e0]; [|done]. cbn [getSvgFiles Spec.readable]. intros Hr.
  destruct (Promise_all _) as [ls|e'] eqn:Hall.
  - destruct (concat_spread E ls) as [all|e'] eqn:Hc; [done|].
    intros [= <-]. by apply (concat_spread_error E ls).
  - intros [= <-]. apply (Promise_all_error E dir entries); [|done..].
    apply List.Forall_forall. intros entry _. apply entry_files_error.
Qed.

(** C7, the code at a tree where some directory holds more entries than
    the engine takes as arguments of one call: although every listing
    succeeds, [getSvgFiles] throws [RangeError] at the spread into
    [concat]; the run ends with status 1, reads, optimizes and writes no
    file, and leaves the files as they were. *)
Theorem crowded_directory_overflows (E : env) (d : disk) :
  Spec.readable (raw_listing E) = true ->
  Readdir.within (max_arguments E) (raw_listing E) = false ->
  getSvgFiles E (RAW_DIR E) (raw_listing E) = Throw "RangeError"
  /\ code (run E d) = 1%Z
  /\ files (after (run E d)) = files d
  /\ (forall ev, In ev (trace (run E d)) -> is_processing ev = false)
  /\ (In (Walk (RAW_DIR E) false) (trace (run E d)) ->
      In (ConsoleError error_label "RangeError") (trace (run E d))).
Proof.
  intros Hr Hw.
  assert (Hl : getSvgFiles E (RAW_DIR E) (raw_listing E) = Throw "RangeError").
  { pose proof (getSvgFiles_discover E (RAW_DIR E) (raw_listing E)) as H.
    destruct (getSvgFiles E (RAW_DIR E) (raw_listing E)) as [l|e] eqn:Hl.
    - destruct H as (_ & H & _). congruence.
    - by rewrite (getSvgFiles_error E _ _ e Hr Hl). }
  split; [done|].
  rewrite run_stages. unfold stages, discovered. rewrite Hl.
  destruct (probe E d); [|destruct (mkdir_refusal E d _)]; unfold failed;
    cbn [code after trace files app];
    (split; [done|split; [done|split]]);
    try (intros ev Hev; cbn [In] in Hev; destruct_or!; by subst);
    intros Hin; cbn [In] in *; destruct_or!; try done; tauto.
Qed.

Lemma crowded_directory_overflows_witness :
  Spec.discover (RAW_DIR Sample.crowded) (raw_listing Sample.crowded)
  = ["/repo/raw/a.svg"; "/repo/raw/b.svg"; "/repo/raw/c.svg"; "/repo/raw/d.svg";
     "/repo/raw/e.svg"]
  /\ max_arguments Sample.crowded = 4%nat
  /\ trace (run Sample.crowded Sample.used_disk)
     = [Access "/repo/optimized" true; Walk "/repo/raw" false;
        ConsoleError error_label "RangeError"; Exit 1]
  /\ getSvgFiles Sample.crowded (RAW_DIR Sample.crowded) (raw_listing Sample.crowded)
     = Throw "RangeError"
  /\ code (run Sample.crowded Sample.used_disk) = 1%Z
  /\ files (after (run Sample.crowded Sample.used_disk)) = files Sample.used_disk
  /\ (forall ev, In ev (trace (run Sample.crowded Sample.used_disk)) ->
        is_processing ev = false)
  /\ (In (Walk (RAW_DIR Sample.crowded) false) (trace (run Sample.crowded Sample.used_disk)) ->
      In (ConsoleError error_label "RangeError")
         (trace (run Sample.crowded Sample.used_disk))).
Proof.
  split; [reflexivity|]. split; [reflexivity|]. split; [reflexivity|].
  apply (crowded_directory_overflows Sample.crowded Sample.used_disk); reflexivity.
Defined.

(** ** The configuration *)

(** C1: whatever the environment, the content and the state, [optimizeSvg]
    hands the engine the configuration [config filename], a function of
    the file name alone: the file name as path, multipass on, and the five
    plugins in this order with these parameters. *)
Theorem optimizeSvg_config (E : env) (svgContent filename : string) (s : state) :
  exists ok,
    out (snd (optimizeSvg E svgContent filename s))
    = (out s ++ [Optimize (config filename) ok])%list
    /\ fst (optimizeSvg E svgContent filename s)
       = svgo_optimize E svgContent (config filename)
    /\ Svgo.path (config filename) = filename
    /\ Svgo.multipass (config filename) = true
    /\ Svgo.plugins (config filename)
       = [ Svgo.PluginParams "preset-default" (JS.VObject [("overrides", JS.VObject [])]);
           Svgo.PluginParams "prefixIds"
             (JS.VObject [("prefix", JS.VString (JS.basename_ext filename ".svg" ++ "-"))]);
           Svgo.PluginName "removeXMLNS";
           Svgo.PluginName "sortAttrs";
           Svgo.PluginParams "addAttributesToSVGElement"
             (JS.VObject [("attributes", JS.VArray
                [ JS.VObject [("aria-hidden", JS.VString "true")];
                  JS.VObject [("width", JS.VString "24")];
                  JS.VObject [("height", JS.VString "24")];
                  JS.VObject [("fill", JS.VString "currentColor")] ])]) ].
Proof.
  unfold optimizeSvg, settle.
  destruct (svgo_optimize E svgContent (config filename)) as [data|e];
    [exists true|exists false]; done.
Qed.

(** C2, the code at [raw/nav/ARROW.SVG]: the file passes the filter and is
    optimized; its stem is [ARROW], and the prefix handed to [prefixIds]
    is [ARROW.SVG-], the whole file name and a dash, where a lower-case
    [lock.svg] gets [lock-]. *)
Theorem prefix_keeps_uppercase_extension :
  getSvgFiles Sample.icons (RAW_DIR Sample.icons) (raw_listing Sample.icons)
  = Ok ["/repo/raw/lock.svg"; "/repo/raw/nav/ARROW.SVG"]
  /\ JS.basename "/repo/raw/nav/ARROW.SVG" = "ARROW.SVG"
  /\ Spec.stem "ARROW.SVG" = "ARROW"
  /\ prefixIds_prefix (config "ARROW.SVG") = Some "ARROW.SVG-"
  /\ Spec.stem "lock.svg" = "lock"
  /\ prefixIds_prefix (config "lock.svg") = Some "lock-"
  /\ In (Optimize (config "ARROW.SVG") true) (trace (run Sample.icons Sample.empty_disk)).
Proof. vm_compute. tauto. Qed.

(** C4, the code at a tree with [raw/nav/ARROW.SVG]: the run succeeds, the
    stems of the two files are [lock] and [ARROW], and the manifest lists
    [lock] and [ARROW.SVG], extension included. *)
Theorem manifest_keeps_uppercase_extension :
  getSvgFiles Sample.icons (RAW_DIR Sample.icons) (raw_listing Sample.icons)
  = Ok ["/repo/raw/lock.svg"; "/repo/raw/nav/ARROW.SVG"]
  /\ code (run Sample.icons Sample.empty_disk) = 0%Z
  /\ List.map (fun p => Spec.stem (JS.basename p))
       ["/repo/raw/lock.svg"; "/repo/raw/nav/ARROW.SVG"] = ["lock"; "ARROW"]
  /\ iconNames ["/repo/raw/lock.svg"; "/repo/raw/nav/ARROW.SVG"] = ["lock"; "ARROW.SVG"]
  /\ files (after (run Sample.icons Sample.empty_disk)) !! manifestPath Sample.icons
     = Some (JS.stringify
               (JS.VObject [("icons", JS.VArray [JS.VString "lock"; JS.VString "ARROW.SVG"])])
               2)
  /\ files (after (run Sample.icons Sample.empty_disk)) !! "/repo/optimized/ARROW.SVG"
     = Some "<svg/>".
Proof. vm_compute. tauto. Qed.

(** ** The scan of a name with a lower-case extension *)

Lemma suffix_loop_step (p suf : string) (n : nat) (st : JS.scan) (c : ascii) :
  chars p !! n = Some c -> Ascii.eqb c JS.CHAR_FORWARD_SLASH = false ->
  JS.basename_suffix_loop p suf (S n) st
  = JS.basename_suffix_loop p suf n (JS.suffix_unit suf (Z.of_nat n) (Some c) st).
Proof.
  intros Hc Hs. cbn [JS.basename_suffix_loop]. rewrite charCodeAt_chars, Hc.
  cbn [JS.is_slash]. by rewrite Hs.
Qed.

Lemma suffix_loop_idle (p suf : string) (k n : nat) (st : JS.scan) :
  (forall i, (n <= i < n + k)%nat -> JS.is_slash (chars p !! i) = false) ->
  JS.firstNonSlashEnd st <> (-1)%Z -> (JS.extIdx st < 0)%Z ->
  JS.basename_suffix_loop p suf (n + k) st = JS.basename_suffix_loop p suf n st.
Proof.
  intros Hp Hf He. induction k as [|k IH].
  - by rewrite Nat.add_0_r.
  - rewrite Nat.add_succ_r. cbn [JS.basename_suffix_loop].
    rewrite charCodeAt_chars, Hp by lia. unfold JS.suffix_unit.
    destruct (Z.eqb_spec (JS.firstNonSlashEnd st) (-1)) as [|_]; [done|].
    destruct (Z.leb_spec 0 (JS.extIdx st)) as [|_]; [lia|].
    apply IH. intros i Hi. apply Hp. lia.
Qed.

Lemma suffix_loop_svg (p : string) (m : nat) :
  chars p !! m = Some "."%char -> chars p !! S m = Some "s"%char ->
  chars p !! S (S m) = Some "v"%char -> chars p !! S (S (S m)) = Some "g"%char ->
  JS.basename_suffix_loop p ".svg" (S (S (S (S m)))) (JS.mkScan 0 (-1) true 3 (-1))
  = JS.basename_suffix_loop p ".svg" m
      (JS.mkScan 0 (Z.of_nat m) false (-1) (Z.of_nat (S (S (S m))) + 1)).
Proof.
  intros H0 H1 H2 H3.
  rewrite (suffix_loop_step p _ _ _ _ H3 eq_refl).
  rewrite (suffix_loop_step p _ _ _ _ H2 eq_refl).
  rewrite (suffix_loop_step p _ _ _ _ H1 eq_refl).
  rewrite (suffix_loop_step p _ _ _ _ H0 eq_refl).
  reflexivity.
Qed.

Lemma no_slash_units (X : string) (i : nat) (c : ascii) :
  Spec.no_slash X = true -> chars X !! i = Some c ->
  Ascii.eqb c JS.CHAR_FORWARD_SLASH = false.
Proof.
  unfold Spec.no_slash. rewrite forallb_forall. intros H Hc.
  apply negb_true_iff, H. apply list_elem_of_In. by eapply list_elem_of_lookup_2.
Qed.

(** The scan of a path that ends in a component [X.svg]. *)
Lemma suffix_loop_component (p front X : string) :
  p = front ++ X ++ ".svg" -> Spec.no_slash X = true ->
  (front = "" \/ exists pre, front = pre ++ "/") ->
  JS.basename_suffix_loop p ".svg" (String.length p) (JS.mkScan 0 (-1) true 3 (-1))
  = JS.mkScan (Z.of_nat (String.length front))
      (Z.of_nat (String.length front + String.length X)) false (-1)
      (Z.of_nat (String.length p)).
Proof.
  intros Hp HX Hfront.
  assert (Hcs : chars p = (chars front ++ chars X ++ chars ".svg")%list).
  { by rewrite Hp, !chars_app. }
  assert (Hlen : String.length p
                 = S (S (S (S (String.length front + String.length X))))).
  { rewrite !chars_length, Hcs, !length_app. cbn. lia. }
  assert (Hat : forall j, chars p !! (String.length front + String.length X + j)%nat
                          = chars ".svg" !! j).
  { intros j. rewrite Hcs, app_assoc, lookup_app_r;
      rewrite length_app, <- !chars_length; [|lia]. f_equal. lia. }
  rewrite Hlen.
  rewrite suffix_loop_svg.
  2:{ rewrite <- (Nat.add_0_r (_ + _)). apply Hat. }
  2:{ rewrite <- Nat.add_1_r. apply Hat. }
  2:{ replace (S (S (String.length front + String.length X)))
        with (String.length front + String.length X + 2)%nat by lia. apply Hat. }
  2:{ replace (S (S (S (String.length front + String.length X))))
        with (String.length front + String.length X + 3)%nat by lia. apply Hat. }
  rewrite suffix_loop_idle; [|..|done|done].
  2:{ intros i Hi. rewrite Hcs, lookup_app_r by (rewrite <- chars_length; lia).
      rewrite lookup_app_l by (rewrite <- !chars_length; lia).
      destruct (chars X !! _) as [c|] eqn:Hc; [|done].
      exact (no_slash_units X _ c HX Hc). }
  replace (Z.of_nat (S (S (S (String.length front + String.length X)))) + 1)%Z
    with (Z.of_nat (S (S (S (S (String.length front + String.length X)))))) by lia.
  destruct Hfront as [->|[pre ->]]; [done|].
  assert (Hpre : String.length (pre ++ "/") = S (String.length pre)).
  { rewrite !chars_length, chars_app, length_app. cbn. lia. }
  rewrite Hpre. cbn [JS.basename_suffix_loop].
  rewrite charCodeAt_chars, Hcs, chars_app, <- !app_assoc.
  rewrite lookup_app_r by (rewrite <- chars_length; lia).
  rewrite <- chars_length, Nat.sub_diag. cbn. f_equal. lia.
Qed.

Lemma basename_ext_component (front X : string) :
  Spec.no_slash X = true -> X <> "" ->
  (front = "" \/ exists pre, front = pre ++ "/") ->
  JS.basename_ext (front ++ X ++ ".svg") ".svg" = X.
Proof.
  intros HX Hne Hfront. unfold JS.basename_ext.
  set (p := front ++ X ++ ".svg").
  assert (Hcs : chars p = (chars front ++ chars X ++ chars ".svg")%list).
  { unfold p. by rewrite !chars_app. }
  assert (HX0 : (0 < String.length X)%nat) by (destruct X; [done|cbn; lia]).
  assert (Hlen : String.length p = (String.length front + String.length X + 4)%nat).
  { rewrite !chars_length, Hcs, !length_app. cbn. lia. }
  change (String.length ".svg") with 4%nat.
  replace (4 <=? String.length p)%nat with true by (symmetry; apply Nat.leb_le; lia).
  cbn [Nat.ltb Nat.leb andb].
  destruct (String.eqb_spec ".svg" p) as [Heq|_].
  { rewrite <- Heq in Hlen. cbn in Hlen. lia. }
  change (Z.of_nat 4 - 1)%Z with 3%Z.
  rewrite (suffix_loop_component p front X eq_refl HX Hfront).
  cbn [JS.start JS.end_ JS.firstNonSlashEnd].
  destruct (Z.eqb_spec (Z.of_nat (String.length front))
              (Z.of_nat (String.length front + String.length X))) as [|_]; [lia|].
  destruct (Z.eqb_spec (Z.of_nat (String.length front + String.length X)) (-1))
    as [|_]; [lia|].
  apply chars_inj. rewrite slice_chars by lia. rewrite Hcs.
  rewrite drop_app_length' by (by rewrite chars_length).
  replace (String.length front + String.length X - String.length front)%nat
    with (String.length X) by lia.
  by rewrite take_app_length' by (by rewrite chars_length).
Qed.

Lemma basename_ext_name (X : string) :
  Spec.no_slash X = true -> JS.basename_ext (X ++ ".svg") ".svg" = X.
Proof.
  intros HX. destruct (decide (X = "")) as [->|Hne]; [reflexivity|].
  apply (basename_ext_component "" X HX Hne). by left.
Qed.

Lemma basename_ext_path (pre X : string) :
  Spec.no_slash X = true -> X <> "" ->
  JS.basename_ext (pre ++ "/" ++ X ++ ".svg") ".svg" = X.
Proof.
  intros HX Hne.
  assert (Happ : pre ++ "/" ++ X ++ ".svg" = (pre ++ "/") ++ X ++ ".svg").
  { apply chars_inj. rewrite !chars_app. by rewrite <- !app_assoc. }
  rewrite Happ. apply basename_ext_component; eauto.
Qed.

Lemma basename_loop_idle (p : string) (k n : nat) (st : JS.scan) :
  (forall i, (n <= i < n + k)%nat -> JS.is_slash (chars p !! i) = false) ->
  JS.end_ st <> (-1)%Z ->
  JS.basename_loop p (n + k) st = JS.basename_loop p n st.
Proof.
  intros Hp He. induction k as [|k IH].
  - by rewrite Nat.add_0_r.
  - rewrite Nat.add_succ_r. cbn [JS.basename_loop].
    rewrite charCodeAt_chars, Hp by lia.
    destruct (Z.eqb_spec (JS.end_ st) (-1)) as [|_]; [done|].
    apply IH. intros i Hi. apply Hp. lia.
Qed.

Lemma basename_component (front name : string) :
  Spec.no_slash name = true -> name <> "" ->
  (front = "" \/ exists pre, front = pre ++ "/") ->
  JS.basename (front ++ name) = name.
Proof.
  intros HX Hne Hfront. unfold JS.basename.
  set (p := front ++ name).
  assert (Hcs : chars p = (chars front ++ chars name)%list).
  { unfold p. by rewrite !chars_app. }
  assert (Hunit : forall i, (String.length front <= i < String.length front + String.length name)%nat ->
                    JS.is_slash (chars p !! i) = false).
  { intros i Hi. rewrite Hcs, lookup_app_r by (rewrite <- chars_length; lia).
    destruct (chars name !! _) as [c|] eqn:Hc; [|done].
    exact (no_slash_units name _ c HX Hc). }
  destruct (String.length name) as [|x] eqn:Hx; [by destruct name|].
  assert (Hlen : String.length p = S (String.length front + x)).
  { rewrite !chars_length, Hcs, !length_app, <- !chars_length. lia. }
  rewrite Hlen. cbn [JS.basename_loop].
  rewrite charCodeAt_chars, Hunit by lia.
  change (JS.end_ (JS.mkScan 0 (-1) true (-1) (-1)) =? -1)%Z with true. cbv iota.
  cbn [JS.start JS.end_ JS.matchedSlash JS.extIdx JS.firstNonSlashEnd].
  rewrite basename_loop_idle; [|intros i Hi; apply Hunit; lia|cbn; lia].
  assert (Hslice : chars (JS.slice p (Z.of_nat (String.length front))
                            (Z.of_nat (String.length front + x) + 1)) = chars name).
  { replace (Z.of_nat (String.length front + x) + 1)%Z
      with (Z.of_nat (S (String.length front + x))) by lia.
    rewrite slice_chars by lia. rewrite Hcs.
    rewrite drop_app_length' by (by rewrite chars_length).
    apply take_ge. rewrite <- chars_length. lia. }
  destruct Hfront as [->|[pre ->]].
  - cbn [JS.basename_loop String.length JS.end_ JS.start] in *.
    destruct (Z.eqb_spec (Z.of_nat (0 + x) + 1) (-1)) as [|_]; [lia|].
    by apply chars_inj.
  - assert (Hpre : String.length (pre ++ "/") = S (String.length pre)).
    { rewrite !chars_length, chars_app, length_app. cbn. lia. }
    rewrite Hpre in *. cbn [JS.basename_loop].
    rewrite charCodeAt_chars, Hcs, chars_app, <- !app_assoc.
    rewrite lookup_app_r by (rewrite <- chars_length; lia).
    rewrite <- chars_length, Nat.sub_diag.
    change (JS.is_slash ((chars "/" ++ chars name)%list !! 0%nat)) with true.
    cbn [negb JS.matchedSlash JS.end_ JS.start JS.extIdx JS.firstNonSlashEnd].
    destruct (Z.eqb_spec (Z.of_nat (S (String.length pre) + x) + 1) (-1)) as [|_]; [lia|].
    apply chars_inj. rewrite <- Hslice. f_equal. f_equal. lia.
Qed.

Lemma basename_path (pre name : string) :
  Spec.no_slash name = true -> name <> "" -> JS.basename (pre ++ "/" ++ name) = name.
Proof.
  intros HX Hne.
  assert (Happ : pre ++ "/" ++ name = (pre ++ "/") ++ name).
  { apply chars_inj. rewrite !chars_app. by rewrite <- !app_assoc. }
  rewrite Happ. apply basename_component; eauto.
Qed.

(** ** What holds of lower-case names, empty trees and engine calls *)

(** X1: for a file named [X.svg], lower-case extension and no separator
    in [X], the prefix handed to [prefixIds] is [X-]. *)
Theorem prefix_of_lowercase_svg (X : string) :
  Spec.no_slash X = true ->
  prefixIds_prefix (config (X ++ ".svg")) = Some (X ++ "-").
Proof.
  intros HX. unfold prefixIds_prefix, config. cbn [Svgo.plugins List.find String.eqb].
  cbn. by rewrite basename_ext_name.
Qed.

Lemma prefix_of_lowercase_svg_witness :
  prefixIds_prefix (config ("arrow-right" ++ ".svg")) = Some ("arrow-right" ++ "-").
Proof. exact (prefix_of_lowercase_svg "arrow-right" eq_refl). Defined.

Lemma no_slash_svg (X : string) :
  Spec.no_slash X = true -> Spec.no_slash (X ++ ".svg") = true /\ X ++ ".svg" <> "".
Proof.
  intros HX. split.
  - unfold Spec.no_slash in *. by rewrite chars_app, forallb_app, HX.
  - intros H. apply (f_equal String.length) in H.
    rewrite !chars_length, chars_app, length_app in H. cbn in H. lia.
Qed.

Lemma iconNames_lookup (l : list string) (i : nat) (p : string) :
  l !! i = Some p -> iconNames l !! i = Some (JS.basename_ext p ".svg").
Proof. intros H. unfold iconNames. by rewrite list_lookup_fmap, H. Qed.

(** A file named [.svg] alone keeps its whole name. *)
Lemma basename_ext_dot_svg (pre : string) :
  JS.basename_ext (pre ++ "/" ++ ".svg") ".svg" = ".svg".
Proof.
  assert (Happ : pre ++ "/" ++ ".svg" = (pre ++ "/") ++ "" ++ ".svg").
  { apply chars_inj. rewrite !chars_app. by rewrite <- !app_assoc. }
  rewrite Happ. unfold JS.basename_ext.
  set (front := pre ++ "/"). set (p := front ++ "" ++ ".svg").
  assert (Hcs : chars p = (chars front ++ chars ".svg")%list).
  { unfold p. by rewrite !chars_app. }
  assert (Hfront : String.length front = S (String.length pre)).
  { unfold front. rewrite !chars_length, chars_app, length_app. cbn. lia. }
  assert (Hlen : String.length p = (String.length front + 4)%nat).
  { rewrite !chars_length, Hcs, !length_app. cbn. lia. }
  change (String.length ".svg") with 4%nat.
  replace (4 <=? String.length p)%nat with true by (symmetry; apply Nat.leb_le; lia).
  cbn [Nat.ltb Nat.leb andb].
  destruct (String.eqb_spec ".svg" p) as [Heq|_].
  { rewrite <- Heq in Hlen. cbn in Hlen. lia. }
  change (Z.of_nat 4 - 1)%Z with 3%Z.
  rewrite (suffix_loop_component p front "" eq_refl eq_refl)
    by (right; by exists pre).
  cbn [JS.start JS.end_ JS.firstNonSlashEnd String.length]. rewrite Nat.add_0_r.
  rewrite Z.eqb_refl.
  apply chars_inj. rewrite slice_chars by lia. rewrite Hcs.
  rewrite drop_app_length' by (by rewrite chars_length).
  apply take_ge. cbn. lia.
Qed.

(** X2: a run that succeeds leaves at the manifest path the JSON text,
    indented by two, of [icons] with one name per discovered file in
    discovery order.  For a file [X.svg] with [X] not empty and without
    separator the name is [X], and the run writes the optimized text of
    the file at [optimized/X.svg], whatever directory it was found in,
    where a file exists at the end.  A file named [.svg] and nothing
    before is listed under its whole name, [.svg]. *)
Theorem manifest_on_success (E : env) (d : disk) :
  code (run E d) = 0%Z ->
  exists l,
    getSvgFiles E (RAW_DIR E) (raw_listing E) = Ok l
    /\ l = Spec.discover (RAW_DIR E) (raw_listing E)
    /\ files (after (run E d)) !! manifestPath E
       = Some (JS.stringify
                 (JS.VObject [("icons", JS.VArray (List.map JS.VString (iconNames l)))]) 2)
    /\ List.length (iconNames l) = List.length l
    /\ (forall i p, l !! i = Some p ->
          iconNames l !! i = Some (JS.basename_ext p ".svg"))
    /\ (forall i pre X, l !! i = Some (pre ++ "/" ++ X ++ ".svg") ->
          Spec.no_slash X = true -> X <> "" ->
          iconNames l !! i = Some X
          /\ In (WriteFile (OPTIMIZED_DIR E ++ "/" ++ X ++ ".svg")
                   (artifact E (pre ++ "/" ++ X ++ ".svg")) true)
                (trace (run E d))
          /\ is_Some (files (after (run E d)) !! (OPTIMIZED_DIR E ++ "/" ++ X ++ ".svg")))
    /\ (forall i pre, l !! i = Some (pre ++ "/" ++ ".svg") ->
          iconNames l !! i = Some ".svg").
Proof.
  intros H0. destruct (run_done E d H0) as (ens & l & _ & Hl & Htr & Hfiles).
  exists l. split; [done|]. split.
  { pose proof (getSvgFiles_discover E (RAW_DIR E) (raw_listing E)) as H.
    rewrite Hl in H. tauto. }
  split; [by rewrite Hfiles, lookup_insert_eq|].
  split; [unfold iconNames; apply length_map|].
  split; [apply iconNames_lookup|]. split.
  - intros i pre X Hi HX Hne.
    split; [rewrite (iconNames_lookup l i _ Hi); f_equal; by apply basename_ext_path|].
    assert (Hout : outputPath E (pre ++ "/" ++ X ++ ".svg")
                   = OPTIMIZED_DIR E ++ "/" ++ X ++ ".svg").
    { unfold outputPath. destruct (no_slash_svg X HX) as [Hs Hn].
      rewrite basename_path by done. apply join_long, OPTIMIZED_DIR_long. }
    assert (Hp : In (pre ++ "/" ++ X ++ ".svg") l).
    { apply list_elem_of_In. by eapply list_elem_of_lookup_2. }
    pose proof (turn_write E l _ Hp) as Hw. rewrite Hout in Hw. split.
    + rewrite Htr. apply in_or_app. right. cbn [app In]. do 2 right.
      apply in_or_app. by left.
    + rewrite Hfiles, lookup_insert_ne.
      * eapply written_is_Some. exact Hw.
      * rewrite <- Hout. intros Heq. symmetry in Heq. revert Heq.
        apply outputPath_not_manifest.
        pose proof (getSvgFiles_is_svg _ _ _ _ Hl) as Hsvg.
        rewrite List.Forall_forall in Hsvg. by apply Hsvg.
  - intros i pre Hi. rewrite (iconNames_lookup l i _ Hi). f_equal.
    apply basename_ext_dot_svg.
Qed.

Lemma manifest_on_success_witness :
  exists l,
    getSvgFiles Sample.icons (RAW_DIR Sample.icons) (raw_listing Sample.icons) = Ok l
    /\ l = Spec.discover (RAW_DIR Sample.icons) (raw_listing Sample.icons)
    /\ files (after (run Sample.icons Sample.empty_disk)) !! manifestPath Sample.icons
       = Some (JS.stringify
                 (JS.VObject [("icons", JS.VArray (List.map JS.VString (iconNames l)))]) 2)
    /\ List.length (iconNames l) = List.length l
    /\ (forall i p, l !! i = Some p ->
          iconNames l !! i = Some (JS.basename_ext p ".svg"))
    /\ (forall i pre X, l !! i = Some (pre ++ "/" ++ X ++ ".svg") ->
          Spec.no_slash X = true -> X <> "" ->
          iconNames l !! i = Some X
          /\ In (WriteFile (OPTIMIZED_DIR Sample.icons ++ "/" ++ X ++ ".svg")
                   (artifact Sample.icons (pre ++ "/" ++ X ++ ".svg")) true)
                (trace (run Sample.icons Sample.empty_disk))
          /\ is_Some (files (after (run Sample.icons Sample.empty_disk))
                        !! (OPTIMIZED_DIR Sample.icons ++ "/" ++ X ++ ".svg")))
    /\ (forall i pre, l !! i = Some (pre ++ "/" ++ ".svg") ->
          iconNames l !! i = Some ".svg").
Proof.
  apply (manifest_on_success Sample.icons Sample.empty_disk). by vm_compute.
Defined.

(** X3: on an empty source tree a run that succeeds writes the manifest
    with an empty list and no other file, and reports a count of 0. *)
Theorem empty_tree_manifest (E : env) (d : disk) :
  raw_listing E = Ok [] -> code (run E d) = 0%Z ->
  files (after (run E d)) !! manifestPath E
  = Some ("{" ++ JS.LF ++ "  " ++ JS.QuoteJSONString "icons" ++ ": []" ++ JS.LF ++ "}")
  /\ (forall path data ok, In (WriteFile path data ok) (trace (run E d)) ->
        path = manifestPath E)
  /\ In (ConsoleLog (found_line 0)) (trace (run E d)).
Proof.
  intros Hraw H0. destruct (run_done E d H0) as (ens & l & Hens & Hl & Htr & Hfiles).
  unfold getSvgFiles in Hl. rewrite Hraw in Hl. cbn in Hl. injection Hl as <-.
  rewrite Hfiles, Htr, lookup_insert_eq. split; [done|]. split.
  - intros path data ok Hin. apply in_app_or in Hin as [Hin|Hin].
    + destruct Hens as [[-> _]|[-> _]]; cbn in Hin; intuition discriminate.
    + cbn in Hin. destruct Hin as [Hin|[Hin|[Hin|[Hin|[Hin|[]]]]]]; try discriminate.
      by injection Hin as <- _ _.
  - apply in_or_app. right. cbn. tauto.
Qed.

Lemma empty_tree_manifest_witness :
  files (after (run Sample.bare Sample.empty_disk)) !! manifestPath Sample.bare
  = Some ("{" ++ JS.LF ++ "  " ++ JS.QuoteJSONString "icons" ++ ": []" ++ JS.LF ++ "}")
  /\ (forall path data ok,
        In (WriteFile path data ok) (trace (run Sample.bare Sample.empty_disk)) ->
        path = manifestPath Sample.bare)
  /\ In (ConsoleLog (found_line 0)) (trace (run Sample.bare Sample.empty_disk)).
Proof.
  apply (empty_tree_manifest Sample.bare Sample.empty_disk); [reflexivity|by vm_compute].
Defined.

Lemma file_outcome_optimize (E : env) (d : disk) (n : nat) (p : string)
    (cfg : Svgo.Config) (ok : bool) :
  In (Optimize cfg ok) (fst (file_outcome E d n p)) -> cfg = config (JS.basename p).
Proof.
  unfold file_outcome.
  destruct (file_content E p) as [content|e]; [|cbn; intuition discriminate].
  destruct (svgo_optimize E content _) as [data|e]; [|cbn; intuition congruence].
  destruct (write_refusal E d n _); cbn; intuition congruence.
Qed.

Lemma loop_outcome_optimize (E : env) (d : disk) (n : nat) (l : list string)
    (cfg : Svgo.Config) (ok : bool) :
  In (Optimize cfg ok) (fst (loop_outcome E d n l)) ->
  exists p, In p l /\ cfg = config (JS.basename p).
Proof.
  revert n. induction l as [|p rest IH]; intros n; [done|]. cbn [loop_outcome].
  pose proof (file_outcome_optimize E d n p cfg ok) as Hp.
  destruct (file_outcome E d n p) as [evs [data|e]]; cbn [fst snd] in *.
  - intros Hin. apply in_app_or in Hin as [Hin|Hin].
    + exists p. split; [by left|auto].
    + destruct (IH _ Hin) as (q & Hq & ->). exists q. split; [by right|done].
  - intros Hin. exists p. split; [by left|auto].
Qed.

Lemma discovered_optimize (E : env) (d : disk) (tr : list event)
    (cfg : Svgo.Config) (ok : bool) :
  (forall c b, ~ In (Optimize c b) tr) ->
  In (Optimize cfg ok) (trace (discovered E d tr)) ->
  exists l p,
    getSvgFiles E (RAW_DIR E) (raw_listing E) = Ok l /\ In p l
    /\ cfg = config (JS.basename p).
Proof.
  intros Htr. unfold discovered.
  destruct (getSvgFiles E (RAW_DIR E) (raw_listing E)) as [l|e].
  2:{ unfold failed. cbn [trace]. intros Hin.
      repeat (apply in_app_or in Hin as [Hin|Hin]); [by apply Htr in Hin|..];
        cbn in Hin; intuition discriminate. }
  assert (Hloop : In (Optimize cfg ok) (fst (loop_outcome E d (attempts tr) l)) ->
                  exists l0 p, Ok l = Ok l0 /\ In p l0 /\ cfg = config (JS.basename p)).
  { intros Hin. destruct (loop_outcome_optimize E d _ l cfg ok Hin) as (p & Hp & ->). eauto. }
  destruct (snd (loop_outcome E d (attempts tr) l)) as [[]|e];
    [destruct (write_refusal E d _ (manifestPath E)) as [e|]|];
    unfold failed; cbn [trace]; intros Hin;
    repeat (apply in_app_or in Hin as [Hin|Hin]);
    try (by apply Htr in Hin); try (by apply Hloop);
    cbn in Hin; intuition discriminate.
Qed.

(** X4: every engine call of a run is made for a discovered file, with the
    configuration of its base name: multipass on, and as prefix the base
    name without a trailing lower-case [.svg], then a dash. *)
Theorem run_optimize_config (E : env) (d : disk) (cfg : Svgo.Config) (ok : bool) :
  In (Optimize cfg ok) (trace (run E d)) ->
  exists l p,
    getSvgFiles E (RAW_DIR E) (raw_listing E) = Ok l /\ In p l
    /\ cfg = config (JS.basename p)
    /\ Svgo.multipass cfg = true
    /\ prefixIds_prefix cfg = Some (JS.basename_ext (JS.basename p) ".svg" ++ "-").
Proof.
  rewrite run_stages. unfold stages. intros Hin.
  assert (exists l p, getSvgFiles E (RAW_DIR E) (raw_listing E) = Ok l /\ In p l
                      /\ cfg = config (JS.basename p)) as (l & p & Hl & Hp & ->).
  { destruct (probe E d).
    - eapply discovered_optimize; [|exact Hin]. cbn. intuition discriminate.
    - destruct (mkdir_refusal E d _) as [e|].
      + unfold failed in Hin. cbn in Hin. intuition discriminate.
      + eapply discovered_optimize; [|exact Hin]. cbn. intuition discriminate. }
  by exists l, p.
Qed.

Lemma run_optimize_config_witness :
  exists l p,
    getSvgFiles Sample.icons (RAW_DIR Sample.icons) (raw_listing Sample.icons) = Ok l /\ In p l
    /\ config "lock.svg" = config (JS.basename p)
    /\ Svgo.multipass (config "lock.svg") = true
    /\ prefixIds_prefix (config "lock.svg")
       = Some (JS.basename_ext (JS.basename p) ".svg" ++ "-").
Proof.
  apply (run_optimize_config Sample.icons Sample.empty_disk (config "lock.svg") true).
  vm_compute. tauto.
Defined.

(** ** The destination directory *)

Lemma present_spec (d : disk) (p : string) :
  present d p = true <-> p ∈ dirs d \/ is_Some (files d !! p).
Proof.
  unfold present, is_file. rewrite orb_true_iff, !bool_decide_eq_true. tauto.
Qed.

Lemma present_false (d : disk) (p : string) :
  present d p = false <-> (p ∉ dirs d) /\ files d !! p = None.
Proof.
  unfold present, is_file. rewrite orb_false_iff, !bool_decide_eq_false.
  rewrite <- eq_None_not_Some. tauto.
Qed.

Lemma is_file_false (d : disk) (p : string) : is_file d p = false <-> files d !! p = None.
Proof. unfold is_file. by rewrite bool_decide_eq_false, <- eq_None_not_Some. Qed.

Lemma is_file_true (d : disk) (p : string) : is_file d p = true <-> is_Some (files d !! p).
Proof. unfold is_file. by rewrite bool_decide_eq_true. Qed.

Lemma mkdir_refusal_None (E : env) (d : disk) (dir : string) :
  mkdir_refusal E d dir = None ->
  files d !! dir = None
  /\ (forall a, In a (ancestors dir) -> files d !! a = None)
  /\ mkdir_fault E = None.
Proof.
  unfold mkdir_refusal, mkdir_obstacle.
  destruct (is_file d dir) eqn:Hd; [done|].
  destruct (existsb (is_file d) (ancestors dir)) eqn:Ha; [done|]. intros Hf.
  split; [by apply is_file_false|]. split; [|done].
  intros a Hin. apply is_file_false.
  destruct (is_file d a) eqn:Hfa; [|done].
  assert (existsb (is_file d) (ancestors dir) = true) by (apply existsb_exists; eauto).
  congruence.
Qed.

Lemma mkdir_refusal_Some (E : env) (d : disk) (dir : string) (e : error) :
  mkdir_refusal E d dir = Some e ->
  is_Some (files d !! dir) /\ e = "EEXIST"
  \/ (exists a, In a (ancestors dir) /\ is_Some (files d !! a)) /\ e = "ENOTDIR"
  \/ mkdir_fault E = Some e.
Proof.
  unfold mkdir_refusal, mkdir_obstacle.
  destruct (is_file d dir) eqn:Hd.
  { intros [= <-]. left. split; [by apply is_file_true|done]. }
  destruct (existsb (is_file d) (ancestors dir)) eqn:Ha.
  { intros [= <-]. right. left. split; [|done].
    apply existsb_exists in Ha as (a & Hin & Hfa). exists a. split; [done|].
    by apply is_file_true. }
  intros Hf. by do 2 right.
Qed.

Lemma elem_of_made (dir a : string) (ds : gset string) :
  a ∈ made dir ∪ ds <-> a ∈ ds \/ a = dir \/ In a (ancestors dir).
Proof.
  unfold made. rewrite elem_of_union, elem_of_list_to_set, elem_of_cons, list_elem_of_In.
  tauto.
Qed.

(** X5: [ensureDir dir] from any state changes no file.  When it
    returns, either something was at [dir], a directory or a regular
    file, the probe passed and the disk is untouched; or the probe failed
    (nothing there, or the probe denied), no regular file stood at [dir]
    or above it, and the recursive mkdir left [dir] and every directory
    above it as directories, adding nothing else.  When it throws, the
    probe had failed and it is mkdir that failed, with [EEXIST] for a
    regular file at [dir], [ENOTDIR] for one above it, or a fault of its
    own, and the disk is untouched. *)
Theorem ensureDir_ensures (E : env) (dir : string) (s : state) :
  match ensureDir E dir s with
  | (Ok _, s') =>
      files (fs s') = files (fs s)
      /\ ((dir ∈ dirs (fs s) \/ is_Some (files (fs s) !! dir))
          /\ access_fault E = None
          /\ fs s' = fs s /\ out s' = (out s ++ [Access dir true])%list
          \/ ((dir ∉ dirs (fs s)) /\ files (fs s) !! dir = None \/ is_Some (access_fault E))
             /\ files (fs s) !! dir = None
             /\ (forall a, In a (ancestors dir) -> files (fs s) !! a = None)
             /\ dir ∈ dirs (fs s')
             /\ (forall a, In a (ancestors dir) -> a ∈ dirs (fs s'))
             /\ (forall a, a ∈ dirs (fs s')
                           <-> a ∈ dirs (fs s) \/ a = dir \/ In a (ancestors dir))
             /\ out s' = (out s ++ [Access dir false; Mkdir dir true])%list)
  | (Throw e, s') =>
      ((dir ∉ dirs (fs s)) /\ files (fs s) !! dir = None \/ is_Some (access_fault E))
      /\ (is_Some (files (fs s) !! dir) /\ e = "EEXIST"
          \/ (exists a, In a (ancestors dir) /\ is_Some (files (fs s) !! a)) /\ e = "ENOTDIR"
          \/ mkdir_fault E = Some e)
      /\ fs s' = fs s
      /\ out s' = (out s ++ [Access dir false; Mkdir dir false])%list
  end.
Proof.
  destruct s as [d tr].
  assert (Hmk : forall tr0,
    ((dir ∉ dirs d) /\ files d !! dir = None \/ is_Some (access_fault E)) ->
    match mkdir E dir (mkState d (tr0 ++ [Access dir false])) with
    | (Ok _, s') =>
        files (fs s') = files d
        /\ ((dir ∈ dirs d \/ is_Some (files d !! dir))
            /\ access_fault E = None
            /\ fs s' = d /\ out s' = (tr0 ++ [Access dir true])%list
            \/ ((dir ∉ dirs d) /\ files d !! dir = None \/ is_Some (access_fault E))
               /\ files d !! dir = None
               /\ (forall a, In a (ancestors dir) -> files d !! a = None)
               /\ dir ∈ dirs (fs s')
               /\ (forall a, In a (ancestors dir) -> a ∈ dirs (fs s'))
               /\ (forall a, a ∈ dirs (fs s')
                             <-> a ∈ dirs d \/ a = dir \/ In a (ancestors dir))
               /\ out s' = (tr0 ++ [Access dir false; Mkdir dir true])%list)
    | (Throw e, s') =>
        ((dir ∉ dirs d) /\ files d !! dir = None \/ is_Some (access_fault E))
        /\ (is_Some (files d !! dir) /\ e = "EEXIST"
            \/ (exists a, In a (ancestors dir) /\ is_Some (files d !! a)) /\ e = "ENOTDIR"
            \/ mkdir_fault E = Some e)
        /\ fs s' = d
        /\ out s' = (tr0 ++ [Access dir false; Mkdir dir false])%list
    end).
  { intros tr0 Hwhy. unfold mkdir, emit. cbn [fs out dirs files].
    destruct (mkdir_refusal E d dir) as [e|] eqn:Hr; cbn [fs out dirs files];
      rewrite <- app_assoc; cbn [app].
    - split; [done|]. split; [by apply (mkdir_refusal_Some E)|done].
    - destruct (mkdir_refusal_None E d dir Hr) as (Hd & Ha & _).
      split; [done|]. right. split; [done|]. split; [done|]. split; [done|].
      split; [apply elem_of_made; tauto|].
      split; [intros a Hin; apply elem_of_made; tauto|].
      split; [intros a; apply elem_of_made|done]. }
  unfold ensureDir, try_catch, access, emit. cbn [fs out].
  destruct (present d dir) eqn:Hp.
  - apply present_spec in Hp. destruct (access_fault E) as [e|] eqn:Hf.
    + apply Hmk. right. eauto.
    + split; [done|]. left. done.
  - apply present_false in Hp. apply Hmk. by left.
Qed.

(** ** The calls of a run *)

(** The calls of a turn name the file of the turn and its destination. *)
Lemma file_outcome_events (E : env) (d : disk) (n : nat) (p : string) (ev : event) :
  In ev (fst (file_outcome E d n p)) ->
  match ev with
  | ReadFile q _ => q = p
  | Optimize cfg _ => cfg = config (JS.basename p)
  | WriteFile k data ok =>
      k = outputPath E p /\ data = artifact E p
      /\ (ok = true <-> write_refusal E d n k = None)
  | ConsoleLog _ => True
  | _ => False
  end.
Proof.
  unfold file_outcome, artifact.
  destruct (file_content E p) as [content|e]; cbn [fst In].
  2:{ by intros [<-|[]]. }
  destruct (svgo_optimize E content _) as [x|e]; cbn [fst In].
  2:{ by intros [<-|[<-|[]]]. }
  destruct (write_refusal E d n _) as [r|] eqn:Hr; cbn [fst In].
  - intros [<-|[<-|[<-|[]]]]; first [done | rewrite Hr; by repeat split].
  - intros [<-|[<-|[<-|[<-|[]]]]]; first [done | by rewrite Hr].
Qed.

Lemma loop_outcome_events (E : env) (d : disk) (l : list string) (ev : event) :
  forall n, In ev (fst (loop_outcome E d n l)) ->
            exists k p, In p l /\ In ev (fst (file_outcome E d k p)).
Proof.
  induction l as [|p rest IH]; intros n; [done|]. cbn [loop_outcome].
  destruct (file_outcome E d n p) as [evs [data|e]] eqn:Hp; cbn [fst].
  - intros H. apply in_app_or in H as [H|H].
    + exists n, p. rewrite Hp. split; [by left|done].
    + destruct (IH _ H) as (k & q & ? & ?). exists k, q. split; [by right|done].
  - intros H. exists n, p. rewrite Hp. split; [by left|done].
Qed.

(** What a call of a run can be, from discovery on: the walk, a call of
    the turn of a discovered file, the write of the manifest, a line on
    the console or the exit. *)
Lemma discovered_events (E : env) (d : disk) (tr : list event) (ev : event) :
  In ev (trace (discovered E d tr)) ->
  In ev tr
  \/ (exists ok, ev = Walk (RAW_DIR E) ok)
  \/ (exists l n p, getSvgFiles E (RAW_DIR E) (raw_listing E) = Ok l /\ In p l
                    /\ In ev (fst (file_outcome E d n p)))
  \/ (exists l ok, getSvgFiles E (RAW_DIR E) (raw_listing E) = Ok l
                   /\ ev = WriteFile (manifestPath E) (manifest l) ok
                   /\ (ok = true
                       <-> write_refusal E d (attempts tr + List.length l) (manifestPath E)
                           = None))
  \/ match ev with ConsoleLog _ | ConsoleError _ _ | Exit _ => True | _ => False end.
Proof.
  unfold discovered.
  destruct (getSvgFiles E (RAW_DIR E) (raw_listing E)) as [l|e] eqn:Hl.
  2:{ unfold failed. cbn [trace]. intros H.
      repeat (apply in_app_or in H as [H|H]); [by left|..]; cbn [In] in H.
      - destruct H as [<-|[]]. right. left. eauto.
      - destruct H as [<-|[<-|[]]]; by do 4 right. }
  assert (Hloop : In ev (fst (loop_outcome E d (attempts tr) l)) ->
                  exists l0 n p, @Ok (list string) l = Ok l0 /\ In p l0
                                 /\ In ev (fst (file_outcome E d n p))).
  { intros H. apply loop_outcome_events in H as (n & p & ? & ?). by exists l, n, p. }
  assert (Hhead : In ev [Walk (RAW_DIR E) true; ConsoleLog (found_line (List.length l))] ->
                  (exists ok, ev = Walk (RAW_DIR E) ok)
                  \/ (exists l0 n p, @Ok (list string) l = Ok l0 /\ In p l0
                                     /\ In ev (fst (file_outcome E d n p)))
                  \/ (exists l0 ok, @Ok (list string) l = Ok l0
                        /\ ev = WriteFile (manifestPath E) (manifest l0) ok
                        /\ (ok = true
                            <-> write_refusal E d (attempts tr + List.length l0)
                                  (manifestPath E) = None))
                  \/ match ev with
                     | ConsoleLog _ | ConsoleError _ _ | Exit _ => True
                     | _ => False
                     end).
  { intros [<-|[<-|[]]]; [left; eauto|by do 3 right]. }
  destruct (snd (loop_outcome E d (attempts tr) l)) as [[]|e].
  - destruct (write_refusal E d _ (manifestPath E)) as [r|] eqn:Hr; unfold failed;
      cbn [trace]; intros H; repeat (apply in_app_or in H as [H|H]);
      try (by left); try (right; by apply Hhead);
      try (right; right; left; by apply Hloop); cbn [In] in H.
    + destruct H as [<-|[<-|[]]]; [by do 4 right|].
      do 3 right. left. exists l, false. split; [done|]. split; [done|]. by rewrite Hr.
    + destruct H as [<-|[<-|[]]]; by do 4 right.
    + destruct H as [<-|[<-|[<-|[]]]]; [by do 4 right| |by do 4 right].
      do 3 right. left. exists l, true. split; [done|]. split; [done|]. by rewrite Hr.
  - unfold failed; cbn [trace]; intros H; repeat (apply in_app_or in H as [H|H]);
      try (by left); try (right; by apply Hhead);
      try (right; right; left; by apply Hloop); cbn [In] in H.
    destruct H as [<-|[<-|[]]]; by do 4 right.
Qed.

(** The calls of a whole run: those of [ensureDir] come first, and the
    disk it leaves settles what stands in the way of the writes. *)
Lemma run_events (E : env) (d : disk) (ev : event) :
  In ev (trace (run E d)) ->
  (exists ok, ev = Access (OPTIMIZED_DIR E) ok)
  \/ (exists ok, ev = Mkdir (OPTIMIZED_DIR E) ok)
  \/ (exists ok, ev = Walk (RAW_DIR E) ok)
  \/ (exists l n p, getSvgFiles E (RAW_DIR E) (raw_listing E) = Ok l /\ In p l
                    /\ In ev (fst (file_outcome E (ground_of E d) n p)))
  \/ (exists l ok, getSvgFiles E (RAW_DIR E) (raw_listing E) = Ok l
                   /\ ev = WriteFile (manifestPath E) (manifest l) ok
                   /\ (ok = true
                       <-> write_refusal E (ground_of E d) (List.length l) (manifestPath E)
                           = None))
  \/ match ev with ConsoleLog _ | ConsoleError _ _ | Exit _ => True | _ => False end.
Proof.
  rewrite run_stages. unfold stages, ground_of. destruct (probe E d).
  - intros H. apply discovered_events in H as [H|H]; [|by do 2 right].
    destruct H as [<-|[]]. left. eauto.
  - destruct (mkdir_refusal E d _) as [e|].
    + unfold failed. cbn [trace app In].
      intros [<-|[<-|[<-|[<-|[]]]]]; [left; eauto|right; left; eauto|by do 5 right..].
    + intros H. apply discovered_events in H as [H|H]; [|by do 2 right].
      destruct H as [<-|[<-|[]]]; [left; eauto|right; left; eauto].
Qed.

(** The writes of a run, done or failed, are those of the turns of
    discovered files and that of the manifest. *)
Lemma run_writes (E : env) (d : disk) (k data : string) (ok : bool) :
  In (WriteFile k data ok) (trace (run E d)) ->
  (exists n, ok = true <-> write_refusal E (ground_of E d) n k = None)
  /\ (k = manifestPath E
      \/ exists l p, getSvgFiles E (RAW_DIR E) (raw_listing E) = Ok l /\ In p l
                     /\ k = outputPath E p /\ data = artifact E p).
Proof.
  intros Hin.
  apply run_events in Hin
    as [(? & ?)|[(? & ?)|[(? & ?)|[(l & n & p & Hl & Hp & H)|[(l & ok' & Hl & H & Hok)|H]]]]];
    try done.
  - apply file_outcome_events in H as (-> & -> & Hok). split; [eauto|]. right. by exists l, p.
  - injection H as -> _ ->. split; [eauto|by left].
Qed.

(** ** The disk after a run *)

Lemma discovered_settled (E : env) (d : disk) (tr : list event) :
  (forall m, settled E d 0 tr m = m) ->
  files (after (discovered E d tr)) = settled E d 0 (trace (discovered E d tr)) (files d).
Proof.
  intros Htr. unfold discovered.
  destruct (getSvgFiles E (RAW_DIR E) (raw_listing E)) as [l|e].
  2:{ unfold failed. cbn [after trace files]. by rewrite !settled_app, Htr. }
  pose proof (loop_outcome_attempts E d l (attempts tr)) as Hn.
  destruct (snd (loop_outcome E d (attempts tr) l)) as [[]|e];
    [destruct (write_refusal E d _ (manifestPath E)) as [r|] eqn:Hr|];
    unfold failed; cbn [after trace files];
    rewrite !settled_app, Htr; count_attempts; rewrite ?Hn by done;
    cbn [settled Nat.add]; rewrite ?Nat.add_0_r; by rewrite ?Hr.
Qed.

Lemma run_settled (E : env) (d : disk) :
  files (after (run E d)) = settled E (ground_of E d) 0 (trace (run E d)) (files d).
Proof.
  rewrite run_stages. unfold stages, ground_of.
  destruct (probe E d); [by apply discovered_settled|].
  destruct (mkdir_refusal E d _); [done|].
  by apply (discovered_settled E (mkDisk _ _)).
Qed.

Lemma settled_frame (E : env) (d : disk) (tr : list event) (k : string) :
  (forall data ok, ~ In (WriteFile k data ok) tr) ->
  forall n m, settled E d n tr m !! k = m !! k.
Proof.
  induction tr as [|ev tr IH]; intros H n m; [done|].
  assert (Htr : forall n0 m0, settled E d n0 tr m0 !! k = m0 !! k).
  { apply IH. intros data ok Hin. apply (H data ok). by right. }
  destruct ev as [| | | | |path data [|]| | |]; cbn [settled]; rewrite Htr; try done.
  - rewrite lookup_insert_ne; [done|]. intros ->. apply (H data true). by left.
  - destruct (write_refusal E d n path) as [[e|e j]|]; cbn [leftover]; try done.
    rewrite lookup_insert_ne; [done|]. intros ->. apply (H data false). by left.
Qed.

(** At a path where no write failed, the files are those of the writes
    done. *)
Lemma settled_unfailed (E : env) (d : disk) (tr : list event) (k : string) :
  (forall data, ~ In (WriteFile k data false) tr) ->
  forall n m, settled E d n tr m !! k = written tr m !! k.
Proof.
  induction tr as [|ev tr IH]; intros H n m; [done|].
  assert (Htr : forall n0 m0, settled E d n0 tr m0 !! k = written tr m0 !! k).
  { apply IH. intros data Hin. apply (H data). by right. }
  destruct ev as [| | | | |path data [|]| | |]; cbn [settled written]; rewrite Htr; try done.
  rewrite !written_lookup. destruct (last_write k tr); [done|].
  destruct (write_refusal E d n path) as [[e|e j]|]; cbn [leftover]; try done.
  rewrite lookup_insert_ne; [done|]. intros ->. apply (H data). by left.
Qed.

Lemma settled_keeps (E : env) (d : disk) (tr : list event) (k : string) :
  forall n m, is_Some (m !! k) -> is_Some (settled E d n tr m !! k).
Proof.
  induction tr as [|ev tr IH]; intros n m H; [done|].
  assert (Hins : forall v, is_Some (<[v.1 := v.2]> m !! k)).
  { intros [p v]. cbn. destruct (decide (p = k)) as [->|Hne].
    - rewrite lookup_insert_eq. eauto.
    - by rewrite lookup_insert_ne. }
  destruct ev as [| | | | |path data [|]| | |]; cbn [settled]; try by apply IH.
  - apply IH, (Hins (path, data)).
  - apply IH. destruct (write_refusal E d n path) as [[e|e j]|]; cbn [leftover]; try done.
    apply (Hins (path, String.substring 0 j data)).
Qed.

Lemma last_write_None (k : string) (tr : list event) :
  (forall data, ~ In (WriteFile k data true) tr) -> last_write k tr = None.
Proof.
  induction tr as [|ev tr IH]; [done|]. intros H.
  assert (Htr : last_write k tr = None).
  { apply IH. intros data Hin. apply (H data). by right. }
  destruct ev as [| | | | |path data [|]| | |]; cbn [last_write]; rewrite ?Htr; try done.
  destruct (decide (path = k)) as [->|_]; [|done].
  destruct (H data). by left.
Qed.

Lemma last_write_app (k : string) (a b : list event) :
  last_write k (a ++ b)
  = match last_write k b with Some v => Some v | None => last_write k a end.
Proof.
  induction a as [|ev a IH]; cbn [app last_write]; [by destruct (last_write k b)|].
  destruct ev as [| | | | |path data [|]| | |]; cbn [last_write]; rewrite ?IH; try done.
  by destruct (last_write k b).
Qed.

Lemma last_write_In (k v : string) (tr : list event) :
  last_write k tr = Some v -> In (WriteFile k v true) tr.
Proof.
  induction tr as [|ev tr IH]; [done|].
  destruct ev as [| | | | |path data [|]| | |]; cbn [last_write]; try solve [intros H; right; auto].
  destruct (last_write k tr) as [w|].
  - intros [= ->]. right. auto.
  - destruct (decide (path = k)) as [->|_]; [|done]. intros [= ->]. by left.
Qed.

Lemma write_in_last (k data : string) (tr : list event) :
  In (WriteFile k data true) tr -> is_Some (last_write k tr).
Proof.
  induction tr as [|ev tr IH]; [done|]. intros [->|Hin].
  - cbn [last_write]. destruct (last_write k tr); [eauto|].
    destruct (decide (k = k)); [eauto|done].
  - destruct ev as [| | | | |path x [|]| | |]; cbn [last_write]; try by apply IH.
    destruct (IH Hin) as [v ->]. eauto.
Qed.

Lemma success_no_report (E : env) (d : disk) :
  code (run E d) = 0%Z -> Forall (fun x => is_report x = false) (trace (run E d)).
Proof.
  intros H. destruct (run_done E d H) as (ens & l & Hens & Hl & -> & _).
  pose proof (turns_quiet E l (getSvgFiles_is_svg _ _ _ _ Hl)) as Hq.
  apply Forall_app. split; [destruct Hens as [[-> _]|[-> _]]; by repeat constructor|].
  repeat constructor. apply Forall_app. split; [|by repeat constructor].
  revert Hq. apply List.Forall_impl. intros x Hx. by apply quiet_inv in Hx as (_ & ? & _).
Qed.

(** X6: a run ends with status 0 or 1; with 0 exactly when it wrote the
    manifest, with 1 exactly when the catch block printed the error line. *)
Theorem exit_status (E : env) (d : disk) :
  (code (run E d) = 0%Z \/ code (run E d) = 1%Z)
  /\ (code (run E d) = 0%Z
      <-> exists data, In (WriteFile (manifestPath E) data true) (trace (run E d)))
  /\ (code (run E d) = 1%Z
      <-> exists e, In (ConsoleError error_label e) (trace (run E d))).
Proof.
  destruct (Z.eq_dec (code (run E d)) 0%Z) as [H0|H1].
  - split; [by left|]. rewrite H0.
    destruct (run_done E d H0) as (ens & l & _ & _ & Htr & _).
    split; split.
    + intros _. exists (manifest l). rewrite Htr. apply in_or_app. right.
      cbn [app In]. do 2 right. apply in_or_app. right. cbn. tauto.
    + done.
    + done.
    + intros [e He]. pose proof (success_no_report E d H0) as Hq.
      rewrite List.Forall_forall in Hq. by apply Hq in He.
  - destruct (run_failed E d H1) as (Hc & pre & ev & e & Htr & Hev & _ & Hpre & _).
    split; [by right|]. rewrite Hc. split; split.
    + done.
    + intros [data Hin]. rewrite Htr in Hin.
      apply in_app_or in Hin as [Hin|[Hin|[Hin|[Hin|[]]]]]; try done.
      * by apply quiet_not_manifest in Hin.
      * by subst ev.
    + intros _. exists e. rewrite Htr. apply in_or_app. right. cbn. tauto.
    + done.
Qed.

(** X7: a run leaves alone every file whose path is neither that of the
    manifest nor the destination of a discovered file: an older file of
    [optimized/] whose source is gone stays where it is. *)
Theorem run_frame (E : env) (d : disk) (k : string) :
  k <> manifestPath E ->
  (forall l p, getSvgFiles E (RAW_DIR E) (raw_listing E) = Ok l -> In p l ->
               k <> outputPath E p) ->
  files (after (run E d)) !! k = files d !! k.
Proof.
  intros Hm Hk. rewrite run_settled. apply settled_frame.
  intros data ok Hin. apply run_writes in Hin as [_ [->|(l & p & Hl & Hp & -> & _)]]; [done|].
  by apply (Hk l p).
Qed.

Lemma run_frame_witness :
  files (after (run Sample.icons Sample.used_disk)) !! "/repo/optimized/old.svg"
  = files Sample.used_disk !! "/repo/optimized/old.svg".
Proof.
  apply run_frame.
  - by vm_compute.
  - intros l p Hl Hp. vm_compute in Hl. injection Hl as <-.
    destruct Hp as [<-|[<-|[]]]; by vm_compute.
Defined.

(** X8: a run deletes nothing, whatever its status: every file and
    directory the disk had is still there.  A path the run wrote, and at
    which no write of the run failed, holds at the end a text the run
    wrote there, so what was written before a failure elsewhere stays.  A
    write that fails is the last call of the run before the error line:
    when it failed after its open, the file holds the units that went
    through, whatever an earlier write of the run had left there (two
    files of one base name); otherwise the file is as the writes before
    left it. *)
Theorem run_keeps_files (E : env) (d : disk) :
  (forall k, is_Some (files d !! k) -> is_Some (files (after (run E d)) !! k))
  /\ dirs d ⊆ dirs (after (run E d))
  /\ (forall k data, In (WriteFile k data true) (trace (run E d)) ->
        (forall later, ~ In (WriteFile k later false) (trace (run E d))) ->
        exists last,
          files (after (run E d)) !! k = Some last
          /\ In (WriteFile k last true) (trace (run E d)))
  /\ (forall k data, In (WriteFile k data false) (trace (run E d)) ->
        exists pre e,
          trace (run E d)
          = (pre ++ [WriteFile k data false; ConsoleError error_label e; Exit 1])%list
          /\ match write_refusal E (ground_of E d) (attempts pre) k with
             | Some (AfterOpen _ n) =>
                 files (after (run E d)) !! k = Some (String.substring 0 n data)
             | _ => files (after (run E d)) !! k = written pre (files d) !! k
             end).
Proof.
  split; [|split; [|split]].
  - intros k Hk. rewrite run_settled. by apply settled_keeps.
  - destruct (Z.eq_dec (code (run E d)) 0%Z) as [H0|H1].
    + destruct (run_done E d H0) as (_ & _ & [[_ ->]|[_ ->]] & _); set_solver.
    + destruct (run_failed E d H1) as (_ & _ & _ & _ & _ & _ & _ & _ & [->| ->] & _);
        set_solver.
  - intros k data Hin Hlater.
    rewrite run_settled, settled_unfailed, written_lookup by done.
    destruct (write_in_last k data _ Hin) as [v Hv]. rewrite Hv.
    exists v. split; [done|]. by apply last_write_In.
  - intros k data Hin.
    destruct (Z.eq_dec (code (run E d)) 0%Z) as [H0|H1].
    { pose proof (run_done_quiet E d H0) as Hq. rewrite List.Forall_forall in Hq.
      by apply Hq in Hin. }
    destruct (run_failed E d H1) as (_ & pre & ev & e & Htr & Hev & _ & Hpre & _ & Hfiles).
    assert (ev = WriteFile k data false) as ->.
    { symmetry. apply (fatal_in_failed E pre ev _ e Hpre); [done|by rewrite <- Htr]. }
    exists pre, e. split; [done|]. rewrite Hfiles. cbn [settled].
    destruct (write_refusal E (ground_of E d) (attempts pre) k) as [[e'|e' n]|];
      cbn [leftover]; try done.
    by rewrite lookup_insert_eq.
Qed.

Lemma run_keeps_files_witness :
  code (run Sample.rejecting Sample.used_disk) = 1%Z
  /\ is_Some (files (after (run Sample.rejecting Sample.used_disk))
                !! "/repo/optimized/old.svg")
  /\ exists last,
       files (after (run Sample.rejecting Sample.used_disk)) !! "/repo/optimized/lock.svg"
       = Some last
       /\ In (WriteFile "/repo/optimized/lock.svg" last true)
             (trace (run Sample.rejecting Sample.used_disk)).
Proof.
  destruct (run_keeps_files Sample.rejecting Sample.used_disk) as (H1 & _ & H3 & _).
  split; [by vm_compute|]. split.
  - apply H1. vm_compute. eauto.
  - apply (H3 _ "<svg/>"); [vm_compute; tauto|].
    intros later Hin. vm_compute in Hin. intuition discriminate.
Defined.

(** A write that fails after its open at a path the run wrote before
    leaves a text there that no write of the run carried. *)
Lemma failed_overwrite_truncates :
  In (WriteFile "/repo/optimized/x.svg" "/repo/raw/a/x.svg" true)
     (trace (run Sample.colliding_full Sample.empty_disk))
  /\ In (WriteFile "/repo/optimized/x.svg" "/repo/raw/b/x.svg" false)
        (trace (run Sample.colliding_full Sample.empty_disk))
  /\ code (run Sample.colliding_full Sample.empty_disk) = 1%Z
  /\ files (after (run Sample.colliding_full Sample.empty_disk)) !! "/repo/optimized/x.svg"
     = Some "/re"
  /\ forall last, In (WriteFile "/repo/optimized/x.svg" last true)
                     (trace (run Sample.colliding_full Sample.empty_disk)) ->
                  last <> "/re".
Proof.
  split; [vm_compute; tauto|]. split; [vm_compute; tauto|].
  split; [by vm_compute|]. split; [by vm_compute|].
  intros last H. vm_compute in H.
  repeat (destruct H as [H|H]; [try discriminate|]); [|done].
  by injection H as <-.
Qed.

Lemma turns_no_write (E : env) (l : list string) (k : string) :
  (forall r, In r l -> outputPath E r <> k) ->
  last_write k (flat_map (fun p => turn E p (artifact E p)) l) = None.
Proof.
  intros Hl. apply last_write_None. intros data Hin.
  apply in_flat_map in Hin as (p & Hp & Hin). unfold turn in Hin. cbn in Hin.
  destruct Hin as [Hin|[Hin|[Hin|[Hin|[]]]]]; try done.
  injection Hin as Hk _. by apply (Hl p).
Qed.

(** X9: in a run that succeeds, when discovered files share a destination
    (the same base name found in several directories), the file there
    holds the optimized text of the last of them in discovery order: the
    earlier ones are overwritten, while the manifest keeps one entry per
    discovered file. *)
Theorem last_duplicate_wins (E : env) (d : disk) (done rest : list string) (q : string) :
  code (run E d) = 0%Z ->
  getSvgFiles E (RAW_DIR E) (raw_listing E) = Ok (done ++ q :: rest)%list ->
  (forall r, In r rest -> outputPath E r <> outputPath E q) ->
  files (after (run E d)) !! outputPath E q = Some (artifact E q)
  /\ (forall p, In p done -> outputPath E p = outputPath E q ->
        files (after (run E d)) !! outputPath E p = Some (artifact E q))
  /\ List.length (iconNames (done ++ q :: rest))
     = S (List.length done + List.length rest).
Proof.
  intros H0 Hl Hrest.
  assert (Hq : files (after (run E d)) !! outputPath E q = Some (artifact E q)).
  { destruct (run_done E d H0) as (ens & l & _ & Hl' & _ & Hfiles).
    rewrite Hl in Hl'. injection Hl' as <-.
    pose proof (getSvgFiles_is_svg _ _ _ _ Hl) as Hsvg.
    apply Forall_app in Hsvg as [_ Hsvg]. apply Forall_cons in Hsvg as [Hsvg _].
    rewrite Hfiles, lookup_insert_ne
      by (intros Heq; symmetry in Heq; by apply outputPath_not_manifest in Heq).
    rewrite written_lookup, flat_map_app. cbn [flat_map].
    rewrite !last_write_app, (turns_no_write E rest) by done.
    unfold turn. cbn [last_write]. by destruct (decide (outputPath E q = outputPath E q)). }
  split; [done|]. split.
  - intros p _ ->. done.
  - unfold iconNames. rewrite length_map, length_app. cbn. lia.
Qed.

Lemma last_duplicate_wins_witness :
  files (after (run Sample.colliding Sample.empty_disk))
    !! outputPath Sample.colliding "/repo/raw/b/x.svg"
  = Some (artifact Sample.colliding "/repo/raw/b/x.svg")
  /\ (forall p, In p ["/repo/raw/a/x.svg"] ->
        outputPath Sample.colliding p = outputPath Sample.colliding "/repo/raw/b/x.svg" ->
        files (after (run Sample.colliding Sample.empty_disk))
          !! outputPath Sample.colliding p
        = Some (artifact Sample.colliding "/repo/raw/b/x.svg"))
  /\ List.length (iconNames (["/repo/raw/a/x.svg"] ++ "/repo/raw/b/x.svg" :: []))
     = S (List.length ["/repo/raw/a/x.svg"] + List.length (@nil string)).
Proof.
  apply (last_duplicate_wins Sample.colliding Sample.empty_disk
           ["/repo/raw/a/x.svg"] [] "/repo/raw/b/x.svg").
  - by vm_compute.
  - by vm_compute.
  - intros r [].
Defined.

(** ** What a run takes from the disk *)




(** X11: when the write of the manifest fails, the run ends with status
    1 although the summary line with the count of processed files is
    already printed and every discovered file is already written; the
    write that failed carried the manifest of the discovered files, its
    error is the one reported, and the file at the manifest path is as
    that write leaves it: as it was before the run when the write was
    stopped at the open, cut to the units that went through when it
    failed after the open. *)
Theorem summary_despite_manifest_failure (E : env) (d : disk) (data : string) :
  In (WriteFile (manifestPath E) data false) (trace (run E d)) ->
  code (run E d) = 1%Z
  /\ exists l,
       getSvgFiles E (RAW_DIR E) (raw_listing E) = Ok l
       /\ data = manifest l
       /\ In (ConsoleLog (complete_line (List.length l))) (trace (run E d))
       /\ (forall p, In p l ->
             In (WriteFile (outputPath E p) (artifact E p) true) (trace (run E d)))
       /\ exists r,
            write_refusal E (ground_of E d) (List.length l) (manifestPath E) = Some r
            /\ In (ConsoleError error_label (refusal_error r)) (trace (run E d))
            /\ match r with
               | AtOpen _ =>
                   files (after (run E d)) !! manifestPath E = files d !! manifestPath E
               | AfterOpen _ n =>
                   files (after (run E d)) !! manifestPath E
                   = Some (String.substring 0 n data)
               end.
Proof.
  intros Hin.
  destruct (Z.eq_dec (code (run E d)) 0%Z) as [H0|H1].
  { pose proof (run_done_quiet E d H0) as Hq. rewrite List.Forall_forall in Hq.
    by apply Hq in Hin. }
  destruct (run_failed E d H1) as (Hc & _). split; [done|].
  rewrite run_stages in *. unfold stages, ground_of in *.
  assert (Hd : forall d1 ens, (forall x, In x ens -> is_processing x = false) ->
             In (WriteFile (manifestPath E) data false) (trace (discovered E d1 ens)) ->
             exists l, getSvgFiles E (RAW_DIR E) (raw_listing E) = Ok l
               /\ data = manifest l
               /\ In (ConsoleLog (complete_line (List.length l)))
                     (trace (discovered E d1 ens))
               /\ (forall p, In p l -> In (WriteFile (outputPath E p) (artifact E p) true)
                                          (trace (discovered E d1 ens)))
               /\ exists r,
                    write_refusal E d1 (attempts ens + List.length l) (manifestPath E) = Some r
                    /\ In (ConsoleError error_label (refusal_error r))
                          (trace (discovered E d1 ens))
                    /\ match r with
                       | AtOpen _ =>
                           files (after (discovered E d1 ens)) !! manifestPath E
                           = files d1 !! manifestPath E
                       | AfterOpen _ n =>
                           files (after (discovered E d1 ens)) !! manifestPath E
                           = Some (String.substring 0 n data)
                       end).
  { intros d1 ens Hens. unfold discovered.
    destruct (getSvgFiles E (RAW_DIR E) (raw_listing E)) as [l|e] eqn:Hl.
    2:{ unfold failed. cbn [trace]. intros H.
        repeat (apply in_app_or in H as [H|H]); [by apply Hens in H|..];
          cbn in H; intuition discriminate. }
    pose proof (getSvgFiles_is_svg _ _ _ _ Hl) as Hsvg.
    destruct (snd (loop_outcome E d1 (attempts ens) l)) as [[]|e] eqn:Hs.
    - rewrite (loop_ok E d1 _ l Hs).
      destruct (write_refusal E d1 _ (manifestPath E)) as [r|] eqn:Hr;
        unfold failed; cbn [trace after files]; intros H.
      + assert (Hdata : data = manifest l).
        { repeat (apply in_app_or in H as [H|H]); try (by apply Hens in H);
            try (by apply (quiet_not_manifest E) in H; [|by apply turns_quiet]);
            cbn [In] in H; intuition (try discriminate); congruence. }
        exists l. split; [done|]. split; [done|]. split; [|split].
        * apply in_or_app. left. apply in_or_app. right. cbn. tauto.
        * intros p Hp. apply in_or_app. left. apply in_or_app. left.
          apply in_or_app. right. cbn [app In]. do 2 right. by apply turn_write.
        * exists r. split; [done|]. split; [apply in_or_app; right; cbn; tauto|].
          destruct r as [e|e n]; cbn [leftover].
          -- rewrite settled_written by (by apply (quiet_not_fatal E), turns_quiet).
             rewrite written_lookup, last_write_None; [done|].
             intros x Hx. by apply (quiet_not_manifest E) in Hx; [|by apply turns_quiet].
          -- by rewrite lookup_insert_eq, Hdata.
      + exfalso. repeat (apply in_app_or in H as [H|H]); try (by apply Hens in H);
          try (by apply (quiet_not_manifest E) in H; [|by apply turns_quiet]);
          cbn in H; intuition discriminate.
    - unfold failed. cbn [trace]. intros H. exfalso.
      destruct (loop_throw E d1 _ l e Hs) as (dn & p & rest & pre & ev & -> & Hevs & Hp & Hp').
      apply Forall_app in Hsvg as [Hdn Hp2]. apply Forall_cons in Hp2 as [Hp2 _].
      destruct (turn_throw E d1 _ p e Hp2 Hp) as (pre' & ev' & Hpe & _ & _ & Hman & Hpre).
      rewrite Hp' in Hpe. apply app_inj_tail in Hpe as [<- <-]. rewrite Hevs in H.
      repeat (apply in_app_or in H as [H|H]); try (by apply Hens in H);
        try (by apply (quiet_not_manifest E) in H; [|by apply turns_quiet]);
        try (by apply (quiet_not_manifest E) in H);
        cbn in H; intuition (try discriminate).
      subst ev. cbn in Hman. by rewrite String.eqb_refl in Hman. }
  destruct (probe E d).
  - apply (Hd d [Access (OPTIMIZED_DIR E) true]); [|done].
    intros x [<-|[]]; done.
  - destruct (mkdir_refusal E d _) as [e|].
    + unfold failed in Hin. cbn in Hin. intuition discriminate.
    + apply (Hd (mkDisk (made (OPTIMIZED_DIR E) ∪ dirs d) (files d))
               [Access (OPTIMIZED_DIR E) false; Mkdir (OPTIMIZED_DIR E) true]); [|done].
      intros x [<-|[<-|[]]]; done.
Qed.

Lemma summary_despite_manifest_failure_witness :
  code (run Sample.no_space Sample.stale_disk) = 1%Z
  /\ exists l,
       getSvgFiles Sample.no_space (RAW_DIR Sample.no_space) (raw_listing Sample.no_space)
       = Ok l
       /\ manifest ["/repo/raw/lock.svg"; "/repo/raw/nav/ARROW.SVG"] = manifest l
       /\ In (ConsoleLog (complete_line (List.length l)))
             (trace (run Sample.no_space Sample.stale_disk))
       /\ (forall p, In p l ->
             In (WriteFile (outputPath Sample.no_space p)
                   (artifact Sample.no_space p) true)
                (trace (run Sample.no_space Sample.stale_disk)))
       /\ exists r,
            write_refusal Sample.no_space (ground_of Sample.no_space Sample.stale_disk)
              (List.length l) (manifestPath Sample.no_space) = Some r
            /\ In (ConsoleError error_label (refusal_error r))
                  (trace (run Sample.no_space Sample.stale_disk))
            /\ match r with
               | AtOpen _ =>
                   files (after (run Sample.no_space Sample.stale_disk))
                     !! manifestPath Sample.no_space
                   = files Sample.stale_disk !! manifestPath Sample.no_space
               | AfterOpen _ n =>
                   files (after (run Sample.no_space Sample.stale_disk))
                     !! manifestPath Sample.no_space
                   = Some (String.substring 0 n
                             (manifest ["/repo/raw/lock.svg"; "/repo/raw/nav/ARROW.SVG"]))
               end.
Proof.
  apply (summary_despite_manifest_failure Sample.no_space Sample.stale_disk).
  vm_compute. tauto.
Defined.

(** ** A regular file in the place of the destination directory *)








(** ** Where a run reads and writes *)

Lemma walk_under (entry : dirent) :
  forall dir p, (2 <= String.length dir)%nat -> In p (Spec.walk dir entry) ->
    exists rel, p = dir ++ "/" ++ rel.
Proof.
  induction entry as [n|n e|n entries IH] using dirent_nested_ind; intros dir p Hd Hp.
  - cbn in Hp. destruct (Spec.has_svg_extension n); [|done].
    destruct Hp as [<-|[]]. exists n. by apply join_long.
  - done.
  - cbn [Spec.walk] in Hp. apply in_flat_map in Hp as (entry & Hentry & Hp).
    rewrite List.Forall_forall in IH. unfold JS.resolve in Hp. rewrite join_long in Hp by done.
    apply (IH entry Hentry) in Hp as [rel ->].
    + exists (n ++ "/" ++ rel). apply append_assoc3.
    + rewrite chars_length, chars_app, length_app, <- chars_length. lia.
Qed.

Lemma discovered_under (E : env) (dir : string) (listing : result (list dirent)) (l : list string) (p : string) :
  (2 <= String.length dir)%nat -> getSvgFiles E dir listing = Ok l -> In p l ->
  exists rel, p = dir ++ "/" ++ rel.
Proof.
  intros Hd Hl Hp. pose proof (getSvgFiles_discover E dir listing) as H. rewrite Hl in H.
  destruct H as (_ & _ & ->). destruct listing as [entries|e]; [|done].
  cbn in Hp. apply in_flat_map in Hp as (entry & _ & Hp). by apply (walk_under entry).
Qed.

(** X12: every call of a run stays within its two directories: the probe
    and mkdir name [optimized/], the walk names [raw/], each file read is
    a path under [raw/] that passes the filter, and each write, done or
    failed, goes to [optimized/name] for a non-empty [name] without
    separator, so never into a directory under [optimized/]. *)
Theorem run_confined (E : env) (d : disk) (ev : event) :
  In ev (trace (run E d)) ->
  match ev with
  | Access dir _ | Mkdir dir _ => dir = OPTIMIZED_DIR E
  | Walk root _ => root = RAW_DIR E
  | ReadFile p _ => is_svg p = true /\ exists rel, p = RAW_DIR E ++ "/" ++ rel
  | WriteFile k _ _ =>
      exists name, k = OPTIMIZED_DIR E ++ "/" ++ name
                   /\ name <> "" /\ Spec.no_slash name = true
  | _ => True
  end.
Proof.
  intros Hin.
  assert (Hd : forall d1 ens,
             (forall x, In x ens -> x = Access (OPTIMIZED_DIR E) true
                                    \/ x = Access (OPTIMIZED_DIR E) false
                                    \/ x = Mkdir (OPTIMIZED_DIR E) true) ->
             In ev (trace (discovered E d1 ens)) ->
             match ev with
             | Access dir _ | Mkdir dir _ => dir = OPTIMIZED_DIR E
             | Walk root _ => root = RAW_DIR E
             | ReadFile p _ => is_svg p = true /\ exists rel, p = RAW_DIR E ++ "/" ++ rel
             | WriteFile k _ _ =>
                 exists name, k = OPTIMIZED_DIR E ++ "/" ++ name
                              /\ name <> "" /\ Spec.no_slash name = true
             | _ => True
             end).
  { intros d1 ens Hx H.
    apply discovered_events
      in H as [H|[(ok & ->)|[(l & n & p & Hl & Hp & H)|[(l & ok & _ & -> & _)|H]]]].
    - by destruct (Hx _ H) as [-> | [-> | ->]].
    - done.
    - apply file_outcome_events in H.
      pose proof (getSvgFiles_is_svg _ _ _ _ Hl) as Hsvg. rewrite List.Forall_forall in Hsvg.
      specialize (Hsvg p Hp).
      destruct ev as [| | |q ok|cfg ok|k data ok| | |]; try done.
      + subst q. split; [done|]. apply (discovered_under _ _ _ _ _ (RAW_DIR_long E) Hl Hp).
      + destruct H as (-> & _). exists (JS.basename p). split; [|split].
        * apply join_long, OPTIMIZED_DIR_long.
        * rewrite is_svg_tail in Hsvg.
          destruct (rev (chars p)) as [|c r] eqn:Hr; [done|].
          assert (Hc : c <> "/"%char).
          { intros ->. destruct r as [|? [|? [|? ?]]]; try done. cbn in Hsvg.
            by rewrite andb_false_r in Hsvg. }
          destruct (basename_tail p c r Hr Hc) as [r' Hr']. by intros Heq; rewrite Heq in Hr'.
        * apply basename_no_slash.
    - exists "manifest.json". split; [|done]. apply join_long, OPTIMIZED_DIR_long.
    - by destruct ev. }
  rewrite run_stages in Hin. unfold stages in Hin.
  destruct (probe E d).
  - apply (Hd d [Access (OPTIMIZED_DIR E) true]); [|done]. intros x [<-|[]]. by left.
  - destruct (mkdir_refusal E d _) as [e|].
    + unfold failed in Hin. cbn in Hin. destruct_or!; by subst.
    + refine (Hd _ [Access (OPTIMIZED_DIR E) false; Mkdir (OPTIMIZED_DIR E) true] _ Hin).
      intros x [<-|[<-|[]]]; auto.
Qed.

Lemma run_confined_witness :
  exists name, "/repo/optimized/lock.svg" = OPTIMIZED_DIR Sample.icons ++ "/" ++ name
               /\ name <> "" /\ Spec.no_slash name = true.
Proof.
  apply (run_confined Sample.icons Sample.empty_disk
           (WriteFile "/repo/optimized/lock.svg" "<svg/>" true)).
  vm_compute. tauto.
Defined.

(** ** Discovery as a whole *)

(** X13: discovery is all or nothing: when a listing fails anywhere in
    the tree, however deep, the run ends with status 1, every file is as
    it was, and no file is read, optimized or written. *)
Theorem unreadable_directory_aborts (E : env) (d : disk) :
  Spec.readable (raw_listing E) = false ->
  code (run E d) = 1%Z
  /\ files (after (run E d)) = files d
  /\ forall ev, In ev (trace (run E d)) -> is_processing ev = false.
Proof.
  intros Hr. pose proof (getSvgFiles_discover E (RAW_DIR E) (raw_listing E)) as H.
  destruct (getSvgFiles E (RAW_DIR E) (raw_listing E)) as [l|e] eqn:Hl.
  { destruct H as [H _]. congruence. }
  rewrite run_stages. unfold stages, discovered. rewrite Hl.
  destruct (probe E d); [|destruct (mkdir_refusal E d _)]; unfold failed; cbn;
    (split; [done|split; [done|]]); intros ev Hev; destruct_or!; by subst.
Qed.

Lemma unreadable_directory_aborts_witness :
  code (run Sample.unlisted Sample.used_disk) = 1%Z
  /\ files (after (run Sample.unlisted Sample.used_disk)) = files Sample.used_disk
  /\ forall ev, In ev (trace (run Sample.unlisted Sample.used_disk)) ->
                is_processing ev = false.
Proof.
  exact (unreadable_directory_aborts Sample.unlisted Sample.used_disk eq_refl).
Defined.

(** Two components followed by nothing or by a separator: equal wholes
    have equal components. *)
Lemma component_split (a b r1 r2 : list ascii) :
  forallb (fun c => negb (Ascii.eqb c JS.CHAR_FORWARD_SLASH)) a = true ->
  forallb (fun c => negb (Ascii.eqb c JS.CHAR_FORWARD_SLASH)) b = true ->
  (r1 = [] \/ exists r', r1 = "/"%char :: r') ->
  (r2 = [] \/ exists r', r2 = "/"%char :: r') ->
  (a ++ r1 = b ++ r2)%list -> a = b.
Proof.
  revert b. induction a as [|c a IH]; intros [|c' b] Ha Hb H1 H2 Heq; [done|..].
  - cbn in Heq, Hb. apply andb_prop in Hb as [Hc _].
    destruct H1 as [->|[r' ->]]; [done|]. injection Heq as <- _. done.
  - cbn in Heq, Ha. apply andb_prop in Ha as [Hc _].
    destruct H2 as [->|[r' ->]]; [done|]. injection Heq as -> _. done.
  - cbn in Heq, Ha, Hb. apply andb_prop in Ha as [_ Ha]. apply andb_prop in Hb as [_ Hb].
    injection Heq as -> Heq. f_equal. by apply IH.
Qed.

(** A path found under an entry starts with the path of the entry. *)
Lemma walk_shape (entry : dirent) :
  forall dir p, (2 <= String.length dir)%nat -> In p (Spec.walk dir entry) ->
    exists r, chars p = (chars dir ++ "/"%char :: chars (name entry) ++ r)%list
              /\ (r = [] \/ exists r', r = "/"%char :: r').
Proof.
  induction entry as [n|n e|n entries IH] using dirent_nested_ind; intros dir p Hd Hp.
  - cbn in Hp. destruct (Spec.has_svg_extension n); [|done].
    destruct Hp as [<-|[]]. exists []. unfold JS.resolve. rewrite join_long by done.
    rewrite !chars_app, app_nil_r. split; [done|by left].
  - done.
  - cbn [Spec.walk] in Hp. apply in_flat_map in Hp as (entry & Hentry & Hp).
    rewrite List.Forall_forall in IH. unfold JS.resolve in Hp. rewrite join_long in Hp by done.
    apply (IH entry Hentry) in Hp as (r & Hp & _).
    + exists ("/"%char :: chars (name entry) ++ r)%list. split; [|eauto].
      rewrite Hp, !chars_app. cbn [name]. rewrite <- !app_assoc. reflexivity.
    + rewrite chars_length, chars_app, length_app, <- chars_length. lia.
Qed.

Lemma component_no_slash (n : string) :
  Readdir.component n = true -> Spec.no_slash n = true.
Proof. unfold Readdir.component. intros H. by apply andb_prop in H as [_ H]. Qed.

Lemma siblings_NoDup (dir : string) (entries : list dirent) :
  (2 <= String.length dir)%nat ->
  NoDup (List.map name entries) ->
  Forall (fun entry => Readdir.component (name entry) = true) entries ->
  Forall (fun entry => NoDup (Spec.walk dir entry)) entries ->
  NoDup (flat_map (Spec.walk dir) entries).
Proof.
  intros Hd. induction entries as [|entry entries IH]; intros Hn Hc Hw; [constructor|].
  cbn [flat_map]. cbn [List.map] in Hn.
  apply NoDup_cons in Hn as [Hentry Hn].
  apply Forall_cons in Hc as [Hc Hcs]. apply Forall_cons in Hw as [Hw Hws].
  apply NoDup_app. split; [done|]. split; [|by apply IH].
  intros p Hp Hq. apply list_elem_of_In in Hp, Hq.
  apply in_flat_map in Hq as (other & Hother & Hq).
  apply walk_shape in Hp as (r1 & Hp & Hr1); [|done].
  apply walk_shape in Hq as (r2 & Hq & Hr2); [|done].
  rewrite Hp in Hq. apply app_inv_head in Hq. injection Hq as Hq.
  rewrite List.Forall_forall in Hcs.
  apply component_split in Hq; [|by apply component_no_slash; auto..|done|done].
  apply chars_inj in Hq. apply Hentry. rewrite Hq.
  apply list_elem_of_In, in_map, Hother.
Qed.

Lemma walk_NoDup (entry : dirent) :
  forall dir, (2 <= String.length dir)%nat ->
    Readdir.well_named_entry entry = true -> NoDup (Spec.walk dir entry).
Proof.
  induction entry as [n|n e|n entries IH] using dirent_nested_ind; intros dir Hd Hw.
  - cbn. destruct (Spec.has_svg_extension n); [|constructor].
    apply NoDup_singleton.
  - constructor.
  - cbn [Spec.walk]. cbn [Readdir.well_named_entry] in Hw.
    apply andb_prop in Hw as [_ Hw]. apply andb_prop in Hw as [Hn Hw].
    apply bool_decide_eq_true in Hn. rewrite forallb_forall in Hw.
    rewrite List.Forall_forall in IH.
    assert (Hlong : (2 <= String.length (JS.resolve dir n))%nat).
    { unfold JS.resolve. rewrite join_long by done.
      rewrite chars_length, chars_app, length_app, <- chars_length. lia. }
    apply siblings_NoDup; [done|done| |].
    + apply List.Forall_forall. intros entry Hentry. specialize (Hw entry Hentry).
      destruct entry as [m|m [es|e]]; cbn in Hw; by apply andb_prop in Hw as [Hw _].
    + apply List.Forall_forall. intros entry Hentry. apply IH; auto.
Qed.

Lemma getSvgFiles_NoDup (E : env) (dir : string) (listing : result (list dirent)) (l : list string) :
  (2 <= String.length dir)%nat -> Readdir.well_named listing = true ->
  getSvgFiles E dir listing = Ok l -> NoDup l.
Proof.
  intros Hd Hw Hl. pose proof (getSvgFiles_discover E dir listing) as H. rewrite Hl in H.
  destruct H as (_ & _ & ->). destruct listing as [entries|e]; [|constructor].
  cbn [Spec.discover]. cbn [Readdir.well_named] in Hw.
  apply andb_prop in Hw as [Hn Hw].
  apply bool_decide_eq_true in Hn. rewrite forallb_forall in Hw.
  apply siblings_NoDup; [done|done| |].
  - apply List.Forall_forall. intros entry Hentry. specialize (Hw entry Hentry).
    destruct entry as [m|m [es|e]]; cbn in Hw; by apply andb_prop in Hw as [Hw _].
  - apply List.Forall_forall. intros entry Hentry. apply walk_NoDup; auto.
Qed.

(** ** The files a run reads *)

Lemma reads_app (a b : list event) : reads (a ++ b) = (reads a ++ reads b)%list.
Proof. apply flat_map_app. Qed.

Lemma file_outcome_reads (E : env) (d : disk) (n : nat) (p : string) :
  reads (fst (file_outcome E d n p)) = [p].
Proof.
  unfold file_outcome. destruct (file_content E p) as [content|e]; [|done].
  destruct (svgo_optimize E content _) as [x|e]; [|done].
  by destruct (write_refusal E d n _).
Qed.

Lemma loop_outcome_reads (E : env) (d : disk) (l : list string) :
  forall n,
    exists k, reads (fst (loop_outcome E d n l)) = take k l
              /\ (snd (loop_outcome E d n l) = Ok tt ->
                  reads (fst (loop_outcome E d n l)) = l).
Proof.
  induction l as [|p rest IHl]; intros n; [by exists 0%nat|]. cbn [loop_outcome].
  destruct (IHl (S n)) as (k & IH & IHok).
  pose proof (file_outcome_reads E d n p) as Hp.
  destruct (file_outcome E d n p) as [evs [data|e]]; cbn [fst snd] in *.
  - exists (S k). rewrite reads_app, Hp, IH. split; [done|].
    intros Hok. rewrite <- IH, IHok; done.
  - exists 1%nat. rewrite Hp. split; [by destruct rest|done].
Qed.

Lemma discovered_reads (E : env) (d : disk) (tr : list event) (l : list string) :
  reads tr = [] -> getSvgFiles E (RAW_DIR E) (raw_listing E) = Ok l ->
  (exists k, reads (trace (discovered E d tr)) = take k l)
  /\ (code (discovered E d tr) = 0%Z -> reads (trace (discovered E d tr)) = l).
Proof.
  intros Htr Hl. unfold discovered. rewrite Hl.
  destruct (loop_outcome_reads E d l (attempts tr)) as (k & Hk & Hok).
  destruct (snd (loop_outcome E d (attempts tr) l)) as [[]|e];
    [destruct (write_refusal E d _ (manifestPath E)) as [e|]|]; unfold failed; cbn [trace code];
    rewrite !reads_app, Htr; cbn [reads flat_map app]; rewrite ?app_nil_r.
  - rewrite Hok by done. split; [|done]. exists (List.length l). by rewrite firstn_all.
  - rewrite Hok by done. split; [|done]. exists (List.length l). by rewrite firstn_all.
  - split; [by exists k|done].
Qed.

(** X14: when the listings name their entries as [fs.readdir] does
    (single components, no two the same in a directory), the discovered
    paths are pairwise distinct; a run reads a prefix of them in discovery
    order, so each at most once, and all of them when it succeeds. *)
Theorem files_read_once (E : env) (d : disk) (l : list string) :
  Readdir.well_named (raw_listing E) = true ->
  getSvgFiles E (RAW_DIR E) (raw_listing E) = Ok l ->
  NoDup l
  /\ NoDup (reads (trace (run E d)))
  /\ (exists k, reads (trace (run E d)) = take k l)
  /\ (code (run E d) = 0%Z -> reads (trace (run E d)) = l).
Proof.
  intros Hw Hl.
  pose proof (getSvgFiles_NoDup _ _ _ _ (RAW_DIR_long E) Hw Hl) as Hnd.
  split; [done|].
  assert (H : (exists k, reads (trace (run E d)) = take k l)
              /\ (code (run E d) = 0%Z -> reads (trace (run E d)) = l)).
  { rewrite run_stages. unfold stages. destruct (probe E d).
    - by apply discovered_reads.
    - destruct (mkdir_refusal E d _) as [e|]; [|by apply discovered_reads].
      unfold failed. cbn. split; [by exists 0%nat|done]. }
  destruct H as [[k Hk] Hok]. split; [|eauto].
  rewrite Hk. rewrite <- (take_drop k l) in Hnd. by apply NoDup_app in Hnd as [? _].
Qed.

Lemma files_read_once_witness :
  NoDup ["/repo/raw/lock.svg"; "/repo/raw/nav/ARROW.SVG"]
  /\ NoDup (reads (trace (run Sample.rejecting Sample.empty_disk)))
  /\ (exists k, reads (trace (run Sample.rejecting Sample.empty_disk))
                = take k ["/repo/raw/lock.svg"; "/repo/raw/nav/ARROW.SVG"])
  /\ (code (run Sample.rejecting Sample.empty_disk) = 0%Z ->
      reads (trace (run Sample.rejecting Sample.empty_disk))
      = ["/repo/raw/lock.svg"; "/repo/raw/nav/ARROW.SVG"]).
Proof.
  apply (files_read_once Sample.rejecting Sample.empty_disk); by vm_compute.
Defined.

(** ** The manifest read back *)

Lemma chars_quote_units (s : string) :
  chars (JS.quote_units s) = flat_map (fun c => chars (JS.quote_unit c)) (chars s).
Proof.
  induction s as [|c s IH]; [reflexivity|]. cbn [JS.quote_units chars flat_map].
  by rewrite chars_app, IH.
Qed.

Lemma string_body_unit (c : ascii) (rest : list ascii) :
  JSONParse.string_body (chars (JS.quote_unit c) ++ rest)%list
  = JSONParse.push (Some c) (JSONParse.string_body rest).
Proof. destruct c as [[] [] [] [] [] [] [] []]; reflexivity. Qed.

(** What [QuoteJSONString] writes reads back as the string it was given. *)
Lemma string_body_quote (s rest : list ascii) :
  JSONParse.string_body
    (flat_map (fun c => chars (JS.quote_unit c)) s ++ "034"%char :: rest)%list
  = Some (s, rest).
Proof.
  induction s as [|c s IH]; [reflexivity|]. cbn [flat_map]. rewrite <- app_assoc.
  by rewrite string_body_unit, IH.
Qed.

Lemma chars_Quote (s : string) :
  chars (JS.QuoteJSONString s)
  = ("034"%char :: flat_map (fun c => chars (JS.quote_unit c)) (chars s) ++ ["034"%char])%list.
Proof.
  unfold JS.QuoteJSONString. cbn [chars]. by rewrite chars_app, chars_quote_units.
Qed.

(** The items of an array, separated by a comma and a line break, followed
    by a line break: equal texts have equal items. *)
Lemma concat_quote_inj (sep : string) (t1 t2 : list ascii) (n1 : list string) :
  forall n2,
    n1 <> [] -> n2 <> [] ->
    (exists sep', chars sep = ","%char :: sep') ->
    (exists t', t1 = "010"%char :: t') -> (exists t', t2 = "010"%char :: t') ->
    (chars (String.concat sep (List.map JS.QuoteJSONString n1)) ++ t1
     = chars (String.concat sep (List.map JS.QuoteJSONString n2)) ++ t2)%list ->
    n1 = n2 /\ t1 = t2.
Proof.
  induction n1 as [|a n1 IH]; intros [|b n2] H1 H2 Hsep Ht1 Ht2 Heq; try done.
  assert (Hstep : forall (x : string) (xs : list string) (t : list ascii),
            (chars (String.concat sep (List.map JS.QuoteJSONString (x :: xs))) ++ t
             = "034"%char :: flat_map (fun c => chars (JS.quote_unit c)) (chars x)
                 ++ "034"%char ::
                    match xs with
                    | [] => t
                    | _ => chars sep
                           ++ chars (String.concat sep (List.map JS.QuoteJSONString xs)) ++ t
                    end)%list).
  { intros x xs t. cbn [List.map String.concat]. destruct xs as [|y ys].
    - cbn [List.map]. rewrite chars_Quote. cbn [app]. by rewrite <- app_assoc.
    - cbn [List.map]. rewrite !chars_app, chars_Quote. cbn [app].
      rewrite <- !app_assoc. reflexivity. }
  rewrite !Hstep in Heq. injection Heq as Heq.
  apply (f_equal JSONParse.string_body) in Heq. rewrite !string_body_quote in Heq.
  injection Heq as Hab Hrest. apply chars_inj in Hab. subst b.
  destruct Hsep as [sep' Hsep], Ht1 as [t1' ->], Ht2 as [t2' ->].
  destruct n1 as [|a1 n1], n2 as [|b2 n2].
  - done.
  - rewrite Hsep in Hrest. discriminate.
  - rewrite Hsep in Hrest. discriminate.
  - apply app_inv_head in Hrest.
    destruct (IH (b2 :: n2)) as [-> ?]; eauto; done.
Qed.

Lemma manifest_chars (l : list string) :
  chars (manifest l)
  = (chars ("{" ++ JS.LF ++ "  " ++ JS.QuoteJSONString "icons" ++ ": ")
     ++ match iconNames l with
        | [] => chars "[]"
        | names =>
            chars ("[" ++ JS.LF ++ "    ")
            ++ chars (String.concat ("," ++ JS.LF ++ "    ")
                        (List.map JS.QuoteJSONString names))
            ++ chars (JS.LF ++ "  ]")
        end
     ++ chars (JS.LF ++ "}"))%list.
Proof.
  unfold manifest, JS.stringify.
  change (string_of_list_ascii (repeat " "%char (2 `min` 10))) with "  ".
  cbn [JS.SerializeJSONProperty List.map fst snd String.concat].
  change (String.eqb "  " "") with false. cbv iota.
  rewrite map_map. cbn [JS.SerializeJSONProperty].
  change (("" ++ "  ") ++ "  ") with "    ". change ("" ++ "  ") with "  ".
  destruct (iconNames l) as [|n ns].
  - cbn [List.map]. rewrite !chars_app. by rewrite <- !app_assoc.
  - set (items := List.map _ (n :: ns)).
    destruct items eqn:Hitems; [done|]. rewrite <- Hitems. clear Hitems.
    rewrite !chars_app. by rewrite <- !app_assoc.
Qed.

(** X15: the text of a manifest determines the names it lists: equal
    manifests were written from the same names in the same order,
    whatever units the names hold, since quotes, backslashes and control
    characters are escaped apart. *)
Theorem manifest_injective (l1 l2 : list string) :
  manifest l1 = manifest l2 -> iconNames l1 = iconNames l2.
Proof.
  intros Heq. apply (f_equal chars) in Heq. rewrite !manifest_chars in Heq.
  apply app_inv_head in Heq.
  destruct (iconNames l1) as [|a n1], (iconNames l2) as [|b n2]; [done|..].
  - rewrite !chars_app in Heq. cbn in Heq. discriminate.
  - rewrite !chars_app in Heq. cbn in Heq. discriminate.
  - rewrite <- !app_assoc in Heq. apply app_inv_head in Heq.
    apply concat_quote_inj in Heq as [? _]; [done..| | |].
    + by exists (chars (JS.LF ++ "    ")).
    + by exists (chars "  ]" ++ chars (JS.LF ++ "}"))%list.
    + by exists (chars "  ]" ++ chars (JS.LF ++ "}"))%list.
Qed.

Lemma manifest_injective_witness :
  iconNames ["/repo/raw/a/x.svg"] = iconNames ["/repo/raw/b/x.svg"].
Proof. apply manifest_injective. by vm_compute. Defined.

(** ** The icon component *)

Lemma spread_given (own given : React.props) (k : string) (v : React.value) :
  given !! k = Some v -> React.spread own given !! k = Some v.
Proof. intros H. unfold React.spread. by apply lookup_union_Some_l. Qed.

Lemma spread_own (own given : React.props) (k : string) :
  given !! k = None -> React.spread own given !! k = own !! k.
Proof. intros H. unfold React.spread. by apply lookup_union_r. Qed.

Lemma delete_reserved (config : gmap string React.value) (k : string) :
  delete "children" (delete "ref" (delete "key" config)) !! k
  = if bool_decide (k ∈ ["children"; "key"; "ref"]) then None else config !! k.
Proof.
  destruct (decide (k = "children")) as [->|H1].
  { by rewrite (lookup_delete_eq (delete "ref" (delete "key" config)) "children"). }
  rewrite (lookup_delete_ne (delete "ref" (delete "key" config)) "children" k) by done.
  destruct (decide (k = "ref")) as [->|H2].
  { by rewrite (lookup_delete_eq (delete "key" config) "ref"). }
  rewrite (lookup_delete_ne (delete "key" config) "ref" k) by done.
  destruct (decide (k = "key")) as [->|H3].
  { by rewrite (lookup_delete_eq config "key"). }
  rewrite (lookup_delete_ne config "key" k) by done.
  rewrite bool_decide_eq_false_2; [done|].
  rewrite !elem_of_cons, elem_of_nil. by intros [?|[?|[?|[]]]].
Qed.

Lemma createElement_props (type : string) (config : React.props)
    (kids : list React.node) (k : string) :
  React.attribute k (React.createElement type config kids)
  = if bool_decide (k ∈ ["children"; "key"; "ref"]) then None else config !! k.
Proof.
  unfold React.createElement, React.props in *. cbn [React.attribute].
  apply delete_reserved.
Qed.

Lemma createElement_attribute (type : string) (config : React.props)
    (kids : list React.node) (k : string) :
  k ∉ ["children"; "key"; "ref"] ->
  React.attribute k (React.createElement type config kids) = config !! k.
Proof. intros Hk. by rewrite createElement_props, bool_decide_eq_false_2. Qed.

Ltac not_reserved := rewrite !elem_of_cons, elem_of_nil; by intros [?|[?|[?|[]]]].

Lemma createElement_children (type : string) (config : React.props)
    (kid : React.node) (kids : list React.node) :
  React.children (React.createElement type config (kid :: kids)) = kid :: kids.
Proof. done. Qed.

(** X16: the props of the [svg] element of [Lock].  A prop given beyond
    [size], [color] and [title], other than [children], [key] and [ref],
    is passed on and wins over what the component sets for that key.  A
    [children] prop given is dropped: the children of the element are
    those the component writes.  Otherwise [width] and [height] are both
    [size], 24 when absent or undefined; [fill] is [color],
    [currentColor] when absent or undefined; [viewBox] and [xmlns] are
    fixed; [aria-hidden] is ["false"] for a non-empty [title] and
    ["true"] otherwise.  No other prop is set. *)
Theorem Lock_attributes (p : Icons.IconProps) :
  (forall k v, Icons.rest p !! k = Some v -> k ∉ ["children"; "key"; "ref"] ->
               React.attribute k (Icons.Lock p) = Some v)
  /\ React.children (Icons.Lock p)
     = React.children
         (Icons.Lock (Icons.mkIconProps (Icons.size p) (Icons.color p) (Icons.title p) ∅))
  /\ (Icons.rest p !! "width" = None ->
      React.attribute "width" (Icons.Lock p)
      = Some (Icons.size_prop (default (Icons.SizeNumber 24) (Icons.size p))))
  /\ (Icons.rest p !! "height" = None ->
      React.attribute "height" (Icons.Lock p)
      = Some (Icons.size_prop (default (Icons.SizeNumber 24) (Icons.size p))))
  /\ (Icons.rest p !! "fill" = None ->
      React.attribute "fill" (Icons.Lock p)
      = Some (React.VString (default "currentColor" (Icons.color p))))
  /\ (Icons.rest p !! "viewBox" = None ->
      React.attribute "viewBox" (Icons.Lock p) = Some (React.VString "0 0 24 24"))
  /\ (Icons.rest p !! "xmlns" = None ->
      React.attribute "xmlns" (Icons.Lock p)
      = Some (React.VString "http://www.w3.org/2000/svg"))
  /\ (Icons.rest p !! "aria-hidden" = None ->
      React.attribute "aria-hidden" (Icons.Lock p)
      = Some (React.VString (if Icons.truthy (Icons.title p) then "false" else "true")))
  /\ (forall k, Icons.rest p !! k = None ->
        k ∉ ["xmlns"; "width"; "height"; "viewBox"; "fill"; "aria-hidden"] ->
        React.attribute k (Icons.Lock p) = None).
Proof.
  unfold Icons.Lock.
  split.
  { intros k v Hv Hk. rewrite createElement_attribute by done. by apply spread_given. }
  split; [done|].
  repeat split;
    try (intros H; rewrite createElement_attribute by not_reserved;
         by rewrite spread_own).
  intros k Hk Hn. rewrite createElement_props. destruct (bool_decide _); [done|].
  rewrite spread_own by done. by apply not_elem_of_list_to_map_1.
Qed.

Lemma Lock_attributes_witness :
  React.attribute "className" (Icons.Lock Sample.titled) = Some (React.VString "icon").
Proof.
  apply (proj1 (Lock_attributes Sample.titled)); [by vm_compute|not_reserved].
Defined.

(** X17: unless the caller gives [aria-hidden], the icon is hidden from
    assistive technology exactly when it carries no [title] element with
    a text.  A non-empty [title] puts a [title] element with that text
    first; an empty [title] counts as none: the icon is hidden and only
    the [path] renders. *)
Theorem Lock_hidden_unless_titled (p : Icons.IconProps) :
  Icons.rest p !! "aria-hidden" = None ->
  Icons.labelled (Icons.Lock p) = Icons.truthy (Icons.title p)
  /\ Icons.hidden (Icons.Lock p) = negb (Icons.labelled (Icons.Lock p))
  /\ List.length (List.filter React.renders (React.children (Icons.Lock p)))
     = (if Icons.truthy (Icons.title p) then 2%nat else 1%nat)
  /\ (forall t, Icons.title p = Some t -> t <> "" ->
        React.children (Icons.Lock p) !! 0%nat
        = Some (React.Element "title" ∅ [React.Value (React.VString t)])).
Proof.
  intros Hrest.
  assert (Hh : Icons.hidden (Icons.Lock p) = negb (Icons.truthy (Icons.title p))).
  { unfold Icons.hidden, Icons.Lock.
    rewrite createElement_attribute by not_reserved.
    rewrite spread_own by done.
    change (list_to_map _ !! "aria-hidden")
      with (Some (React.VString (if Icons.truthy (Icons.title p) then "false" else "true"))).
    by destruct (Icons.truthy (Icons.title p)). }
  assert (Hl : Icons.labelled (Icons.Lock p) = Icons.truthy (Icons.title p)).
  { unfold Icons.labelled, Icons.Lock. rewrite createElement_children. cbn [List.existsb].
    destruct (Icons.title p) as [t|]; [|done]. cbn [Icons.truthy].
    destruct (String.eqb t "") eqn:Ht; cbn; [done|]. by rewrite Ht. }
  split; [done|]. split; [by rewrite Hh, Hl|]. split.
  - unfold Icons.Lock. rewrite createElement_children.
    destruct (Icons.title p) as [t|]; [|done].
    cbn [Icons.truthy]. destruct (String.eqb t "") eqn:Ht; cbn; [by rewrite Ht|done].
  - intros t Ht Hne. unfold Icons.Lock. rewrite createElement_children, Ht. cbn.
    by destruct (String.eqb_spec t "").
Qed.

Lemma Lock_hidden_unless_titled_witness :
  Icons.labelled (Icons.Lock Sample.titled) = Icons.truthy (Icons.title Sample.titled)
  /\ Icons.hidden (Icons.Lock Sample.titled)
     = negb (Icons.labelled (Icons.Lock Sample.titled))
  /\ List.length (List.filter React.renders (React.children (Icons.Lock Sample.titled)))
     = (if Icons.truthy (Icons.title Sample.titled) then 2%nat else 1%nat)
  /\ (forall t, Icons.title Sample.titled = Some t -> t <> "" ->
        React.children (Icons.Lock Sample.titled) !! 0%nat
        = Some (React.Element "title" ∅ [React.Value (React.VString t)])).
Proof.
  apply (Lock_hidden_unless_titled Sample.titled). by vm_compute.
Defined.
